(** * Orbital python shell: effect execution core

    A shallow embedding of the core of [orbital_app] (binding resolver,
    in-memory repository, effect executor, event bus, connection manager)
    together with the properties its design document states about it.

    Python values are embedded as a first-order datatype, Python
    exceptions as an error result, and the mutable objects ([self],
    the request context) as explicit state.

    Values are finite trees, not objects with an identity.  The code
    hands one and the same dict to several holders: the repository
    returns the stored dict itself, the executor keeps it in its data
    and in its audit entries, and [set] assigns the resolved object
    itself.  A definition below gives each holder the state the object
    has at that point.  The properties are stated accordingly: those
    about a call that writes into such a dict in place say what they
    assume about it, or state only what sharing cannot change (the
    number of entries, the keys of the context, the value returned). *)

From Stdlib Require Import String Ascii List ZArith Bool Arith Lia.
Import ListNotations.
Open Scope string_scope.
Open Scope list_scope.
Set Warnings "-register-all".

(** ** Python values *)

(** Dictionary keys: the hashable values.  [True] and [1] are the same
    key, as in Python. *)
Inductive key : Type :=
| KNone
| KInt (z : Z)
| KStr (s : string)
| KOpaque (n : nat).

Definition key_eqb (a b : key) : bool :=
  match a, b with
  | KNone, KNone => true
  | KInt x, KInt y => Z.eqb x y
  | KStr x, KStr y => String.eqb x y
  | KOpaque x, KOpaque y => Nat.eqb x y
  | _, _ => false
  end.

(** The values that travel through effects, contexts and entities:
    JSON data, plus records ([VObj]: the pydantic models of the code
    base, such as the authenticated user [FirebaseUser] behind [@user],
    with the fields they declare) and opaque runtime objects
    ([VOpaque], e.g. the bound method that
    [getattr("abc", "upper", None)] returns). *)
Inductive value : Type :=
| VNone
| VBool (b : bool)
| VInt (z : Z)
| VStr (s : string)
| VList (l : list value)
| VDict (d : list (key * value))
| VObj (attrs : list (key * value))
| VOpaque (n : nat).

Definition dict := list (key * value).

(** ** Exceptions *)

Inductive exn : Type :=
| IndexError | KeyError | TypeError | AttributeError | ValueError
| ServiceError.

Inductive result (A : Type) : Type :=
| Ok (a : A)
| Raise (e : exn).
Arguments Ok {A} a.
Arguments Raise {A} e.

Definition rbind {A B} (m : result A) (f : A -> result B) : result B :=
  match m with
  | Ok a => f a
  | Raise e => Raise e
  end.

Declare Scope result_scope.
Delimit Scope result_scope with result.
Notation "x <- m ;; k" := (rbind m (fun x => k))
  (at level 61, m at next level, right associativity) : result_scope.

(** ** Association lists with Python [dict] behaviour

    Insertion order is kept ([list(d.values())] depends on it); assigning
    an existing key keeps its position, a new key goes last. *)
Section Assoc.
Context {K V : Type} (eqb : K -> K -> bool).

Fixpoint assoc_get (d : list (K * V)) (k : K) : option V :=
  match d with
  | [] => None
  | (k', v) :: rest => if eqb k' k then Some v else assoc_get rest k
  end.

Definition assoc_mem (d : list (K * V)) (k : K) : bool :=
  match assoc_get d k with Some _ => true | None => false end.

Fixpoint assoc_set (d : list (K * V)) (k : K) (v : V) : list (K * V) :=
  match d with
  | [] => [(k, v)]
  | (k', v') :: rest =>
      if eqb k' k then (k', v) :: rest else (k', v') :: assoc_set rest k v
  end.

(** [del d[k]]: the key is gone afterwards. *)
Definition assoc_del (d : list (K * V)) (k : K) : list (K * V) :=
  filter (fun kv => negb (eqb (fst kv) k)) d.

Definition assoc_values (d : list (K * V)) : list V := map snd d.

End Assoc.

Definition key_get {V} (d : list (key * V)) (k : key) : option V :=
  assoc_get key_eqb d k.
Definition key_mem {V} (d : list (key * V)) (k : key) : bool :=
  assoc_mem key_eqb d k.
Definition key_set {V} (d : list (key * V)) (k : key) (v : V)
  : list (key * V) :=
  assoc_set key_eqb d k v.
Definition key_del {V} (d : list (key * V)) (k : key) : list (key * V) :=
  assoc_del key_eqb d k.

(** Access with a string key, the common case. *)
Definition dict_get (d : dict) (k : string) : option value :=
  key_get d (KStr k).
Definition dict_mem (d : dict) (k : string) : bool :=
  key_mem d (KStr k).
Definition dict_set (d : dict) (k : string) (v : value) : dict :=
  key_set d (KStr k) v.

(** [d.get(k, default)] *)
Definition dict_get_default (d : dict) (k : string) (default : value) : value :=
  match dict_get d k with Some v => v | None => default end.

(** [d[k]] *)
Definition dict_subscript (d : dict) (k : string) : result value :=
  match dict_get d k with Some v => Ok v | None => Raise KeyError end.

(** [d.update(other)] / [{**d, **other}] *)
Definition dict_update (d other : dict) : dict :=
  fold_left (fun acc kv => key_set acc (fst kv) (snd kv)) other d.

(** [xs[i]] on a Python list, for a non-negative literal index. *)
Definition list_subscript {A} (xs : list A) (i : nat) : result A :=
  match nth_error xs i with Some x => Ok x | None => Raise IndexError end.

(** [xs[i] = x]: for an index in range. *)
Fixpoint list_assign {A} (xs : list A) (i : nat) (x : A) : list A :=
  match xs, i with
  | [], _ => []
  | _ :: rest, O => x :: rest
  | y :: rest, S j => y :: list_assign rest j x
  end.

(** ** Strings *)

(** [s.startswith(p)] *)
Fixpoint startswith (s p : string) {struct p} : bool :=
  match p, s with
  | EmptyString, _ => true
  | String c p', String c' s' => Ascii.eqb c' c && startswith s' p'
  | String _ _, EmptyString => false
  end.

Arguments startswith s p : simpl never.

(** [s[1:]] *)
Definition drop_first (s : string) : string :=
  match s with
  | EmptyString => EmptyString
  | String _ s' => s'
  end.

(** [s.split(".")]: never empty, [""] splits to [[""]]. *)
Fixpoint split_dot (s : string) : list string :=
  match s with
  | EmptyString => [EmptyString]
  | String c rest =>
      if Ascii.eqb c "."%char then EmptyString :: split_dot rest
      else match split_dot rest with
           | [] => [String c EmptyString]
           | p :: ps => String c p :: ps
           end
  end.

(** [".".join(parts)] *)
Fixpoint join_dot (parts : list string) : string :=
  match parts with
  | [] => EmptyString
  | [p] => p
  | p :: rest => p ++ "." ++ join_dot rest
  end.

Fixpoint dotless (s : string) : Prop :=
  match s with
  | EmptyString => True
  | String c s' => c <> "."%char /\ dotless s'
  end.

(** ** Truthiness and equality *)

(** [bool(v)] *)
Definition truthy (v : value) : bool :=
  match v with
  | VNone => false
  | VBool b => b
  | VInt z => negb (Z.eqb z 0)
  | VStr s => negb (String.eqb s "")
  | VList l => match l with [] => false | _ => true end
  | VDict d => match d with [] => false | _ => true end
  | VObj _ => true
  | VOpaque _ => true
  end.

(** [a == b]: booleans compare as the integers 0 and 1, lists
    element-wise, dicts key-wise whatever the order of insertion,
    records field by field. *)
Fixpoint py_eq (a b : value) {struct a} : bool :=
  match a, b with
  | VNone, VNone => true
  | VBool x, VBool y => Bool.eqb x y
  | VBool x, VInt y => Z.eqb (Z.b2z x) y
  | VInt x, VBool y => Z.eqb x (Z.b2z y)
  | VInt x, VInt y => Z.eqb x y
  | VStr x, VStr y => String.eqb x y
  | VList xs, VList ys =>
      (fix go (xs ys : list value) : bool :=
         match xs, ys with
         | [], [] => true
         | x :: xs', y :: ys' => py_eq x y && go xs' ys'
         | _, _ => false
         end) xs ys
  | VDict d1, VDict d2 =>
      Nat.eqb (List.length d1) (List.length d2) &&
      (fix go (d : list (key * value)) : bool :=
         match d with
         | [] => true
         | (k, v) :: d' =>
             match key_get d2 k with
             | Some w => py_eq v w
             | None => false
             end && go d'
         end) d1
  | VObj f1, VObj f2 =>
      (fix go (f1 f2 : list (key * value)) : bool :=
         match f1, f2 with
         | [], [] => true
         | (k, v) :: f1', (k', w) :: f2' =>
             key_eqb k k' && py_eq v w && go f1' f2'
         | _, _ => false
         end) f1 f2
  | VOpaque n, VOpaque m => Nat.eqb n m
  | _, _ => false
  end.

(** [hash(v)], as a dictionary does before any lookup or store: lists,
    dicts and (value-comparing) records are unhashable. *)
Definition hash_key (v : value) : result key :=
  match v with
  | VNone => Ok KNone
  | VBool b => Ok (KInt (Z.b2z b))
  | VInt z => Ok (KInt z)
  | VStr s => Ok (KStr s)
  | VOpaque n => Ok (KOpaque n)
  | VList _ | VDict _ | VObj _ => Raise TypeError
  end.

(** The value a key stands for, as seen when a dict is iterated. *)
Definition key_value (k : key) : value :=
  match k with
  | KNone => VNone
  | KInt z => VInt z
  | KStr s => VStr s
  | KOpaque n => VOpaque n
  end.

(** [sub in s] on strings *)
Fixpoint str_contains (s sub : string) : bool :=
  startswith s sub ||
  match s with
  | EmptyString => false
  | String _ s' => str_contains s' sub
  end.

(** [s.replace(old, new)] for a non-empty [old]: left to right, matches
    do not overlap.  [skip] counts the characters of a match still to be
    dropped. *)
Fixpoint replace_from (skip : nat) (s old new : string) : string :=
  match s with
  | EmptyString => EmptyString
  | String c s' =>
      match skip with
      | S k => replace_from k s' old new
      | O =>
          if startswith s old
          then new ++ replace_from (String.length old - 1) s' old new
          else String c (replace_from 0 s' old new)
      end
  end.

Definition replace (s old new : string) : string := replace_from 0 s old new.

(** [x in container] *)
Definition py_contains (x container : value) : result bool :=
  match container with
  | VDict d => k <- hash_key x ;; Ok (key_mem d k)
  | VList l => Ok (existsb (fun e => py_eq e x) l)
  | VStr s =>
      match x with
      | VStr sub => Ok (str_contains s sub)
      | _ => Raise TypeError
      end
  | _ => Raise TypeError
  end%result.

(** [container[name]] for a string [name]: only a dict can be
    subscripted by a string. *)
Definition py_subscript_str (container : value) (name : string) : result value :=
  match container with
  | VDict d => dict_subscript d name
  | _ => Raise TypeError
  end.

(** [v is None] *)
Definition is_none (v : value) : bool :=
  match v with VNone => true | _ => false end.

(** [isinstance(v, list)] *)
Definition isinstance_list (v : value) : bool :=
  match v with VList _ => true | _ => false end.

(** [v[i]] for a literal index [i >= 0] *)
Definition py_index (v : value) (i : nat) : result value :=
  match v with
  | VList l => list_subscript l i
  | VStr s =>
      match String.get i s with
      | Some c => Ok (VStr (String c EmptyString))
      | None => Raise IndexError
      end
  | VDict d =>
      match key_get d (KInt (Z.of_nat i)) with
      | Some x => Ok x
      | None => Raise KeyError
      end
  | _ => Raise TypeError
  end.

(** [obj.get(name)]: only dicts have [get]. *)
Definition py_get (obj : value) (name : string) : result value :=
  match obj with
  | VDict d => Ok (dict_get_default d name VNone)
  | _ => Raise AttributeError
  end.

(** [a or b] *)
Definition py_or (a b : value) : value := if truthy a then a else b.

(** Reading a two-element sequence, as [dict.update] does with the
    items of a non-mapping argument. *)
Definition as_pair (e : value) : result (value * value) :=
  match e with
  | VList [k; v] => Ok (k, v)
  | VList _ => Raise ValueError
  | VStr (String a (String b EmptyString)) =>
      Ok (VStr (String a EmptyString), VStr (String b EmptyString))
  | VStr _ => Raise ValueError
  | VDict [(k1, _); (k2, _)] => Ok (key_value k1, key_value k2)
  | VDict _ => Raise ValueError
  | _ => Raise TypeError
  end.

(** [d.update(arg)]: a mapping is merged; any other iterable must yield
    pairs; anything else is a [TypeError]. *)
Definition py_dict_update (d : dict) (arg : value) : result dict :=
  match arg with
  | VDict other => Ok (dict_update d other)
  | VList items =>
      fold_left
        (fun acc e =>
           d' <- acc ;;
           kv <- as_pair e ;;
           k <- hash_key (fst kv) ;;
           Ok (key_set d' k (snd kv)))
        items (Ok d)
  | VStr EmptyString => Ok d
  | VStr _ => Raise ValueError
  | _ => Raise TypeError
  end%result.

(** [{**data, name: v}]: [data] must be a mapping. *)
Definition py_dict_with (data : value) (name : string) (v : value)
  : result dict :=
  match data with
  | VDict d => Ok (dict_set d name v)
  | _ => Raise TypeError
  end.

(** ** The Python runtime the core runs on

    What the embedding takes from outside the repository's own code:
    attributes of built-in objects, the uuid generator, and the wrapped
    numerical framework behind [nn/forward] and [train/loop]. *)
Class Runtime : Type := {
  (** [getattr(v, name)] on a value that is not a record: [None] when
      the attribute does not exist. *)
  builtin_attr : value -> string -> option value;
  (** [setattr(record, name, v)] for a name the record does not declare
      as a field: the record after the assignment, or the exception
      (pydantic refuses such a name with [ValueError], unless it is a
      private one) *)
  setattr_undeclared : value -> string -> value -> result value;
  (** [str(uuid.uuid4())] for the n-th draw *)
  uuid4 : nat -> string;
  (** whether [from ..nn.forward import forward] succeeds *)
  torch_available : bool;
  nn_forward : value -> value -> result value;
  train_loop : value -> value -> value -> result value
}.

(** [getattr(v, name, default)] *)
Definition py_getattr `{Runtime} (v : value) (name : string) (default : value)
  : value :=
  match v with
  | VObj attrs =>
      match dict_get attrs name with
      | Some x => x
      | None =>
          match builtin_attr v name with Some x => x | None => default end
      end
  | _ => match builtin_attr v name with Some x => x | None => default end
  end.

(** ** core/bindings.py *)

Module Bindings.
Section WithRuntime.
Context `{Runtime}.
Local Open Scope result_scope.

(** The loop [for part in parts[1:]] of [resolve_binding]. *)
Fixpoint resolve_path (res : value) (parts : list string) : value :=
  match parts with
  | [] => res
  | part :: rest =>
      match res with
      | VNone => VNone
      | VDict d => resolve_path (dict_get_default d part VNone) rest
      | _ => resolve_path (py_getattr res part VNone) rest
      end
  end.

Definition resolve_binding (val : value) (context : dict) : result value :=
  match val with
  | VStr s =>
      if negb (startswith s "@") then Ok val
      else
        let parts := split_dot (drop_first s) in
        root <- list_subscript parts 0 ;;
        if negb (dict_mem context root) then Ok VNone
        else
          res <- dict_subscript context root ;;
          Ok (resolve_path res (tl parts))
  | _ => Ok val
  end.

(** The body of [resolve_bindings_in_dict], given [recurse] for the
    nested dictionaries. *)
Section Fields.
Variable recurse : value -> result value.
Variable context : dict.

(** An item of a list-valued field: a dict is recursed into, a string
    resolved, anything else (a nested list included) kept. *)
Definition resolve_item (item : value) : result value :=
  match item with
  | VDict _ => recurse item
  | VStr _ => resolve_binding item context
  | _ => Ok item
  end.

Fixpoint resolve_items (items : list value) : result (list value) :=
  match items with
  | [] => Ok []
  | item :: more =>
      x <- resolve_item item ;;
      xs <- resolve_items more ;;
      Ok (x :: xs)
  end.

Definition resolve_field (val : value) : result value :=
  match val with
  | VStr _ => resolve_binding val context
  | VDict _ => recurse val
  | VList items => resolved <- resolve_items items ;; Ok (VList resolved)
  | _ => Ok val
  end.

(** [for key, value in data.items(): result[key] = ...] *)
Fixpoint resolve_fields (fields : list (key * value)) (res : dict)
  : result dict :=
  match fields with
  | [] => Ok res
  | (k, val) :: rest =>
      new <- resolve_field val ;;
      resolve_fields rest (key_set res k new)
  end.

End Fields.

(** [data.items()] exists on dicts only. *)
Fixpoint resolve_bindings_in_dict (data : value) (context : dict)
  {struct data} : result value :=
  match data with
  | VDict fields =>
      res <- resolve_fields
               (fun nested => resolve_bindings_in_dict nested context)
               context fields [] ;;
      Ok (VDict res)
  | _ => Raise AttributeError
  end.

End WithRuntime.
End Bindings.

(** ** core/repository.py: [InMemoryRepository] *)

Module InMemoryRepository.

(** [self]: the store [entity_type -> entity_id -> entity], and how many
    uuids the process has drawn so far. *)
Record t : Type := mk {
  _store : list (key * list (key * dict));
  uuid_draws : nat
}.

(** [InMemoryRepository()] *)
Definition init : t := {| _store := []; uuid_draws := 0 |}.

(** [self._store.get(entity_type, {})] for an already hashed type *)
Definition bucket (self : t) (kt : key) : list (key * dict) :=
  match key_get (_store self) kt with Some b => b | None => [] end.

Definition set_bucket (self : t) (kt : key) (b : list (key * dict)) : t :=
  {| _store := key_set (_store self) kt b; uuid_draws := uuid_draws self |}.

Definition option_value (o : option dict) : value :=
  match o with Some e => VDict e | None => VNone end.

Section WithRuntime.
Context `{Runtime}.
Local Open Scope result_scope.

Definition get (self : t) (entity_type entity_id : value) : result value :=
  kt <- hash_key entity_type ;;
  ki <- hash_key entity_id ;;
  Ok (option_value (key_get (bucket self kt) ki)).

Definition _apply_filter (entities : list dict) (filter_expr : value)
    (context : value) : result (list dict) :=
  if negb (truthy filter_expr) || negb (isinstance_list filter_expr)
  then Ok entities
  else
    op <- py_index filter_expr 0 ;;
    if py_eq op (VStr "=") then
      field_path <- py_index filter_expr 1 ;;
      expected_value <- py_index filter_expr 2 ;;
      match field_path with
      | VStr fp =>
          if startswith fp "@entity." then
            let field_name := replace fp "@entity." "" in
            Ok (filter
                  (fun e =>
                     py_eq (dict_get_default e field_name VNone)
                           expected_value)
                  entities)
          else Ok entities
      | _ => Ok entities
      end
    else Ok entities.

Definition create (self : t) (entity_type data : value)
  : result (value * t) :=
  got <- py_get data "id" ;;
  let entity_id :=
    if truthy got then got else VStr (uuid4 (uuid_draws self)) in
  let self1 :=
    if truthy got then self
    else {| _store := _store self; uuid_draws := S (uuid_draws self) |} in
  data' <- py_dict_with data "id" entity_id ;;
  kt <- hash_key entity_type ;;
  ki <- hash_key entity_id ;;
  Ok (VDict data', set_bucket self1 kt (key_set (bucket self1 kt) ki data')).

(** For a stored entity, [existing.update(data)] writes into the
    stored dict in place and returns that dict; here the state it then
    has replaces the one under its key. *)
Definition update (self : t) (entity_type entity_id data : value)
  : result (value * t) :=
  kt <- hash_key entity_type ;;
  ki <- hash_key entity_id ;;
  match key_get (bucket self kt) ki with
  | Some existing =>
      merged <- py_dict_update existing data ;;
      Ok (VDict merged, set_bucket self kt (key_set (bucket self kt) ki merged))
  | None =>
      fresh <- py_dict_with data "id" entity_id ;;
      Ok (VDict fresh, set_bucket self kt (key_set (bucket self kt) ki fresh))
  end.

Definition delete (self : t) (entity_type entity_id : value)
  : result (bool * t) :=
  kt <- hash_key entity_type ;;
  if key_mem (_store self) kt then
    ki <- hash_key entity_id ;;
    if key_mem (bucket self kt) ki then
      Ok (true, set_bucket self kt (key_del (bucket self kt) ki))
    else Ok (false, self)
  else Ok (false, self).

(** The loop of [seed].  The entities are dicts of the caller, and
    [entity["id"] = entity_id] writes into them: [objects] are the
    caller's dicts and [entities] lists them by their position in
    [objects], so that the same dict can be listed more than once.
    The dict written into is the object stored.  Returns [self] and
    the caller's dicts as they are afterwards. *)
Fixpoint seed_entities (self : t) (kt : key) (objects : Datatypes.list value)
    (entities : Datatypes.list nat) : result (t * Datatypes.list value) :=
  match entities with
  | [] => Ok (self, objects)
  | position :: rest =>
      let entity := nth position objects VNone in
      got <- py_get entity "id" ;;
      let entity_id :=
        if truthy got then got else VStr (uuid4 (uuid_draws self)) in
      let self1 :=
        if truthy got then self
        else {| _store := _store self; uuid_draws := S (uuid_draws self) |} in
      entity' <- py_dict_with entity "id" entity_id ;;
      ki <- hash_key entity_id ;;
      seed_entities
        (set_bucket self1 kt (key_set (bucket self1 kt) ki entity')) kt
        (list_assign objects position (VDict entity')) rest
  end.

Definition seed (self : t) (entity_type : value)
    (objects : Datatypes.list value) (entities : Datatypes.list nat)
  : result (t * Datatypes.list value) :=
  kt <- hash_key entity_type ;;
  seed_entities
    (if key_mem (_store self) kt then self else set_bucket self kt [])
    kt objects entities.

Definition list (self : t) (entity_type filter_expr context : value)
  : result (Datatypes.list dict) :=
  kt <- hash_key entity_type ;;
  let entities := assoc_values (bucket self kt) in
  if truthy filter_expr && truthy context then
    _apply_filter entities filter_expr context
  else Ok entities.

End WithRuntime.
End InMemoryRepository.

(** ** core/effect_executor.py: [EffectExecutor] *)

Module EffectExecutor.

(** [self]. *)
Record t : Type := mk {
  repository : InMemoryRepository.t;
  data : list (key * value);
  client_effects : list value;
  effect_results : list value
}.

(** [EffectExecutor(repository)] *)
Definition init (repository : InMemoryRepository.t) : t :=
  {| repository := repository; data := [];
     client_effects := []; effect_results := [] |}.

Definition set_repository (self : t) (r : InMemoryRepository.t) : t :=
  {| repository := r; data := data self;
     client_effects := client_effects self;
     effect_results := effect_results self |}.

(** [self.data[k] = v] *)
Definition set_data (self : t) (k : key) (v : value) : t :=
  {| repository := repository self; data := key_set (data self) k v;
     client_effects := client_effects self;
     effect_results := effect_results self |}.

(** [self.client_effects.append(effect)] *)
Definition append_client_effect (self : t) (effect : value) : t :=
  {| repository := repository self; data := data self;
     client_effects := client_effects self ++ [effect];
     effect_results := effect_results self |}.

(** [self.effect_results.append(entry)] *)
Definition append_effect_result (self : t) (entry : value) : t :=
  {| repository := repository self; data := data self;
     client_effects := client_effects self;
     effect_results := effect_results self ++ [entry] |}.

(** What a call leaves behind: the returned value, [self], and the
    caller's context dict (which [set] mutates in place). *)
Definition outcome : Type := (value * t * dict)%type.

(** [s.startswith(p)] as a method call: only strings have it. *)
Definition py_startswith (v : value) (p : string) : result bool :=
  match v with
  | VStr s => Ok (startswith s p)
  | _ => Raise AttributeError
  end.

(** [xs[:-1]] *)
Definition but_last {A} (xs : list A) : list A := removelast xs.

(** [xs[-1]] *)
Definition last_item {A} (xs : list A) : result A :=
  match xs with
  | [] => Raise IndexError
  | x :: rest => Ok (last rest x)
  end.

(** The object reached along [parts] is mutated in place: seen from
    the object the walk started at, the sub-object at that path is
    replaced by its new state.  A hop that fell back to the default
    [{}] (or to an attribute of a built-in value) reached an object
    that is not part of the start object, which then stays as it was.
    Only the root walked from is rewritten here: another holder of the
    object assigned into (another root, an audit entry, a stored
    entity) sees the assignment in the code and is not followed. *)
Fixpoint write_back (obj : value) (parts : list string) (new : value)
  : value :=
  match parts with
  | [] => new
  | part :: rest =>
      match obj with
      | VDict d =>
          match dict_get d part with
          | Some child => VDict (dict_set d part (write_back child rest new))
          | None => obj
          end
      | VObj attrs =>
          match dict_get attrs part with
          | Some child =>
              VObj (dict_set attrs part (write_back child rest new))
          | None => obj
          end
      | _ => obj
      end
  end.

Section WithRuntime.
Context `{Runtime}.
Local Open Scope result_scope.

(** [obj[final_field] = value] on a dict, [setattr] otherwise: a record
    takes a field it declares, for any other name the runtime decides;
    built-in values refuse every attribute.  Returns the object as it
    is after the assignment. *)
Definition assign_field (obj : value) (final_field : string) (val : value)
  : result value :=
  match obj with
  | VDict d => Ok (VDict (dict_set d final_field val))
  | VObj fields =>
      if dict_mem fields final_field
      then Ok (VObj (dict_set fields final_field val))
      else setattr_undeclared obj final_field val
  | _ => Raise AttributeError
  end.

(** [effect[i] if len(effect) > i else default] *)
Definition optional_arg (effect : list value) (i : nat) (default : value)
  : result value :=
  if Nat.ltb i (List.length effect) then list_subscript effect i else Ok default.

(** [self.data[entity_type]] receives what the repository returns, for
    one entity the stored dict itself: its state at this point is what
    is kept here. *)
Definition _execute_fetch (self : t) (effect : list value) (context : dict)
  : result outcome :=
  entity_type <- list_subscript effect 1 ;;
  options <- optional_arg effect 2 (VDict []) ;;
  has_id <- py_contains (VStr "id") options ;;
  if has_id then
    raw_id <- py_subscript_str options "id" ;;
    entity_id <- Bindings.resolve_binding raw_id context ;;
    res <- InMemoryRepository.get (repository self) entity_type entity_id ;;
    kt <- hash_key entity_type ;;
    let self' := set_data self kt res in
    Ok (match key_get (data self') kt with Some v => v | None => VNone end,
        self', context)
  else
    filter_expr <- py_get options "filter" ;;
    results <- InMemoryRepository.list (repository self) entity_type
                 filter_expr (VDict context) ;;
    kt <- hash_key entity_type ;;
    let self' := set_data self kt (VList (map VDict results)) in
    Ok (match key_get (data self') kt with Some v => v | None => VNone end,
        self', context).

Definition persist_entry (action entity_type res : value) : value :=
  VDict [(KStr "effect", VStr "persist");
         (KStr "action", action);
         (KStr "entityType", entity_type);
         (KStr "data", res);
         (KStr "success", VBool (negb (is_none res)))].

(** The value returned and the [data] of the audit entry are what the
    repository returns, for [create] and [update] the stored dict
    itself: its state at this point is what is recorded here. *)
Definition _execute_persist (self : t) (effect : list value) (context : dict)
  : result outcome :=
  action <- list_subscript effect 1 ;;
  entity_type <- list_subscript effect 2 ;;
  data <- (if Nat.ltb 3 (List.length effect)
           then raw <- list_subscript effect 3 ;;
                Bindings.resolve_binding raw context
           else Ok (VDict [])) ;;
  res_self <-
    (if py_eq action (VStr "create") then
       InMemoryRepository.create (repository self) entity_type data
     else if py_eq action (VStr "update") then
       let entity_id :=
         py_or (dict_get_default context "entityId" VNone)
               (match data with
                | VDict d => dict_get_default d "id" VNone
                | _ => VNone
                end) in
       if truthy entity_id then
         InMemoryRepository.update (repository self) entity_type entity_id data
       else Ok (VNone, repository self)
     else if py_eq action (VStr "delete") then
       let entity_id := dict_get_default context "entityId" VNone in
       if truthy entity_id then
         deleted <- InMemoryRepository.delete (repository self)
                      entity_type entity_id ;;
         Ok (VDict [(KStr "deleted", VBool true); (KStr "id", entity_id)],
             snd deleted)
       else Ok (VNone, repository self)
     else Ok (VNone, repository self)) ;;
  let res := fst res_self in
  Ok (res,
      append_effect_result (set_repository self (snd res_self))
        (persist_entry action entity_type res),
      context).

Definition _execute_call_service (self : t) (effect : list value)
    (context : dict) : result outcome :=
  service <- list_subscript effect 1 ;;
  method <- list_subscript effect 2 ;;
  args <- (if Nat.ltb 3 (List.length effect)
           then raw <- list_subscript effect 3 ;;
                Bindings.resolve_binding raw context
           else Ok (VDict [])) ;;
  let res := VDict [(KStr "service", service); (KStr "method", method);
                    (KStr "status", VStr "not_implemented")] in
  Ok (res,
      append_effect_result self
        (VDict [(KStr "effect", VStr "call_service");
                (KStr "service", service);
                (KStr "method", method);
                (KStr "data", res);
                (KStr "success", VBool false)]),
      context).

(** The loop [for part in parts[1:-1]] of [_execute_set]. *)
Fixpoint navigate (obj : value) (parts : list string) : value :=
  match parts with
  | [] => obj
  | part :: rest =>
      match obj with
      | VDict d => navigate (dict_get_default d part (VDict [])) rest
      | _ => navigate (py_getattr obj part (VDict [])) rest
      end
  end.

Definition set_entry (target val : value) : value :=
  VDict [(KStr "effect", VStr "set"); (KStr "target", target);
         (KStr "value", val); (KStr "success", VBool true)].

(** The guarded block of [_execute_set]: returns the context after the
    assignment. *)
Definition set_target (target val : value) (context : dict) : result dict :=
  match target with
  | VStr s =>
      if startswith s "@" then
        let parts := split_dot (drop_first s) in
        root <- list_subscript parts 0 ;;
        if dict_mem context root && (Nat.ltb 1 (List.length parts)) then
          start <- dict_subscript context root ;;
          let middle := but_last (tl parts) in
          let obj := navigate start middle in
          final_field <- last_item parts ;;
          obj' <- assign_field obj final_field val ;;
          Ok (dict_set context root (write_back start middle obj'))
        else Ok context
      else Ok context
  | _ => Ok context
  end.

Definition _execute_set (self : t) (effect : list value) (context : dict)
  : result outcome :=
  target <- list_subscript effect 1 ;;
  val <- (if Nat.ltb 2 (List.length effect)
          then raw <- list_subscript effect 2 ;;
               Bindings.resolve_binding raw context
          else Ok VNone) ;;
  context' <- set_target target val context ;;
  Ok (val, append_effect_result self (set_entry target val), context').

Definition _execute_pytorch (self : t) (effect : list value) (context : dict)
  : result outcome :=
  op <- list_subscript effect 0 ;;
  if negb torch_available then Ok (VNone, self, context)
  else if py_eq op (VStr "nn/forward") then
    raw_module <- list_subscript effect 1 ;;
    module <- Bindings.resolve_binding raw_module context ;;
    raw_input <- list_subscript effect 2 ;;
    input_tensor <- Bindings.resolve_binding raw_input context ;;
    out <- nn_forward module input_tensor ;;
    Ok (out, self, context)
  else if py_eq op (VStr "train/loop") then
    raw_module <- list_subscript effect 1 ;;
    module <- Bindings.resolve_binding raw_module context ;;
    raw_data <- list_subscript effect 2 ;;
    data <- Bindings.resolve_binding raw_data context ;;
    raw_config <- list_subscript effect 3 ;;
    config <- Bindings.resolve_binding raw_config context ;;
    out <- train_loop module data config ;;
    Ok (out, self, context)
  else Ok (VNone, self, context).

Definition _execute_tensor (self : t) (effect : list value) (context : dict)
  : result outcome :=
  Ok (VNone, self, context).

Definition execute (self : t) (effect : list value) (context : dict)
  : result outcome :=
  if negb (truthy (VList effect)) then Ok (VNone, self, context)
  else
    effect_type <- list_subscript effect 0 ;;
    if py_eq effect_type (VStr "fetch") then
      _execute_fetch self effect context
    else if py_eq effect_type (VStr "persist") then
      _execute_persist self effect context
    else if py_eq effect_type (VStr "call_service") then
      _execute_call_service self effect context
    else if py_eq effect_type (VStr "set") then
      _execute_set self effect context
    else if existsb (fun tag => py_eq tag effect_type)
                    [VStr "render_ui"; VStr "render-ui"] then
      Ok (VNone, append_client_effect self (VList effect), context)
    else if py_eq effect_type (VStr "navigate") then
      Ok (VNone, append_client_effect self (VList effect), context)
    else if py_eq effect_type (VStr "notify") then
      Ok (VNone, append_client_effect self (VList effect), context)
    else if py_eq effect_type (VStr "emit") then
      Ok (VNone, append_client_effect self (VList effect), context)
    else
      is_nn <- py_startswith effect_type "nn/" ;;
      is_pytorch <- (if is_nn then Ok true
                     else py_startswith effect_type "train/") ;;
      if is_pytorch then _execute_pytorch self effect context
      else
        is_tensor <- py_startswith effect_type "tensor/" ;;
        if is_tensor then _execute_tensor self effect context
        else Ok (VNone, self, context).

End WithRuntime.
End EffectExecutor.

(** ** core/event_bus.py: [EventBus] *)

Module EventBus.

(** Handlers are Python callables; the bus compares them by identity,
    so a handler is a name here, and what running it does is given from
    outside (see [Handlers]). *)
Definition handler_id := nat.

(** [EventSubscription] (a dataclass: compared field by field). *)
Record EventSubscription : Type := mkSub {
  event : string;
  handler : handler_id;
  once : bool
}.

Definition sub_eqb (a b : EventSubscription) : bool :=
  String.eqb (event a) (event b) && Nat.eqb (handler a) (handler b)
  && Bool.eqb (once a) (once b).

(** One handler invocation: who was called, with which argument. *)
Definition call : Type := (handler_id * value)%type.

(** The subscribed callables: whether the call of a handler with an
    argument ends in an exception (an [Exception], which is what
    [emit] catches), given the calls made before it (a
    handler may keep state).  A handler that is not callable at all
    raises [TypeError] at the call and is covered likewise.  Handlers
    act on the world outside the bus: one that subscribes or
    unsubscribes while an [emit] is running is not covered. *)
Class Handlers : Type := {
  raises : handler_id -> value -> list call -> bool
}.

(** [self]: [_subscriptions], keyed by event name. *)
Record t : Type := mk {
  _subscriptions : list (string * list EventSubscription)
}.

(** [EventBus()] *)
Definition init : t := {| _subscriptions := [] |}.

Definition subscribers (self : t) (ev : string) : list EventSubscription :=
  match assoc_get String.eqb (_subscriptions self) ev with
  | Some subs => subs
  | None => []
  end.

(** [xs.remove(x)]: drops the first element equal to [x];
    [ValueError] when there is none. *)
Fixpoint list_remove (xs : list EventSubscription) (x : EventSubscription)
  : result (list EventSubscription) :=
  match xs with
  | [] => Raise ValueError
  | y :: rest =>
      if sub_eqb y x then Ok rest
      else match list_remove rest x with
           | Ok rest' => Ok (y :: rest')
           | Raise e => Raise e
           end
  end.

Definition subscribe (self : t) (ev : string) (h : handler_id) (o : bool)
  : t :=
  let sub := {| event := ev; handler := h; once := o |} in
  {| _subscriptions :=
       assoc_set String.eqb (_subscriptions self) ev
         (subscribers self ev ++ [sub]) |}.

(** The closure [unsubscribe] returned by [subscribe ev h o]. *)
Definition unsubscribe (self : t) (ev : string) (h : handler_id) (o : bool)
  : t :=
  let sub := {| event := ev; handler := h; once := o |} in
  if assoc_mem String.eqb (_subscriptions self) ev then
    {| _subscriptions :=
         assoc_set String.eqb (_subscriptions self) ev
           (filter (fun s => negb (sub_eqb s sub)) (subscribers self ev)) |}
  else self.

(** [clear(event)] *)
Definition clear (self : t) (ev : option string) : t :=
  match ev with
  | Some e =>
      if negb (String.eqb e "")
      then {| _subscriptions := assoc_del String.eqb (_subscriptions self) e |}
      else init
  | None => init
  end.

Section WithHandlers.
Context `{Handlers}.
Local Open Scope result_scope.

(** The first loop of [emit]: every subscription's handler is called
    with [arg]; a call that raises is caught (and printed), and skips
    the [once] bookkeeping that follows it inside the [try]. *)
Fixpoint run_handlers (subs : list EventSubscription) (arg : value)
    (trace : list call) (to_remove : list EventSubscription)
  : list call * list EventSubscription :=
  match subs with
  | [] => (trace, to_remove)
  | sub :: rest =>
      let trace' := trace ++ [(handler sub, arg)] in
      if raises (handler sub) arg trace
      then run_handlers rest arg trace' to_remove
      else run_handlers rest arg trace'
             (if once sub then to_remove ++ [sub] else to_remove)
  end.

(** The second loop of [emit]. *)
Fixpoint remove_all (subs to_remove : list EventSubscription)
  : result (list EventSubscription) :=
  match to_remove with
  | [] => Ok subs
  | sub :: rest => subs' <- list_remove subs sub ;; remove_all subs' rest
  end.

(** [emit(event, payload)]; [trace] is the log of handler calls made so
    far, returned extended. *)
Definition emit (self : t) (ev : string) (payload : value)
    (trace : list call) : result (t * list call) :=
  match assoc_get String.eqb (_subscriptions self) ev with
  | None => Ok (self, trace)
  | Some subs =>
      let ran := run_handlers subs (py_or payload (VDict [])) trace [] in
      subs' <- remove_all subs (snd ran) ;;
      Ok ({| _subscriptions :=
               assoc_set String.eqb (_subscriptions self) ev subs' |},
          fst ran)
  end.

End WithHandlers.

(** *** Exceptions that [except Exception] lets through

    [emit] catches [Exception].  A handler can also end in an exception
    that is not one: [asyncio.CancelledError], [KeyboardInterrupt] and
    [SystemExit] derive from [BaseException] only. *)
Inductive base_exception : Type :=
| CancelledError | KeyboardInterrupt | SystemExit.

(** How the call of a handler ends. *)
Inductive ending : Type :=
| Returns
| RaisesException
| RaisesBaseException (b : base_exception).

(** The subscribed callables, with every ending a call can have (the
    calls made before it are given, as for [Handlers]; as there, a
    handler that subscribes or unsubscribes while an [emit] is running
    is not covered). *)
Class Callables : Type := {
  ending_of : handler_id -> value -> list call -> ending
}.

(** How a call of [emit] ends: it returns; or [list.remove] raises in
    its second loop; or the exception of a handler leaves it, from
    inside the first loop, so that the second loop is not reached and
    [self._subscriptions] is as it was. *)
Inductive emission : Type :=
| Returned (self : t) (trace : list call)
| Raised (e : exn)
| Propagated (b : base_exception) (self : t) (trace : list call).

Section WithCallables.
Context `{Callables}.

(** The first loop of [emit]: as [run_handlers], and left at the first
    handler whose exception is not an [Exception]. *)
Fixpoint run_handlers_full (subs : list EventSubscription) (arg : value)
    (trace : list call) (to_remove : list EventSubscription)
  : list call * (list EventSubscription + base_exception) :=
  match subs with
  | [] => (trace, inl to_remove)
  | sub :: rest =>
      let trace' := trace ++ [(handler sub, arg)] in
      match ending_of (handler sub) arg trace with
      | Returns =>
          run_handlers_full rest arg trace'
            (if once sub then to_remove ++ [sub] else to_remove)
      | RaisesException => run_handlers_full rest arg trace' to_remove
      | RaisesBaseException b => (trace', inr b)
      end
  end.

(** [emit(event, payload)] for such callables.  [emit] above is this
    function for callables none of which raises outside [Exception]
    (see [emit_full_caught]). *)
Definition emit_full (self : t) (ev : string) (payload : value)
    (trace : list call) : emission :=
  match assoc_get String.eqb (_subscriptions self) ev with
  | None => Returned self trace
  | Some subs =>
      match run_handlers_full subs (py_or payload (VDict [])) trace [] with
      | (trace', inl to_remove) =>
          match remove_all subs to_remove with
          | Ok subs' =>
              Returned
                {| _subscriptions :=
                     assoc_set String.eqb (_subscriptions self) ev subs' |}
                trace'
          | Raise e => Raised e
          end
      | (trace', inr b) => Propagated b self trace'
      end
  end.

End WithCallables.
End EventBus.

(** ** core/websocket.py: [ConnectionManager] *)

Module ConnectionManager.

(** A WebSocket, compared by identity. *)
Definition connection := nat.

(** One [send_text] attempt. *)
Definition send : Type := (connection * string)%type.

(** The transport and the encoder: [json.dumps], and whether
    [send_text] on a connection fails, given the sends attempted so
    far. *)
Class Transport : Type := {
  json_dumps : value -> result string;
  send_fails : connection -> string -> list send -> bool
}.

(** [make_json_serializable]: the values embedded here hold no tensor
    or array handle, so only the recursion into dicts and lists
    remains. *)
Fixpoint make_json_serializable (obj : value) : value :=
  match obj with
  | VDict d =>
      VDict ((fix go (d : list (key * value)) : list (key * value) :=
                match d with
                | [] => []
                | (k, v) :: d' => (k, make_json_serializable v) :: go d'
                end) d)
  | VList l => VList (map make_json_serializable l)
  | _ => obj
  end.

(** [self]. *)
Record t : Type := mk {
  active_connections : list (string * list (string * list connection));
  global_connections : list connection
}.

(** [ConnectionManager()] *)
Definition init : t :=
  {| active_connections := []; global_connections := [] |}.

(** [bool(s)] for an [Optional[str]] *)
Definition given (s : option string) : option string :=
  match s with
  | Some x => if String.eqb x "" then None else Some x
  | None => None
  end.

Definition by_type (self : t) (entity_type : string)
  : list (string * list connection) :=
  match assoc_get String.eqb (active_connections self) entity_type with
  | Some m => m
  | None => []
  end.

(** The connections scoped to one entity; empty when none is
    registered. *)
Definition scoped (self : t) (entity_type entity_id : string)
  : list connection :=
  match assoc_get String.eqb (by_type self entity_type) entity_id with
  | Some l => l
  | None => []
  end.

(** [xs.remove(x)] where [x in xs] has been checked. *)
Fixpoint remove_first (xs : list connection) (x : connection)
  : list connection :=
  match xs with
  | [] => []
  | y :: rest => if Nat.eqb y x then rest else y :: remove_first rest x
  end.

(** [if ws in xs: xs.remove(ws)] *)
Definition discard (xs : list connection) (ws : connection)
  : list connection :=
  if existsb (Nat.eqb ws) xs then remove_first xs ws else xs.

(** [connect], once [websocket.accept()] has returned. *)
Definition connect (self : t) (websocket : connection)
    (entity_type entity_id : option string) : t :=
  match given entity_type, given entity_id with
  | Some ty, Some id =>
      {| active_connections :=
           assoc_set String.eqb (active_connections self) ty
             (assoc_set String.eqb (by_type self ty) id
                (scoped self ty id ++ [websocket]));
         global_connections := global_connections self |}
  | _, _ =>
      {| active_connections := active_connections self;
         global_connections := global_connections self ++ [websocket] |}
  end.

Definition disconnect (self : t) (websocket : connection)
    (entity_type entity_id : option string) : t :=
  match given entity_type, given entity_id with
  | Some ty, Some id =>
      if assoc_mem String.eqb (active_connections self) ty
         && assoc_mem String.eqb (by_type self ty) id then
        let connections := discard (scoped self ty id) websocket in
        let m :=
          match connections with
          | [] => assoc_del String.eqb (by_type self ty) id
          | _ => assoc_set String.eqb (by_type self ty) id connections
          end in
        {| active_connections :=
             match m with
             | [] => assoc_del String.eqb (active_connections self) ty
             | _ => assoc_set String.eqb (active_connections self) ty m
             end;
           global_connections := global_connections self |}
      else self
  | _, _ =>
      {| active_connections := active_connections self;
         global_connections := discard (global_connections self) websocket |}
  end.

(** The cleanup for one failed websocket: out of the global list and
    out of every scoped list (first occurrence). *)
Definition evict (self : t) (ws : connection) : t :=
  {| active_connections :=
       map (fun tm =>
              (fst tm, map (fun il => (fst il, discard (snd il) ws)) (snd tm)))
           (active_connections self);
     global_connections := discard (global_connections self) ws |}.

Section WithTransport.
Context `{Transport}.
Local Open Scope result_scope.

(** The send loop of [_send_to_connections]: the attempts made, in
    order, and the connections whose send failed. *)
Fixpoint send_loop (connections : list connection) (json_message : string)
    (sent : list send) (disconnected : list connection)
  : list send * list connection :=
  match connections with
  | [] => (sent, disconnected)
  | c :: rest =>
      send_loop rest json_message (sent ++ [(c, json_message)])
        (if send_fails c json_message sent
         then disconnected ++ [c] else disconnected)
  end.

Definition _send_to_connections (self : t) (connections : list connection)
    (message : value) (sent : list send) : result (t * list send) :=
  json_message <- json_dumps (make_json_serializable message) ;;
  let looped := send_loop connections json_message sent [] in
  Ok (fold_left evict (snd looped) self, fst looped).

Definition broadcast_to_entity (self : t) (entity_type entity_id : string)
    (message : value) (sent : list send) : result (t * list send) :=
  let connections_to_notify :=
    (if assoc_mem String.eqb (active_connections self) entity_type
        && assoc_mem String.eqb (by_type self entity_type) entity_id
     then scoped self entity_type entity_id else [])
    ++ global_connections self in
  _send_to_connections self connections_to_notify message sent.

Definition broadcast_global (self : t) (message : value) (sent : list send)
  : result (t * list send) :=
  _send_to_connections self (global_connections self) message sent.

Definition broadcast_client_effects (self : t) (entity_type entity_id : string)
    (event : string) (client_effects : list value) (data : value)
    (sent : list send) : result (t * list send) :=
  let message :=
    VDict [(KStr "type", VStr "client_effects");
           (KStr "entityType", VStr entity_type);
           (KStr "entityId", VStr entity_id);
           (KStr "event", VStr event);
           (KStr "effects", VList client_effects);
           (KStr "data", py_or data (VDict []))] in
  broadcast_to_entity self entity_type entity_id message sent.

End WithTransport.
End ConnectionManager.

(** ** Specification-side definitions *)

(** A runtime without the numerical framework, whose built-in values
    expose no attribute and whose records refuse every name they do not
    declare; uuids are numbered. *)
Definition bare_runtime : Runtime :=
  {| builtin_attr := fun _ _ => None;
     setattr_undeclared := fun _ _ _ => Raise ValueError;
     uuid4 := fun n =>
       ("uuid-" ++ String (ascii_of_nat (48 + n)) EmptyString)%string;
     torch_available := false;
     nn_forward := fun _ _ => Raise ServiceError;
     train_loop := fun _ _ _ => Raise ServiceError |}.

Section BindingSpec.
Context `{Runtime}.

(** Attribute lookup defaulting to null, as the design document words
    it: the field of that name on a record; failing that, the
    attribute of that name the runtime gives the value; failing that,
    null. *)
Definition attribute_or_null (cur : value) (seg : string) : value :=
  match cur with
  | VObj fields =>
      match dict_get fields seg with
      | Some v => v
      | None =>
          match builtin_attr cur seg with Some v => v | None => VNone end
      end
  | _ => match builtin_attr cur seg with Some v => v | None => VNone end
  end.

(** One step of the resolver as the design document words it: key
    lookup on a map (a missing key gives null), attribute lookup
    defaulting to null on anything else. *)
Definition lookup_step (cur : value) (seg : string) : value :=
  match cur with
  | VDict d => match dict_get d seg with Some v => v | None => VNone end
  | _ => attribute_or_null cur seg
  end.

(** Walking the segments: once null is reached, the remaining segments
    are skipped and the result is null. *)
Fixpoint walk_segments (cur : value) (segs : list string) : value :=
  match segs with
  | [] => cur
  | seg :: rest =>
      match cur with
      | VNone => VNone
      | _ => walk_segments (lookup_step cur seg) rest
      end
  end.

(** The resolution of ["@root.seg1...segN"]. *)
Definition resolve_spec (root : string) (segs : list string) (context : dict)
  : value :=
  match dict_get context root with
  | None => VNone
  | Some v => walk_segments v segs
  end.

End BindingSpec.

Section RepositorySpec.
Context `{Runtime}.

(** The filters that are not the supported predicate and are treated
    as no filter: anything that is not a list, the empty list, a list
    whose operator is not ["="], and an ["="] list of three elements or
    more whose field path is not a string starting with ["@entity."]. *)
Definition unsupported_filter (filter_expr : value) : bool :=
  match filter_expr with
  | VList (op :: rest) =>
      negb (py_eq op (VStr "="))
      || match rest with
         | field_path :: _ :: _ =>
             match field_path with
             | VStr fp => negb (startswith fp "@entity.")
             | _ => true
             end
         | _ => false
         end
  | _ => true
  end.

(** Every entity stored under a type, in storage order. *)
Definition all_entities (self : InMemoryRepository.t) (entity_type : string)
  : list dict :=
  assoc_values (InMemoryRepository.bucket self (KStr entity_type)).

(** [n] successive calls of [delete] on the same id: the values they
    return, and the repository after the last one. *)
Fixpoint deletes (n : nat) (self : InMemoryRepository.t)
    (entity_type entity_id : value)
  : result (list bool * InMemoryRepository.t) :=
  match n with
  | O => Ok ([], self)
  | S m =>
      match InMemoryRepository.delete self entity_type entity_id with
      | Ok (b, self') =>
          match deletes m self' entity_type entity_id with
          | Ok (bs, self'') => Ok (b :: bs, self'')
          | Raise e => Raise e
          end
      | Raise e => Raise e
      end
  end.

End RepositorySpec.

(** A repository holding two tasks. *)
Definition two_tasks : InMemoryRepository.t :=
  {| InMemoryRepository._store :=
       [(KStr "Task",
         [(KStr "t1", [(KStr "id", VStr "t1"); (KStr "status", VStr "pending")]);
          (KStr "t2", [(KStr "id", VStr "t2"); (KStr "status", VStr "completed")])])];
     InMemoryRepository.uuid_draws := 0 |}.


(** The tags [execute] dispatches on. *)
Definition server_tags : list string :=
  ["fetch"; "persist"; "call_service"; "set"].
Definition client_tags : list string :=
  ["render_ui"; "render-ui"; "navigate"; "notify"; "emit"].
Definition pytorch_ops : list string := ["nn/forward"; "train/loop"].

(** Whether a value takes the assignment of a field: a map takes any
    key, a record the fields it declares. *)
Definition assignable (v : value) (final_field : string) : bool :=
  match v with
  | VDict _ => true
  | VObj fields => dict_mem fields final_field
  | _ => false
  end.

(** The values no assignment can change: null, booleans, numbers and
    strings. *)
Definition immutable (v : value) : bool :=
  match v with
  | VNone | VBool _ | VInt _ | VStr _ => true
  | _ => false
  end.

Section ExecutorSpec.
Context `{Runtime}.

(** What a [set] effect assigns into: defined when the target is a
    ["@root.path"] string of at least two segments whose root is in the
    context, and then the object reached from the root through all but
    the last segment, with the last segment as the field assigned. *)
Definition set_destination (target : value) (context : dict)
  : option (value * string) :=
  match target with
  | VStr s =>
      if startswith s "@" then
        match split_dot (drop_first s) with
        | root :: (_ :: _) as rest =>
            match dict_get context root with
            | Some start =>
                Some (EffectExecutor.navigate start
                        (EffectExecutor.but_last rest),
                      last rest root)
            | None => None
            end
        | _ => None
        end
      else None
  | _ => None
  end.

End ExecutorSpec.

(** An executor over a fresh repository. *)
Definition fresh_executor : EffectExecutor.t :=
  EffectExecutor.init InMemoryRepository.init.


(** [subsequence r l]: [r] is [l] with some elements left out. *)
Inductive subsequence {A : Type} : list A -> list A -> Prop :=
| subsequence_nil : forall l, subsequence [] l
| subsequence_take : forall x r l,
    subsequence r l -> subsequence (x :: r) (x :: l)
| subsequence_skip : forall y r l,
    subsequence r l -> subsequence r (y :: l).

Section EventBusSpec.
Context `{EventBus.Handlers}.

(** Successive [emit]s of one event, one per payload. *)
Fixpoint emits (self : EventBus.t) (ev : string) (payloads : list value)
    (trace : list EventBus.call) : result (EventBus.t * list EventBus.call) :=
  match payloads with
  | [] => Ok (self, trace)
  | payload :: rest =>
      match EventBus.emit self ev payload trace with
      | Ok (self', trace') => emits self' ev rest trace'
      | Raise e => Raise e
      end
  end.

End EventBusSpec.

(** Handlers that all return, and handlers that all raise. *)
Definition returning_handlers : EventBus.Handlers :=
  {| EventBus.raises := fun _ _ _ => false |}.
Definition raising_handlers : EventBus.Handlers :=
  {| EventBus.raises := fun _ _ _ => true |}.

(** Handler 7 raises, every other handler returns. *)
Definition one_bad_handler : EventBus.Handlers :=
  {| EventBus.raises := fun h _ _ => Nat.eqb h 7 |}.

(** Whether an ending leaves [emit]. *)
Definition leaves_emit (e : EventBus.ending) : bool :=
  match e with
  | EventBus.RaisesBaseException _ => true
  | _ => false
  end.

(** Callables whose exceptions are all [Exception]s, seen as
    [Handlers]: a call raises when it ends in an [Exception]. *)
Definition caught_handlers (C : EventBus.Callables) : EventBus.Handlers :=
  {| EventBus.raises := fun h arg trace =>
       match EventBus.ending_of h arg trace with
       | EventBus.RaisesException => true
       | _ => false
       end |}.

(** Handler 7 raises an [Exception], every other handler returns. *)
Definition one_failing_callable : EventBus.Callables :=
  {| EventBus.ending_of := fun h _ _ =>
       if Nat.eqb h 7 then EventBus.RaisesException else EventBus.Returns |}.

(** Handler 7 is cancelled while it runs ([asyncio.CancelledError]),
    every other handler returns. *)
Definition one_cancelled_callable : EventBus.Callables :=
  {| EventBus.ending_of := fun h _ _ =>
       if Nat.eqb h 7
       then EventBus.RaisesBaseException EventBus.CancelledError
       else EventBus.Returns |}.

(** A bus with handler 7, then handler 8, subscribed to ["E"]. *)
Definition two_handler_bus : EventBus.t :=
  EventBus.subscribe (EventBus.subscribe EventBus.init "E" 7 false)
    "E" 8 false.

(** A bus with one [once] subscription. *)
Definition once_bus : EventBus.t :=
  EventBus.subscribe EventBus.init "ONCE_EVENT" 0 true.

(** A transport that encodes every message and never fails a send. *)
Definition plain_transport : ConnectionManager.Transport :=
  {| ConnectionManager.json_dumps := fun _ => Ok "{}";
     ConnectionManager.send_fails := fun _ _ _ => false |}.

(** Connection 1 scoped to (T,1), connection 2 scoped to (T,2),
    connection 3 global. *)
Definition three_connections : ConnectionManager.t :=
  ConnectionManager.connect
    (ConnectionManager.connect
       (ConnectionManager.connect ConnectionManager.init
          1 (Some "T") (Some "1"))
       2 (Some "T") (Some "2"))
    3 None None.


Section RepositoryMoreSpec.
Context `{Runtime}.

(** [create] called once per entity, in order; the repository after the
    last call. *)
Fixpoint creates (self : InMemoryRepository.t) (entity_type : value)
    (entities : list value) : result InMemoryRepository.t :=
  match entities with
  | [] => Ok self
  | entity :: rest =>
      match InMemoryRepository.create self entity_type entity with
      | Ok (_, self') => creates self' entity_type rest
      | Raise e => Raise e
      end
  end.

(** Whether an entity is a dict that carries an id [create] and [seed]
    keep. *)
Definition has_usable_id (entity : value) : bool :=
  match entity with
  | VDict d => truthy (dict_get_default d "id" VNone)
  | _ => false
  end.

(** The predicate of the filter [["=", "@entity.<field>", expected]]. *)
Definition field_equals (field : string) (expected : value) (entity : dict)
  : bool :=
  py_eq (dict_get_default entity field VNone) expected.

End RepositoryMoreSpec.

(** No ["@"] in a string. *)
Fixpoint no_at (s : string) : Prop :=
  match s with
  | EmptyString => True
  | String c s' => c <> "@"%char /\ no_at s'
  end.


(** Whether the first element of an effect is the given tag. *)
Definition tag_is (effect : list value) (tag : string) : bool :=
  match effect with
  | effect_type :: _ => py_eq effect_type (VStr tag)
  | [] => false
  end.

(** The effects that leave an entry in the audit trail. *)
Definition audited (effect : list value) : bool :=
  tag_is effect "persist" || tag_is effect "call_service"
  || tag_is effect "set".

(** The effects handed on to the client. *)
Definition is_client_effect (effect : list value) : bool :=
  existsb (tag_is effect) client_tags.

Section ExecutorMoreSpec.
Context `{Runtime}.

(** The effects of one request, executed in the order given; the values
    returned, then [self] and the context after the last effect. *)
Fixpoint execute_all (self : EffectExecutor.t) (effects : list (list value))
    (context : dict) : result (list value * EffectExecutor.t * dict) :=
  match effects with
  | [] => Ok ([], self, context)
  | effect :: rest =>
      match EffectExecutor.execute self effect context with
      | Ok (v, self', context') =>
          match execute_all self' rest context' with
          | Ok (vs, self'', context'') => Ok (v :: vs, self'', context'')
          | Raise e => Raise e
          end
      | Raise e => Raise e
      end
  end.

(** The data argument of [persist] and [call_service]:
    [resolve_binding(effect[3], context) if len(effect) > 3 else {}],
    for the elements [more] that follow the third. *)
Definition optional_data (more : list value) (context : dict) : result value :=
  match more with
  | [] => Ok (VDict [])
  | raw :: _ => Bindings.resolve_binding raw context
  end.

End ExecutorMoreSpec.

(** [reaches_dict obj parts]: walking [parts] from [obj] goes through
    keys that exist, from dict to dict, and ends on a dict. *)
Fixpoint reaches_dict (obj : value) (parts : list string) : Prop :=
  match obj with
  | VDict d =>
      match parts with
      | [] => True
      | part :: rest =>
          match dict_get d part with
          | Some child => reaches_dict child rest
          | None => False
          end
      end
  | _ => False
  end.

(** The root a target string names: the segment before the first dot. *)
Definition target_root (s : string) : string :=
  hd EmptyString (split_dot (drop_first s)).


Section DeepBindingSpec.
Context `{Runtime}.


(** How an item of a list-valued field relates to what replaces it: a
    string is resolved, a dict resolved in depth, anything else (a list
    in a list too) is kept. *)
Definition item_resolved (context : dict) (item new : value) : Prop :=
  match item with
  | VStr _ => Bindings.resolve_binding item context = Ok new
  | VDict _ => Bindings.resolve_bindings_in_dict item context = Ok new
  | _ => new = item
  end.

(** How a field value relates to what replaces it. *)
Definition field_resolved (context : dict) (val new : value) : Prop :=
  match val with
  | VStr _ => Bindings.resolve_binding val context = Ok new
  | VDict _ => Bindings.resolve_bindings_in_dict val context = Ok new
  | VList items =>
      exists xs, new = VList xs /\ Forall2 (item_resolved context) items xs
  | _ => new = val
  end.

End DeepBindingSpec.


(** The calls one [emit] makes to the given subscriptions. *)
Definition calls (subs : list EventBus.EventSubscription) (payload : value)
  : list EventBus.call :=
  map (fun sub => (EventBus.handler sub, py_or payload (VDict []))) subs.

(** The subscriptions that are not [once]. *)
Definition persistent (subs : list EventBus.EventSubscription)
  : list EventBus.EventSubscription :=
  filter (fun sub => negb (EventBus.once sub)) subs.


(** A bus where handler 1 is subscribed once and handler 2 for good to
    event ["E"], and handler 3 to event ["F"]. *)
Definition mixed_bus : EventBus.t :=
  EventBus.subscribe
    (EventBus.subscribe (EventBus.subscribe EventBus.init "E" 1 true)
       "E" 2 false)
    "F" 3 false.


(** No websocket is registered twice in the same list. *)
Definition registered_once (self : ConnectionManager.t) : Prop :=
  NoDup (ConnectionManager.global_connections self)
  /\ forall entity_type entity_id : string,
       NoDup (ConnectionManager.scoped self entity_type entity_id).

(** A connection that is in no list of the registry. *)
Definition unregistered (self : ConnectionManager.t)
    (c : ConnectionManager.connection) : Prop :=
  ~ In c (ConnectionManager.global_connections self)
  /\ forall entity_type entity_id : string,
       ~ In c (ConnectionManager.scoped self entity_type entity_id).

Section TransportSpec.
Context `{ConnectionManager.Transport}.

(** A connection on which every send fails, and one on which none
    does. *)
Definition dead (c : ConnectionManager.connection) : Prop :=
  forall text sent, ConnectionManager.send_fails c text sent = true.
Definition healthy (c : ConnectionManager.connection) : Prop :=
  forall text sent, ConnectionManager.send_fails c text sent = false.

End TransportSpec.

(** A transport on which connection 1 is dead and the others are
    healthy. *)
Definition lossy_transport : ConnectionManager.Transport :=
  {| ConnectionManager.json_dumps := fun _ => Ok "{}";
     ConnectionManager.send_fails := fun c _ _ => Nat.eqb c 1 |}.

(** * Properties *)

(** ** Dictionaries *)

Lemma key_eqb_refl (k : key) : key_eqb k k = true.
Proof.
  destruct k; simpl; auto using Z.eqb_refl, String.eqb_refl, Nat.eqb_refl.
Qed.

Lemma key_eqb_eq (a b : key) : key_eqb a b = true <-> a = b.
Proof.
  split.
  - destruct a, b; simpl; try discriminate; auto; intro E.
    + apply Z.eqb_eq in E; congruence.
    + apply String.eqb_eq in E; congruence.
    + apply Nat.eqb_eq in E; congruence.
  - intros ->; apply key_eqb_refl.
Qed.

Lemma key_eqb_neq (a b : key) : key_eqb a b = false <-> a <> b.
Proof.
  rewrite <- key_eqb_eq. destruct (key_eqb a b); split; congruence.
Qed.

Section KeyMaps.
Context {V : Type}.
Implicit Types (d : list (key * V)) (k : key) (v : V).

Lemma key_get_set_same d k v : key_get (key_set d k v) k = Some v.
Proof.
  unfold key_get, key_set.
  induction d as [|[k' v'] d IH]; simpl.
  - now rewrite key_eqb_refl.
  - destruct (key_eqb k' k) eqn:E; simpl; rewrite E; auto.
Qed.

Lemma key_get_set_other d k k' v :
  k' <> k -> key_get (key_set d k v) k' = key_get d k'.
Proof.
  intro N. unfold key_get, key_set.
  induction d as [|[k0 v0] d IH]; simpl.
  - destruct (key_eqb k k') eqn:E; auto.
    apply key_eqb_eq in E; congruence.
  - destruct (key_eqb k0 k) eqn:E; simpl.
    + apply key_eqb_eq in E; subst k0.
      destruct (key_eqb k k') eqn:E'; auto.
      apply key_eqb_eq in E'; congruence.
    + now rewrite IH.
Qed.

Lemma key_get_del_same d k : key_get (key_del d k) k = None.
Proof.
  unfold key_get, key_del, assoc_del.
  induction d as [|[k' v'] d IH]; simpl; auto.
  destruct (key_eqb k' k) eqn:E; simpl; auto.
  now rewrite E.
Qed.

Lemma key_mem_get d k : key_mem d k = true <-> exists v, key_get d k = Some v.
Proof.
  unfold key_mem, key_get, assoc_mem.
  destruct (assoc_get key_eqb d k); split; eauto; try discriminate.
  intros [v E]; discriminate.
Qed.

Lemma key_mem_false d k : key_mem d k = false <-> key_get d k = None.
Proof.
  unfold key_mem, key_get, assoc_mem.
  destruct (assoc_get key_eqb d k); split; auto; discriminate.
Qed.

End KeyMaps.

(** ** Strings *)

Lemma split_dot_dotless (s : string) : dotless s -> split_dot s = [s].
Proof.
  induction s as [|c s IH]; simpl; auto.
  intros [N D]. rewrite (IH D).
  destruct (Ascii.eqb c ".") eqn:E; auto.
  apply Ascii.eqb_eq in E; contradiction.
Qed.

Lemma split_dot_app (p rest : string) :
  dotless p -> split_dot (p ++ String "." rest) = p :: split_dot rest.
Proof.
  induction p as [|c p IH]; simpl; auto.
  intros [N D]. rewrite (IH D).
  destruct (Ascii.eqb c ".") eqn:E; auto.
  apply Ascii.eqb_eq in E; contradiction.
Qed.

Lemma split_join_dot (p : string) (rest : list string) :
  Forall dotless (p :: rest) -> split_dot (join_dot (p :: rest)) = p :: rest.
Proof.
  revert p; induction rest as [|q rest IH]; intros p F.
  - simpl. apply split_dot_dotless. now inversion F.
  - inversion F as [|? ? Dp F']; subst.
    change (join_dot (p :: q :: rest))
      with (p ++ String "." (join_dot (q :: rest)))%string.
    rewrite split_dot_app by assumption.
    now rewrite IH.
Qed.

Lemma split_dot_cons (s : string) : exists p ps, split_dot s = p :: ps.
Proof.
  induction s as [|c s [p [ps E]]]; simpl; eauto.
  rewrite E. destruct (Ascii.eqb c "."); eauto.
Qed.

Lemma Forall_firstn {A} (P : A -> Prop) (n : nat) (l : list A) :
  Forall P l -> Forall P (firstn n l).
Proof.
  intro F. revert n; induction F as [|x l Px F IH]; intros [|n]; simpl;
    auto.
Qed.

(** ** Binding resolver *)

Section BindingFacts.
Context `{Runtime}.

Lemma resolve_path_walk (v : value) (segs : list string) :
  Bindings.resolve_path v segs = walk_segments v segs.
Proof.
  revert v; induction segs as [|seg segs IH]; intro v; simpl; auto.
  destruct v; auto; simpl; rewrite IH; reflexivity.
Qed.

Lemma walk_segments_none (segs : list string) : walk_segments VNone segs = VNone.
Proof. destruct segs; reflexivity. Qed.

Lemma walk_segments_app (v : value) (a b : list string) :
  walk_segments v (a ++ b) = walk_segments (walk_segments v a) b.
Proof.
  revert v; induction a as [|seg a IH]; intro v; simpl; auto.
  destruct v; auto using walk_segments_none; now rewrite <- IH.
Qed.

(** The resolver is total: whatever the value and the context, it
    returns. *)
Lemma resolve_binding_total (val : value) (context : dict) :
  exists v, Bindings.resolve_binding val context = Ok v.
Proof.
  destruct val; try (simpl; eauto; fail).
  unfold Bindings.resolve_binding.
  destruct (negb (startswith s "@")); eauto.
  destruct (split_dot_cons (drop_first s)) as [p [ps E]]. rewrite E. simpl.
  unfold dict_mem, key_mem, assoc_mem, dict_subscript, dict_get, key_get.
  destruct (assoc_get key_eqb context (KStr p)); simpl; eauto.
Qed.

Lemma resolve_binding_segments (root : string) (segs : list string)
    (context : dict) :
  Forall dotless (root :: segs) ->
  Bindings.resolve_binding (VStr ("@" ++ join_dot (root :: segs))) context
  = Ok (resolve_spec root segs context).
Proof.
  intro F. unfold Bindings.resolve_binding.
  change (startswith ("@" ++ join_dot (root :: segs)) "@") with true.
  change (drop_first ("@" ++ join_dot (root :: segs)))
    with (join_dot (root :: segs)).
  rewrite split_join_dot by exact F. simpl.
  unfold resolve_spec, dict_mem, key_mem, assoc_mem, dict_subscript, dict_get,
    key_get.
  destruct (assoc_get key_eqb context (KStr root)); simpl; auto.
  now rewrite resolve_path_walk.
Qed.

(** C2. For a binding ["@root.seg1...segN"] the resolver returns (it
    never raises): null when the root is absent from the context;
    otherwise the result of walking the segments with key lookup on
    maps and attribute lookup, defaulting to null, on other values;
    and once a prefix of the segments has led to null, the remaining
    segments are skipped and the result is null.  The two lookups are
    also stated on their own, for a single segment: on a map root the
    result is the value under the key (null when the key is missing),
    on a record root it is the value of the field of that name. *)
Theorem resolve_binding_walks_segments (root : string) (segs : list string)
    (context : dict) :
  Forall dotless (root :: segs) ->
  Bindings.resolve_binding (VStr ("@" ++ join_dot (root :: segs))) context
  = Ok (resolve_spec root segs context)
  /\ (dict_get context root = None ->
      Bindings.resolve_binding (VStr ("@" ++ join_dot (root :: segs))) context
      = Ok VNone)
  /\ (forall k : nat,
      Bindings.resolve_binding
        (VStr ("@" ++ join_dot (root :: firstn k segs))) context = Ok VNone ->
      Bindings.resolve_binding (VStr ("@" ++ join_dot (root :: segs))) context
      = Ok VNone)
  /\ (forall (d : dict) (seg : string),
      segs = [seg] ->
      dict_get context root = Some (VDict d) ->
      Bindings.resolve_binding (VStr ("@" ++ join_dot (root :: segs))) context
      = Ok (match dict_get d seg with Some v => v | None => VNone end))
  /\ (forall (fields : dict) (seg : string) (v : value),
      segs = [seg] ->
      dict_get context root = Some (VObj fields) ->
      dict_get fields seg = Some v ->
      Bindings.resolve_binding (VStr ("@" ++ join_dot (root :: segs))) context
      = Ok v).
Proof.
  intro F. split; [|split; [|split; [|split]]].
  - now apply resolve_binding_segments.
  - intro A. rewrite resolve_binding_segments by exact F.
    unfold resolve_spec. now rewrite A.
  - intros k P. rewrite resolve_binding_segments by exact F.
    assert (Fk : Forall dotless (root :: firstn k segs)).
    { inversion F; subst. constructor; auto using Forall_firstn. }
    rewrite resolve_binding_segments in P by exact Fk.
    unfold resolve_spec in *.
    destruct (dict_get context root) as [v|]; auto.
    rewrite <- (firstn_skipn k segs), walk_segments_app.
    injection P as ->. now rewrite walk_segments_none.
  - intros d seg -> R. rewrite resolve_binding_segments by exact F.
    unfold resolve_spec. now rewrite R.
  - intros fields seg v -> R A. rewrite resolve_binding_segments by exact F.
    unfold resolve_spec. rewrite R.
    cbn [walk_segments lookup_step attribute_or_null]. now rewrite A.
Qed.

End BindingFacts.

Lemma resolve_binding_walks_segments_witness :
  Bindings.resolve_binding (H := bare_runtime)
    (VStr "@root.missing.path") [(KStr "root", VDict [])] = Ok VNone
  /\ Bindings.resolve_binding (H := bare_runtime)
       (VStr "@user.role")
       [(KStr "user",
         VObj [(KStr "uid", VStr "u1"); (KStr "role", VStr "admin")])]
     = Ok (VStr "admin")
  /\ Bindings.resolve_binding (H := bare_runtime)
       (VStr "@payload.title")
       [(KStr "payload", VDict [(KStr "title", VStr "T")])]
     = Ok (VStr "T").
Proof.
  split; [|split].
  - assert (F : Forall dotless ["root"; "missing"; "path"]).
    { repeat constructor; simpl; intuition discriminate. }
    exact (proj1 (@resolve_binding_walks_segments bare_runtime "root"
                    ["missing"; "path"] [(KStr "root", VDict [])] F)).
  - assert (F : Forall dotless ["user"; "role"]).
    { repeat constructor; simpl; intuition discriminate. }
    exact (proj2 (proj2 (proj2 (proj2
             (@resolve_binding_walks_segments bare_runtime "user" ["role"]
                [(KStr "user",
                  VObj [(KStr "uid", VStr "u1"); (KStr "role", VStr "admin")])]
                F))))
             [(KStr "uid", VStr "u1"); (KStr "role", VStr "admin")]
             "role" (VStr "admin") eq_refl eq_refl eq_refl).
  - assert (F : Forall dotless ["payload"; "title"]).
    { repeat constructor; simpl; intuition discriminate. }
    exact (proj1 (proj2 (proj2 (proj2
             (@resolve_binding_walks_segments bare_runtime "payload" ["title"]
                [(KStr "payload", VDict [(KStr "title", VStr "T")])] F))))
             [(KStr "title", VStr "T")] "title" eq_refl eq_refl).
Defined.

Example resolve_entity_status :
  Bindings.resolve_binding (H := bare_runtime) (VStr "@entity.status")
    [(KStr "entity", VDict [(KStr "status", VStr "done")])]
  = Ok (VStr "done").
Proof. reflexivity. Qed.

Example resolve_literal_is_identity :
  Bindings.resolve_binding (H := bare_runtime) (VStr "plain") [] = Ok (VStr "plain")
  /\ Bindings.resolve_binding (H := bare_runtime) (VInt 7) [] = Ok (VInt 7).
Proof. split; reflexivity. Qed.

(** ** In-memory repository *)

Section RepositoryFacts.
Context `{Runtime}.

Lemma bucket_set_bucket (self : InMemoryRepository.t) (kt : key)
    (b : list (key * dict)) :
  InMemoryRepository.bucket (InMemoryRepository.set_bucket self kt b) kt = b.
Proof.
  unfold InMemoryRepository.bucket, InMemoryRepository.set_bucket; simpl.
  now rewrite key_get_set_same.
Qed.

Lemma store_mem_set_bucket (self : InMemoryRepository.t) (kt : key)
    (b : list (key * dict)) :
  key_mem (InMemoryRepository._store (InMemoryRepository.set_bucket self kt b))
    kt = true.
Proof.
  apply key_mem_get. exists b. simpl. apply key_get_set_same.
Qed.

(** C3, as the code has it: a filter that is not a list, is empty, has
    an operator other than ["="], or is an ["="] list of at least three
    elements whose field path is not an ["@entity."] string, is ignored:
    [list] returns every stored entity of the type and does not raise.
    The same holds for any filter when the context is empty or absent. *)
Theorem list_ignores_unsupported_filter (self : InMemoryRepository.t)
    (entity_type : string) (filter_expr context : value) :
  unsupported_filter filter_expr = true \/ truthy context = false ->
  InMemoryRepository.list self (VStr entity_type) filter_expr context
  = Ok (all_entities self entity_type).
Proof.
  intros U. unfold InMemoryRepository.list, all_entities; simpl.
  destruct (truthy filter_expr && truthy context) eqn:T; auto.
  apply andb_prop in T as [Tf Tc].
  destruct U as [U|U]; [|congruence].
  unfold InMemoryRepository._apply_filter. rewrite Tf.
  destruct filter_expr as [| | | |fe| | |]; simpl; auto.
  destruct fe as [|op rest]; [discriminate|].
  simpl in U |- *.
  destruct (py_eq op (VStr "=")); simpl in *; auto.
  destruct rest as [|field_path [|expected more]]; try discriminate.
  cbn [py_index list_subscript nth_error rbind].
  destruct field_path; auto.
  destruct (startswith s "@entity."); [discriminate U | reflexivity].
Qed.

(** C4. Upsert: updating an id that is not in the store does not fail;
    it stores and returns an entity whose [id] is the requested id and
    whose other fields are those of the data. *)
Theorem update_missing_id_creates (self : InMemoryRepository.t)
    (entity_type entity_id : string) (data : dict) :
  InMemoryRepository.get self (VStr entity_type) (VStr entity_id) = Ok VNone ->
  exists (entity : dict) (self' : InMemoryRepository.t),
    InMemoryRepository.update self (VStr entity_type) (VStr entity_id)
      (VDict data) = Ok (VDict entity, self')
    /\ dict_get entity "id" = Some (VStr entity_id)
    /\ (forall k : key, k <> KStr "id" -> key_get entity k = key_get data k)
    /\ InMemoryRepository.get self' (VStr entity_type) (VStr entity_id)
       = Ok (VDict entity).
Proof.
  unfold InMemoryRepository.get, InMemoryRepository.update; simpl.
  intro G.
  destruct (key_get (InMemoryRepository.bucket self (KStr entity_type))
              (KStr entity_id)) as [e|] eqn:E; [discriminate|].
  exists (dict_set data "id" (VStr entity_id)). eexists.
  split; [reflexivity|]. split; [|split].
  - apply key_get_set_same.
  - intros k N. now apply key_get_set_other.
  - now rewrite bucket_set_bucket, key_get_set_same.
Qed.

Lemma delete_absent (self : InMemoryRepository.t) (entity_type entity_id : string) :
  InMemoryRepository.get self (VStr entity_type) (VStr entity_id) = Ok VNone ->
  InMemoryRepository.delete self (VStr entity_type) (VStr entity_id)
  = Ok (false, self).
Proof.
  unfold InMemoryRepository.get, InMemoryRepository.delete; simpl.
  destruct (key_get (InMemoryRepository.bucket self (KStr entity_type))
              (KStr entity_id)) as [e|] eqn:E; [discriminate|]; intros _.
  apply key_mem_false in E. rewrite E.
  now destruct (key_mem (InMemoryRepository._store self) (KStr entity_type)).
Qed.

Lemma delete_present (self : InMemoryRepository.t)
    (entity_type entity_id : string) (entity : dict) :
  InMemoryRepository.get self (VStr entity_type) (VStr entity_id)
  = Ok (VDict entity) ->
  let self' :=
    InMemoryRepository.set_bucket self (KStr entity_type)
      (key_del (InMemoryRepository.bucket self (KStr entity_type))
         (KStr entity_id)) in
  InMemoryRepository.delete self (VStr entity_type) (VStr entity_id)
  = Ok (true, self')
  /\ InMemoryRepository.get self' (VStr entity_type) (VStr entity_id)
     = Ok VNone.
Proof.
  intros G self'. split.
  - unfold InMemoryRepository.get, InMemoryRepository.delete in *;
      simpl in *.
    destruct (key_get (InMemoryRepository.bucket self (KStr entity_type))
                (KStr entity_id)) as [e|] eqn:E; [|discriminate].
    assert (M : key_mem (InMemoryRepository.bucket self (KStr entity_type))
                  (KStr entity_id) = true) by (apply key_mem_get; eauto).
    rewrite M.
    assert (S : key_mem (InMemoryRepository._store self) (KStr entity_type)
                = true).
    { unfold InMemoryRepository.bucket in E. apply key_mem_get.
      destruct (key_get (InMemoryRepository._store self) (KStr entity_type));
        eauto; discriminate. }
    rewrite S. reflexivity.
  - unfold InMemoryRepository.get, self'; simpl.
    now rewrite bucket_set_bucket, key_get_del_same.
Qed.

Lemma deletes_absent (n : nat) (self : InMemoryRepository.t)
    (entity_type entity_id : string) :
  InMemoryRepository.get self (VStr entity_type) (VStr entity_id) = Ok VNone ->
  deletes n self (VStr entity_type) (VStr entity_id) = Ok (repeat false n, self).
Proof.
  intro G. induction n as [|n IH]; simpl; auto.
  rewrite (delete_absent _ _ _ G), IH. reflexivity.
Qed.

(** C5. Delete: for a stored entity the first [delete] returns true and
    every later one (nothing re-creating the id in between) returns
    false; for an id that is not stored every [delete] returns false;
    none of these calls raises. *)
Theorem delete_true_exactly_once (self : InMemoryRepository.t)
    (entity_type entity_id : string) (n : nat) :
  (forall entity : dict,
     InMemoryRepository.get self (VStr entity_type) (VStr entity_id)
     = Ok (VDict entity) ->
     exists self' : InMemoryRepository.t,
       deletes (S n) self (VStr entity_type) (VStr entity_id)
       = Ok (true :: repeat false n, self')
       /\ InMemoryRepository.get self' (VStr entity_type) (VStr entity_id)
          = Ok VNone)
  /\ (InMemoryRepository.get self (VStr entity_type) (VStr entity_id)
      = Ok VNone ->
      deletes n self (VStr entity_type) (VStr entity_id)
      = Ok (repeat false n, self)).
Proof.
  split; [|apply deletes_absent].
  intros entity G.
  pose proof (delete_present _ _ _ _ G) as [D A].
  eexists; split; [|exact A].
  cbn [deletes]. rewrite D, (deletes_absent n _ _ _ A). reflexivity.
Qed.

End RepositoryFacts.

Lemma list_ignores_unsupported_filter_witness :
  InMemoryRepository.list two_tasks (VStr "Task")
    (VList [VStr ">"; VStr "@entity.status"; VStr "pending"])
    (VDict [(KStr "dummy", VBool true)])
  = Ok (all_entities two_tasks "Task").
Proof.
  apply list_ignores_unsupported_filter. left. reflexivity.
Defined.

(** With a non-empty context, the one-element filter [["="]] makes
    [list] raise, and an ["="] list with a fourth element is applied as
    a filter. *)
Lemma list_malformed_filter_counterexample :
  InMemoryRepository.list two_tasks (VStr "Task") (VList [VStr "="])
    (VDict [(KStr "dummy", VBool true)])
  = Raise IndexError
  /\ InMemoryRepository.list two_tasks (VStr "Task")
       (VList [VStr "="; VStr "@entity.status"; VStr "pending"; VStr "extra"])
       (VDict [(KStr "dummy", VBool true)])
     = Ok [[(KStr "id", VStr "t1"); (KStr "status", VStr "pending")]]
  /\ List.length (all_entities two_tasks "Task") = 2.
Proof. repeat split; reflexivity. Qed.

Example list_with_filter :
  InMemoryRepository.list two_tasks (VStr "Task")
    (VList [VStr "="; VStr "@entity.status"; VStr "pending"])
    (VDict [(KStr "dummy", VBool true)])
  = Ok [[(KStr "id", VStr "t1"); (KStr "status", VStr "pending")]].
Proof. reflexivity. Qed.

Lemma update_missing_id_creates_witness :
  exists (entity : dict) (self' : InMemoryRepository.t),
    InMemoryRepository.update two_tasks (VStr "Task") (VStr "t9")
      (VDict [(KStr "name", VStr "T")]) = Ok (VDict entity, self')
    /\ dict_get entity "id" = Some (VStr "t9")
    /\ (forall k : key, k <> KStr "id" ->
        key_get entity k = key_get [(KStr "name", VStr "T")] k)
    /\ InMemoryRepository.get self' (VStr "Task") (VStr "t9")
       = Ok (VDict entity).
Proof.
  apply (update_missing_id_creates two_tasks "Task" "t9"). reflexivity.
Defined.

Lemma delete_true_exactly_once_witness :
  (exists self' : InMemoryRepository.t,
     deletes 3 two_tasks (VStr "Task") (VStr "t1")
     = Ok ([true; false; false], self')
     /\ InMemoryRepository.get self' (VStr "Task") (VStr "t1") = Ok VNone)
  /\ deletes 3 two_tasks (VStr "Task") (VStr "t9")
     = Ok ([false; false; false], two_tasks).
Proof.
  split.
  - exact (proj1 (delete_true_exactly_once two_tasks "Task" "t1" 2)
             [(KStr "id", VStr "t1"); (KStr "status", VStr "pending")]
             eq_refl).
  - exact (proj2 (delete_true_exactly_once two_tasks "Task" "t9" 3) eq_refl).
Defined.

(** ** Effect executor *)

Section ExecutorFacts.
Context `{Runtime}.

Lemma executor_eta (self : EffectExecutor.t) :
  EffectExecutor.set_repository self (EffectExecutor.repository self) = self.
Proof. now destruct self. Qed.

Lemma py_eq_str (a b : string) : py_eq (VStr a) (VStr b) = String.eqb a b.
Proof. reflexivity. Qed.

(** C1, as the code has it: [execute] does not raise on an empty effect,
    on a string tag it does not recognise, or on a client tag: the
    first two return null and change nothing; the last returns null
    and leaves an executor whose client effects are the former ones
    followed by the effect itself, the audit trail, the fetched data
    and the repository being as before. *)
Theorem execute_unrecognized_is_noop (self : EffectExecutor.t) (tag : string)
    (args : list value) (context : dict) :
  EffectExecutor.execute self [] context = Ok (VNone, self, context)
  /\ (~ In tag (server_tags ++ client_tags ++ pytorch_ops) ->
      EffectExecutor.execute self (VStr tag :: args) context
      = Ok (VNone, self, context))
  /\ (In tag client_tags ->
      exists self' : EffectExecutor.t,
        EffectExecutor.execute self (VStr tag :: args) context
        = Ok (VNone, self', context)
        /\ EffectExecutor.client_effects self'
           = EffectExecutor.client_effects self ++ [VList (VStr tag :: args)]
        /\ EffectExecutor.effect_results self'
           = EffectExecutor.effect_results self
        /\ EffectExecutor.data self' = EffectExecutor.data self
        /\ EffectExecutor.repository self' = EffectExecutor.repository self).
Proof.
  split; [reflexivity|]. split.
  - intro N.
    assert (D : forall t, In t (server_tags ++ client_tags ++ pytorch_ops) ->
                String.eqb tag t = false /\ String.eqb t tag = false).
    { intros t I; split; apply String.eqb_neq; intro; subst; contradiction. }
    unfold EffectExecutor.execute.
    cbn [truthy negb list_subscript nth_error rbind existsb].
    rewrite !py_eq_str.
    rewrite (proj1 (D "fetch" ltac:(simpl; tauto))),
            (proj1 (D "persist" ltac:(simpl; tauto))),
            (proj1 (D "call_service" ltac:(simpl; tauto))),
            (proj1 (D "set" ltac:(simpl; tauto))),
            (proj2 (D "render_ui" ltac:(simpl; tauto))),
            (proj2 (D "render-ui" ltac:(simpl; tauto))),
            (proj1 (D "navigate" ltac:(simpl; tauto))),
            (proj1 (D "notify" ltac:(simpl; tauto))),
            (proj1 (D "emit" ltac:(simpl; tauto))).
    cbn [orb EffectExecutor.py_startswith rbind].
    assert (P : EffectExecutor._execute_pytorch self (VStr tag :: args) context
                = Ok (VNone, self, context)).
    { unfold EffectExecutor._execute_pytorch.
      cbn [list_subscript nth_error rbind]. rewrite !py_eq_str.
      rewrite (proj1 (D "nn/forward" ltac:(simpl; tauto))),
              (proj1 (D "train/loop" ltac:(simpl; tauto))).
      now destruct (negb torch_available). }
    destruct (startswith tag "nn/"); cbn [rbind]; [exact P|].
    destruct (startswith tag "train/"); cbn [rbind]; [exact P|].
    now destruct (startswith tag "tensor/").
  - intro I. simpl in I.
    repeat (destruct I as [<-|I];
            [eexists; split; [reflexivity|]; repeat split|]).
    contradiction.
Qed.

End ExecutorFacts.

Lemma execute_unrecognized_is_noop_witness :
  EffectExecutor.execute (H := bare_runtime) fresh_executor
    [VStr "unknown_effect"; VStr "arg"] []
  = Ok (VNone, fresh_executor, [])
  /\ exists self' : EffectExecutor.t,
       EffectExecutor.execute (H := bare_runtime) fresh_executor
         [VStr "navigate"; VStr "/x"] []
       = Ok (VNone, self', [])
       /\ EffectExecutor.client_effects self'
          = [VList [VStr "navigate"; VStr "/x"]]
       /\ EffectExecutor.effect_results self' = []
       /\ EffectExecutor.data self' = []
       /\ EffectExecutor.repository self' = InMemoryRepository.init.
Proof.
  split.
  - apply (@execute_unrecognized_is_noop bare_runtime fresh_executor
             "unknown_effect" [VStr "arg"] []).
    simpl. intuition discriminate.
  - apply (@execute_unrecognized_is_noop bare_runtime fresh_executor
             "navigate" [VStr "/x"] []).
    simpl. tauto.
Defined.

(** A recognised tag with fewer arguments than its branch reads makes
    [execute] raise. *)
Lemma execute_short_fetch_counterexample :
  EffectExecutor.execute (H := bare_runtime) fresh_executor [VStr "fetch"] []
  = Raise IndexError.
Proof. reflexivity. Qed.

Section SetAndPersistFacts.
Context `{Runtime}.

Lemma set_target_unchanged (target val : value) (context : dict) :
  set_destination target context = None ->
  EffectExecutor.set_target target val context = Ok context.
Proof.
  unfold set_destination, EffectExecutor.set_target.
  destruct target; auto.
  destruct (startswith s "@"); auto.
  destruct (split_dot_cons (drop_first s)) as [root [rest E]]. rewrite E.
  cbn [list_subscript nth_error rbind].
  unfold dict_mem, key_mem, assoc_mem, dict_get, key_get.
  destruct rest as [|seg rest]; simpl.
  - now rewrite andb_false_r.
  - destruct (assoc_get key_eqb context (KStr root)); simpl; auto.
    discriminate.
Qed.

Lemma set_target_assigns (target val obj : value) (final_field : string)
    (context : dict) :
  set_destination target context = Some (obj, final_field) ->
  assignable obj final_field = true ->
  exists context', EffectExecutor.set_target target val context = Ok context'.
Proof.
  unfold set_destination, EffectExecutor.set_target.
  destruct target; try discriminate.
  destruct (startswith s "@"); try discriminate.
  destruct (split_dot_cons (drop_first s)) as [root [rest E]]. rewrite E.
  cbn [list_subscript nth_error rbind tl].
  unfold dict_mem, key_mem, assoc_mem, dict_subscript, dict_get, key_get.
  destruct rest as [|seg rest]; try discriminate.
  destruct (assoc_get key_eqb context (KStr root)) as [start|];
    try discriminate.
  cbn [andb List.length Nat.ltb Nat.leb rbind EffectExecutor.last_item].
  generalize (EffectExecutor.navigate start
                (EffectExecutor.but_last (seg :: rest))).
  intros reached [= -> <-] A.
  destruct obj; try discriminate;
    cbn [EffectExecutor.assign_field rbind]; eauto.
  cbn [assignable] in A. cbn [last]. rewrite A. cbn [rbind]. eauto.
Qed.

(** C8, as the code has it: a [set] effect returns, and leaves an audit
    trail that is one entry longer and ends with a [success = true]
    entry for the target, holding the value returned, whenever the
    object its target path leads to is a map, or a record that declares
    the field assigned; and also when the target's root is absent from
    the context or the target is not a ["@root.path"] string of at
    least two segments, in which case the context and the earlier
    entries are as they were and the value is the resolved one.  (The
    earlier entries are the same objects as before the call; only their
    number is stated in general, since one of them may hold the very
    object the effect assigns into.  Likewise the value is stated to be
    the one resolved before the assignment when no assignment can
    change it.) *)
Theorem set_appends_success_when_assignable (self : EffectExecutor.t)
    (tag target raw : value) (context : dict) :
  match set_destination target context with
  | Some (obj, final_field) => assignable obj final_field = true
  | None => True
  end ->
  exists (val : value) (self' : EffectExecutor.t) (context' : dict)
         (earlier : list value),
    EffectExecutor._execute_set self [tag; target; raw] context
    = Ok (val, self', context')
    /\ EffectExecutor.effect_results self'
       = earlier
         ++ [VDict [(KStr "effect", VStr "set"); (KStr "target", target);
                    (KStr "value", val); (KStr "success", VBool true)]]
    /\ List.length earlier = List.length (EffectExecutor.effect_results self)
    /\ (forall v : value,
        Bindings.resolve_binding raw context = Ok v ->
        immutable v = true -> val = v)
    /\ (set_destination target context = None ->
        context' = context
        /\ earlier = EffectExecutor.effect_results self
        /\ Bindings.resolve_binding raw context = Ok val).
Proof.
  intro A.
  destruct (resolve_binding_total raw context) as [val R].
  exists val.
  unfold EffectExecutor._execute_set.
  cbn [list_subscript nth_error rbind List.length Nat.ltb Nat.leb].
  rewrite R. cbn [rbind].
  destruct (set_destination target context) as [[obj final_field]|] eqn:D.
  - destruct (set_target_assigns target val obj final_field context D A)
      as [context' S].
    exists (EffectExecutor.append_effect_result self
              (EffectExecutor.set_entry target val)),
      context', (EffectExecutor.effect_results self).
    rewrite S. repeat split; auto; congruence.
  - exists (EffectExecutor.append_effect_result self
              (EffectExecutor.set_entry target val)),
      context, (EffectExecutor.effect_results self).
    rewrite (set_target_unchanged target val context D).
    repeat split; auto; congruence.
Qed.

(** C10. A [persist] [delete] whose context carries an [entityId], for
    an id that is not in storage: the storage [delete] returns false,
    and [_execute_persist] still returns [{deleted: true, id}] and
    leaves an executor whose audit trail is the former one followed by
    one entry with that data and [success = true]; the repository, the
    fetched data and the client effects are as before. *)
Theorem persist_delete_ignores_storage_result (self : EffectExecutor.t)
    (tag : value) (entity_type entity_id : string) (more : list value)
    (context : dict) :
  dict_get context "entityId" = Some (VStr entity_id) ->
  entity_id <> "" ->
  InMemoryRepository.get (EffectExecutor.repository self) (VStr entity_type)
    (VStr entity_id) = Ok VNone ->
  let returned :=
    VDict [(KStr "deleted", VBool true); (KStr "id", VStr entity_id)] in
  InMemoryRepository.delete (EffectExecutor.repository self)
    (VStr entity_type) (VStr entity_id)
  = Ok (false, EffectExecutor.repository self)
  /\ exists self' : EffectExecutor.t,
       EffectExecutor._execute_persist self
         (tag :: VStr "delete" :: VStr entity_type :: more) context
       = Ok (returned, self', context)
       /\ EffectExecutor.effect_results self'
          = EffectExecutor.effect_results self
            ++ [VDict [(KStr "effect", VStr "persist");
                       (KStr "action", VStr "delete");
                       (KStr "entityType", VStr entity_type);
                       (KStr "data", returned);
                       (KStr "success", VBool true)]]
       /\ EffectExecutor.repository self' = EffectExecutor.repository self
       /\ EffectExecutor.data self' = EffectExecutor.data self
       /\ EffectExecutor.client_effects self'
          = EffectExecutor.client_effects self.
Proof.
  intros E N G returned.
  pose proof (delete_absent _ _ _ G) as D. split; [exact D|].
  exists (EffectExecutor.append_effect_result self
            (VDict [(KStr "effect", VStr "persist");
                    (KStr "action", VStr "delete");
                    (KStr "entityType", VStr entity_type);
                    (KStr "data", returned);
                    (KStr "success", VBool true)])).
  split; [|repeat split].
  unfold EffectExecutor._execute_persist.
  cbn [list_subscript nth_error rbind].
  assert (X : exists data,
             (if Nat.ltb 3 (List.length (tag :: VStr "delete"
                                           :: VStr entity_type :: more))
              then rbind (list_subscript (tag :: VStr "delete"
                                            :: VStr entity_type :: more) 3)
                     (fun raw => Bindings.resolve_binding raw context)
              else Ok (VDict [])) = Ok data).
  { destruct more as [|raw more]; simpl; eauto.
    apply resolve_binding_total. }
  destruct X as [data X]. rewrite X. cbn [rbind].
  change (py_eq (VStr "delete") (VStr "create")) with false.
  change (py_eq (VStr "delete") (VStr "update")) with false.
  change (py_eq (VStr "delete") (VStr "delete")) with true.
  cbv iota.
  unfold dict_get_default. rewrite E.
  assert (T : truthy (VStr entity_id) = true).
  { simpl. apply negb_true_iff. now apply String.eqb_neq. }
  rewrite T, D. cbn [rbind fst snd].
  now rewrite executor_eta.
Qed.

End SetAndPersistFacts.

Lemma set_appends_success_when_assignable_witness :
  (exists (self' : EffectExecutor.t) (context' : dict),
     EffectExecutor._execute_set (H := bare_runtime) fresh_executor
       [VStr "set"; VStr "@entity.status"; VStr "done"]
       [(KStr "entity", VDict [(KStr "status", VStr "pending")])]
     = Ok (VStr "done", self', context')
     /\ EffectExecutor.effect_results self'
        = [VDict [(KStr "effect", VStr "set");
                  (KStr "target", VStr "@entity.status");
                  (KStr "value", VStr "done");
                  (KStr "success", VBool true)]])
  /\ (exists (self' : EffectExecutor.t) (context' : dict),
       EffectExecutor._execute_set (H := bare_runtime) fresh_executor
         [VStr "set"; VStr "@user.role"; VStr "admin"]
         [(KStr "user",
           VObj [(KStr "uid", VStr "u1"); (KStr "role", VNone)])]
       = Ok (VStr "admin", self', context')
       /\ EffectExecutor.effect_results self'
          = [VDict [(KStr "effect", VStr "set");
                    (KStr "target", VStr "@user.role");
                    (KStr "value", VStr "admin");
                    (KStr "success", VBool true)]]).
Proof.
  split.
  - destruct (@set_appends_success_when_assignable bare_runtime
                fresh_executor
                (VStr "set") (VStr "@entity.status") (VStr "done")
                [(KStr "entity", VDict [(KStr "status", VStr "pending")])])
      as [val [self' [context' [earlier [E [R [L [T _]]]]]]]].
    + reflexivity.
    + pose proof (T (VStr "done") eq_refl eq_refl) as V. subst val.
      destruct earlier; [|discriminate L].
      exists self', context'. split; [exact E | exact R].
  - destruct (@set_appends_success_when_assignable bare_runtime
                fresh_executor
                (VStr "set") (VStr "@user.role") (VStr "admin")
                [(KStr "user",
                  VObj [(KStr "uid", VStr "u1"); (KStr "role", VNone)])])
      as [val [self' [context' [earlier [E [R [L [T _]]]]]]]].
    + reflexivity.
    + pose proof (T (VStr "admin") eq_refl eq_refl) as V. subst val.
      destruct earlier; [|discriminate L].
      exists self', context'. split; [exact E | exact R].
Defined.

Example set_mutates_context :
  EffectExecutor._execute_set (H := bare_runtime) fresh_executor
    [VStr "set"; VStr "@entity.status"; VStr "done"]
    [(KStr "entity", VDict [(KStr "status", VStr "pending")])]
  = Ok (VStr "done",
        EffectExecutor.append_effect_result fresh_executor
          (EffectExecutor.set_entry (VStr "@entity.status") (VStr "done")),
        [(KStr "entity", VDict [(KStr "status", VStr "done")])]).
Proof. reflexivity. Qed.

(** A [set] of a field that the record reached does not declare: the
    record refuses, the effect raises and no result is recorded. *)
Example set_on_undeclared_field_raises :
  EffectExecutor._execute_set (H := bare_runtime) fresh_executor
    [VStr "set"; VStr "@user.nickname"; VStr "x"]
    [(KStr "user", VObj [(KStr "uid", VStr "u1"); (KStr "role", VNone)])]
  = Raise ValueError.
Proof. reflexivity. Qed.

(** A [set] whose path ends on a string: [setattr] refuses, the effect
    raises and no result is recorded. *)
Lemma set_on_scalar_counterexample :
  EffectExecutor._execute_set (H := bare_runtime) fresh_executor
    [VStr "set"; VStr "@entityId.x"; VInt 1]
    [(KStr "entityId", VStr "task-1")]
  = Raise AttributeError.
Proof. reflexivity. Qed.

Lemma persist_delete_ignores_storage_result_witness :
  InMemoryRepository.delete two_tasks (VStr "Task") (VStr "gone")
  = Ok (false, two_tasks)
  /\ exists self' : EffectExecutor.t,
       EffectExecutor._execute_persist (H := bare_runtime)
         (EffectExecutor.init two_tasks)
         [VStr "persist"; VStr "delete"; VStr "Task"]
         [(KStr "entityId", VStr "gone")]
       = Ok (VDict [(KStr "deleted", VBool true); (KStr "id", VStr "gone")],
             self', [(KStr "entityId", VStr "gone")])
       /\ EffectExecutor.effect_results self'
          = [VDict [(KStr "effect", VStr "persist");
                    (KStr "action", VStr "delete");
                    (KStr "entityType", VStr "Task");
                    (KStr "data",
                     VDict [(KStr "deleted", VBool true);
                            (KStr "id", VStr "gone")]);
                    (KStr "success", VBool true)]]
       /\ EffectExecutor.repository self' = two_tasks
       /\ EffectExecutor.data self' = []
       /\ EffectExecutor.client_effects self' = [].
Proof.
  apply (@persist_delete_ignores_storage_result bare_runtime
           (EffectExecutor.init two_tasks) (VStr "persist") "Task" "gone" []
           [(KStr "entityId", VStr "gone")]).
  - reflexivity.
  - discriminate.
  - reflexivity.
Defined.

(** ** Event bus *)

Lemma subsequence_tail {A} (x : A) (r l : list A) :
  subsequence (x :: r) l -> subsequence r l.
Proof.
  induction l as [|y l IH]; intro S; inversion S; subst.
  - now apply subsequence_skip.
  - apply subsequence_skip; auto.
Qed.

Lemma sub_eqb_refl (s : EventBus.EventSubscription) : EventBus.sub_eqb s s = true.
Proof.
  unfold EventBus.sub_eqb.
  now rewrite String.eqb_refl, Nat.eqb_refl, Bool.eqb_reflx.
Qed.

Lemma list_remove_subsequence (x : EventBus.EventSubscription)
    (r l : list EventBus.EventSubscription) :
  subsequence (x :: r) l ->
  exists l', EventBus.list_remove l x = Ok l' /\ subsequence r l'.
Proof.
  induction l as [|y l IH]; intro S; inversion S; subst; simpl.
  - rewrite sub_eqb_refl; eauto.
  - destruct (EventBus.sub_eqb y x).
    + eauto using subsequence_tail.
    + destruct (IH H1) as [l' [E S']]. rewrite E.
      eauto using subsequence_skip.
Qed.

Section EventBusFacts.
Context `{EventBus.Handlers}.

Lemma remove_all_subsequence (r l : list EventBus.EventSubscription) :
  subsequence r l -> exists l', EventBus.remove_all l r = Ok l'.
Proof.
  revert l; induction r as [|x r IH]; intros l S; simpl; eauto.
  destruct (list_remove_subsequence _ _ _ S) as [l' [E S']].
  rewrite E; simpl; auto.
Qed.

Lemma run_handlers_trace (subs : list EventBus.EventSubscription)
    (arg : value) (trace : list EventBus.call)
    (to_remove : list EventBus.EventSubscription) :
  fst (EventBus.run_handlers subs arg trace to_remove)
  = trace ++ map (fun sub => (EventBus.handler sub, arg)) subs.
Proof.
  revert trace to_remove; induction subs as [|sub subs IH];
    intros trace to_remove; simpl.
  - now rewrite app_nil_r.
  - destruct (EventBus.raises (EventBus.handler sub) arg trace);
      rewrite IH, <- app_assoc; reflexivity.
Qed.

Lemma run_handlers_to_remove (subs : list EventBus.EventSubscription)
    (arg : value) (trace : list EventBus.call)
    (to_remove : list EventBus.EventSubscription) :
  exists picked,
    snd (EventBus.run_handlers subs arg trace to_remove) = to_remove ++ picked
    /\ subsequence picked subs.
Proof.
  revert trace to_remove; induction subs as [|sub subs IH];
    intros trace to_remove; simpl.
  - exists []. rewrite app_nil_r. split; constructor.
  - destruct (EventBus.raises (EventBus.handler sub) arg trace).
    + destruct (IH (trace ++ [(EventBus.handler sub, arg)]) to_remove)
        as [picked [E S]].
      exists picked; split; auto using subsequence_skip.
    + destruct (EventBus.once sub).
      * destruct (IH (trace ++ [(EventBus.handler sub, arg)])
                    (to_remove ++ [sub])) as [picked [E S]].
        exists (sub :: picked). rewrite E, <- app_assoc.
        split; auto using subsequence_take.
      * destruct (IH (trace ++ [(EventBus.handler sub, arg)]) to_remove)
          as [picked [E S]].
        exists picked; split; auto using subsequence_skip.
Qed.

(** Whatever handlers raise among the [Exception]s, [emit] returns,
    and every handler subscribed to the event has been called with the
    payload, in subscription order. *)
Lemma emit_calls_all_when_caught (self : EventBus.t) (ev : string)
    (payload : value) (trace : list EventBus.call) :
  exists self' : EventBus.t,
    EventBus.emit self ev payload trace
    = Ok (self',
          trace ++ map (fun sub => (EventBus.handler sub,
                                    py_or payload (VDict [])))
                     (EventBus.subscribers self ev)).
Proof.
  unfold EventBus.emit, EventBus.subscribers.
  destruct (assoc_get String.eqb (EventBus._subscriptions self) ev)
    as [subs|]; simpl.
  - destruct (run_handlers_to_remove subs (py_or payload (VDict [])) trace [])
      as [picked [E S]].
    rewrite E. simpl.
    destruct (remove_all_subsequence _ _ S) as [subs' R]. rewrite R. simpl.
    rewrite run_handlers_trace. eauto.
  - rewrite app_nil_r. eauto.
Qed.

(** When the handlers return, the second loop removes exactly the
    [once] subscriptions. *)
Lemma remove_all_skips_kept (s : EventBus.EventSubscription)
    (l r : list EventBus.EventSubscription) :
  EventBus.once s = false ->
  Forall (fun x => EventBus.once x = true) r ->
  EventBus.remove_all (s :: l) r
  = match EventBus.remove_all l r with
    | Ok l' => Ok (s :: l')
    | Raise e => Raise e
    end.
Proof.
  intros K F. revert l; induction F as [|x r Ox F IH]; intro l; simpl; auto.
  assert (N : EventBus.sub_eqb s x = false).
  { unfold EventBus.sub_eqb. rewrite K, Ox. simpl.
    now rewrite andb_false_r. }
  rewrite N. destruct (EventBus.list_remove l x); simpl; auto.
Qed.

Lemma remove_all_once (subs : list EventBus.EventSubscription) :
  EventBus.remove_all subs (filter EventBus.once subs)
  = Ok (filter (fun s => negb (EventBus.once s)) subs).
Proof.
  induction subs as [|s subs IH]; simpl; auto.
  destruct (EventBus.once s) eqn:O; simpl.
  - now rewrite sub_eqb_refl.
  - rewrite remove_all_skips_kept, IH; auto.
    apply Forall_forall. intros x I. now apply filter_In in I.
Qed.

Lemma run_handlers_all_return (subs : list EventBus.EventSubscription)
    (arg : value) (trace : list EventBus.call)
    (to_remove : list EventBus.EventSubscription) :
  (forall h a t, EventBus.raises h a t = false) ->
  snd (EventBus.run_handlers subs arg trace to_remove)
  = to_remove ++ filter EventBus.once subs.
Proof.
  intro R. revert trace to_remove; induction subs as [|s subs IH];
    intros trace to_remove; simpl.
  - now rewrite app_nil_r.
  - rewrite R, IH. destruct (EventBus.once s); auto.
    now rewrite <- app_assoc.
Qed.

Lemma emit_removes_once_when_handlers_return (self : EventBus.t)
    (ev : string) (payload : value) (trace : list EventBus.call)
    (subs : list EventBus.EventSubscription) :
  (forall h a t, EventBus.raises h a t = false) ->
  assoc_get String.eqb (EventBus._subscriptions self) ev = Some subs ->
  exists self' trace',
    EventBus.emit self ev payload trace = Ok (self', trace')
    /\ EventBus.subscribers self' ev
       = filter (fun s => negb (EventBus.once s)) subs.
Proof.
  intros R E. unfold EventBus.emit. rewrite E.
  rewrite run_handlers_all_return by exact R. simpl.
  rewrite remove_all_once. simpl. eexists. eexists. split; [reflexivity|].
  unfold EventBus.subscribers; simpl.
  clear E. induction (EventBus._subscriptions self) as [|[k v] d IH]; simpl.
  - now rewrite String.eqb_refl.
  - destruct (String.eqb k ev) eqn:K; simpl; rewrite K; auto.
Qed.

End EventBusFacts.

Section EventBusExceptionFacts.
Context `{C : EventBus.Callables}.

(** As long as no handler raises outside [Exception], the first loop
    is the one of [run_handlers]. *)
Lemma run_handlers_full_caught (subs : list EventBus.EventSubscription)
    (arg : value) (trace : list EventBus.call)
    (to_remove : list EventBus.EventSubscription) :
  (forall sub tr, In sub subs ->
     leaves_emit (EventBus.ending_of (EventBus.handler sub) arg tr) = false) ->
  EventBus.run_handlers_full subs arg trace to_remove
  = (fst (EventBus.run_handlers (H := caught_handlers C) subs arg trace
            to_remove),
     inl (snd (EventBus.run_handlers (H := caught_handlers C) subs arg trace
                 to_remove))).
Proof.
  revert trace to_remove; induction subs as [|sub subs IH];
    intros trace to_remove N; [reflexivity|].
  cbn [EventBus.run_handlers_full EventBus.run_handlers caught_handlers
       EventBus.raises].
  pose proof (N sub trace (or_introl eq_refl)) as L.
  destruct (EventBus.ending_of (EventBus.handler sub) arg trace);
    try discriminate L; apply IH; intros s tr I; apply N; now right.
Qed.

Lemma emit_full_caught (self : EventBus.t) (ev : string) (payload : value)
    (trace : list EventBus.call) :
  (forall sub tr, In sub (EventBus.subscribers self ev) ->
     leaves_emit (EventBus.ending_of (EventBus.handler sub)
                    (py_or payload (VDict [])) tr) = false) ->
  EventBus.emit_full self ev payload trace
  = match EventBus.emit (H := caught_handlers C) self ev payload trace with
    | Ok (self', trace') => EventBus.Returned self' trace'
    | Raise e => EventBus.Raised e
    end.
Proof.
  unfold EventBus.emit_full, EventBus.emit, EventBus.subscribers.
  destruct (assoc_get String.eqb (EventBus._subscriptions self) ev)
    as [subs|]; [|reflexivity].
  intro N. rewrite run_handlers_full_caught by exact N.
  destruct (EventBus.remove_all subs _); reflexivity.
Qed.

(** C7, as the code has it: when the exceptions the handlers of an
    event raise are all [Exception]s, none of them leaves [emit]:
    [emit] returns, and every handler subscribed to the event, those
    subscribed after a raising one included, has been called with the
    payload, in subscription order. *)
Theorem emit_catches_exceptions_and_calls_every_handler (self : EventBus.t)
    (ev : string) (payload : value) (trace : list EventBus.call) :
  (forall sub tr, In sub (EventBus.subscribers self ev) ->
     leaves_emit (EventBus.ending_of (EventBus.handler sub)
                    (py_or payload (VDict [])) tr) = false) ->
  exists self' : EventBus.t,
    EventBus.emit_full self ev payload trace
    = EventBus.Returned self'
        (trace ++ map (fun sub => (EventBus.handler sub,
                                   py_or payload (VDict [])))
                    (EventBus.subscribers self ev)).
Proof.
  intro N. rewrite emit_full_caught by exact N.
  destruct (emit_calls_all_when_caught (H := caught_handlers C)
              self ev payload trace) as [self' E].
  rewrite E. eauto.
Qed.

(** The exception of a handler that is not an [Exception] leaves
    [emit] at that handler: the handlers subscribed after it are not
    called and no [once] subscription is removed. *)
Lemma emit_full_propagates (self : EventBus.t) (ev : string)
    (payload : value) (trace : list EventBus.call)
    (before after : list EventBus.EventSubscription)
    (sub : EventBus.EventSubscription) (b : EventBus.base_exception) :
  assoc_get String.eqb (EventBus._subscriptions self) ev
  = Some (before ++ sub :: after) ->
  (forall s tr, In s before ->
     leaves_emit (EventBus.ending_of (EventBus.handler s)
                    (py_or payload (VDict [])) tr) = false) ->
  (forall tr, EventBus.ending_of (EventBus.handler sub)
                (py_or payload (VDict [])) tr
              = EventBus.RaisesBaseException b) ->
  EventBus.emit_full self ev payload trace
  = EventBus.Propagated b self
      (trace ++ map (fun s => (EventBus.handler s, py_or payload (VDict [])))
                  (before ++ [sub])).
Proof.
  intros E N B. unfold EventBus.emit_full. rewrite E.
  assert (R : forall trace to_remove,
             EventBus.run_handlers_full (before ++ sub :: after)
               (py_or payload (VDict [])) trace to_remove
             = (trace ++ map (fun s => (EventBus.handler s,
                                        py_or payload (VDict [])))
                           (before ++ [sub]),
                inr b)).
  { clear E. induction before as [|s before IH]; intros tr to_remove.
    - cbn [app EventBus.run_handlers_full map]. now rewrite B.
    - cbn [app EventBus.run_handlers_full map].
      pose proof (N s tr (or_introl eq_refl)) as L.
      assert (N' : forall s' tr', In s' before ->
                leaves_emit (EventBus.ending_of (EventBus.handler s')
                               (py_or payload (VDict [])) tr') = false).
      { intros s' tr' I. apply N. now right. }
      destruct (EventBus.ending_of (EventBus.handler s)
                  (py_or payload (VDict [])) tr);
        try discriminate L; rewrite (IH N');
        now rewrite <- app_assoc. }
  now rewrite R.
Qed.

End EventBusExceptionFacts.

Lemma emit_catches_exceptions_and_calls_every_handler_witness :
  exists self' : EventBus.t,
    EventBus.emit_full (H := one_failing_callable) two_handler_bus "E"
      (VDict [(KStr "data", VStr "test")]) []
    = EventBus.Returned self'
        [(7, VDict [(KStr "data", VStr "test")]);
         (8, VDict [(KStr "data", VStr "test")])].
Proof.
  apply (@emit_catches_exceptions_and_calls_every_handler
           one_failing_callable two_handler_bus "E"
           (VDict [(KStr "data", VStr "test")]) []).
  intros sub tr I. simpl.
  destruct (Nat.eqb (EventBus.handler sub) 7); reflexivity.
Defined.

(** C7 as worded fails: a handler cancelled while it runs raises
    [asyncio.CancelledError], which [except Exception] does not catch;
    the exception leaves [emit] and the handler subscribed after it is
    never called. *)
Lemma emit_cancelled_handler_counterexample :
  EventBus.emit_full (H := one_cancelled_callable) two_handler_bus "E"
    (VDict [(KStr "data", VStr "test")]) []
  = EventBus.Propagated EventBus.CancelledError two_handler_bus
      [(7, VDict [(KStr "data", VStr "test")])].
Proof. reflexivity. Qed.

(** The test [test_handler_error_doesnt_break_others]: the handler
    subscribed after a raising one still receives the payload. *)
Example handler_error_does_not_break_others :
  EventBus.emit (H := one_bad_handler)
    (EventBus.subscribe
       (EventBus.subscribe EventBus.init "ERROR_EVENT" 7 false)
       "ERROR_EVENT" 8 false)
    "ERROR_EVENT" (VDict [(KStr "data", VStr "test")]) []
  = Ok (EventBus.subscribe
          (EventBus.subscribe EventBus.init "ERROR_EVENT" 7 false)
          "ERROR_EVENT" 8 false,
        [(7, VDict [(KStr "data", VStr "test")]);
         (8, VDict [(KStr "data", VStr "test")])]).
Proof. reflexivity. Qed.

(** The test [test_once_subscription]: a [once] handler that returns
    fires once over three emits. *)
Example once_subscription_fires_once :
  emits (H := returning_handlers) once_bus "ONCE_EVENT"
    [VDict [(KStr "call", VInt 1)]; VDict [(KStr "call", VInt 2)];
     VDict [(KStr "call", VInt 3)]] []
  = Ok ({| EventBus._subscriptions := [("ONCE_EVENT", [])] |},
        [(0, VDict [(KStr "call", VInt 1)])]).
Proof. reflexivity. Qed.

(** C6 on the code: a [once] handler that raises is not removed by
    [emit]; over three emits it is called three times and is still
    subscribed afterwards. *)
Theorem once_handler_that_raises_stays_subscribed :
  emits (H := raising_handlers) once_bus "ONCE_EVENT"
    [VDict [(KStr "call", VInt 1)]; VDict [(KStr "call", VInt 2)];
     VDict [(KStr "call", VInt 3)]] []
  = Ok (once_bus,
        [(0, VDict [(KStr "call", VInt 1)]);
         (0, VDict [(KStr "call", VInt 2)]);
         (0, VDict [(KStr "call", VInt 3)])])
  /\ EventBus.subscribers once_bus "ONCE_EVENT"
     = [{| EventBus.event := "ONCE_EVENT"; EventBus.handler := 0;
           EventBus.once := true |}].
Proof. split; reflexivity. Qed.

(** ** Connection manager *)

Section ConnectionFacts.
Context `{ConnectionManager.Transport}.

Lemma send_loop_sent (connections : list ConnectionManager.connection)
    (text : string) (sent : list ConnectionManager.send)
    (disconnected : list ConnectionManager.connection) :
  fst (ConnectionManager.send_loop connections text sent disconnected)
  = sent ++ map (fun c => (c, text)) connections.
Proof.
  revert sent disconnected; induction connections as [|c cs IH];
    intros sent disconnected; simpl.
  - now rewrite app_nil_r.
  - rewrite IH, <- app_assoc. reflexivity.
Qed.

Lemma scoped_if_present (self : ConnectionManager.t) (ty id : string) :
  (if assoc_mem String.eqb (ConnectionManager.active_connections self) ty
      && assoc_mem String.eqb (ConnectionManager.by_type self ty) id
   then ConnectionManager.scoped self ty id else [])
  = ConnectionManager.scoped self ty id.
Proof.
  unfold ConnectionManager.scoped, ConnectionManager.by_type, assoc_mem.
  destruct (assoc_get String.eqb (ConnectionManager.active_connections self) ty)
    as [m|]; simpl; auto.
  destruct (assoc_get String.eqb m id); auto.
Qed.

(** C9. A broadcast to an entity attempts one send of the encoded
    message to each connection scoped to that entity and to each global
    connection, and to no other: a connection that is neither scoped to
    the pair nor global (one scoped to another id, say) gets nothing. *)
Theorem broadcast_to_entity_recipients (self : ConnectionManager.t)
    (entity_type entity_id : string) (message : value) (text : string)
    (sent : list ConnectionManager.send) :
  ConnectionManager.json_dumps
    (ConnectionManager.make_json_serializable message) = Ok text ->
  exists (self' : ConnectionManager.t) (new : list ConnectionManager.send),
    ConnectionManager.broadcast_to_entity self entity_type entity_id message
      sent = Ok (self', sent ++ new)
    /\ new = map (fun c => (c, text))
               (ConnectionManager.scoped self entity_type entity_id
                ++ ConnectionManager.global_connections self)
    /\ (forall c : ConnectionManager.connection,
          In c (map fst new)
          <-> In c (ConnectionManager.scoped self entity_type entity_id)
              \/ In c (ConnectionManager.global_connections self)).
Proof.
  intro J. unfold ConnectionManager.broadcast_to_entity,
    ConnectionManager._send_to_connections.
  rewrite J, scoped_if_present. simpl. rewrite send_loop_sent.
  eexists. eexists. split; [reflexivity|]. split; [reflexivity|].
  intro c. rewrite map_map. simpl. rewrite map_id. apply in_app_iff.
Qed.

End ConnectionFacts.

Lemma broadcast_to_entity_recipients_witness :
  exists (self' : ConnectionManager.t) (new : list ConnectionManager.send),
    ConnectionManager.broadcast_to_entity (H := plain_transport)
      three_connections "T" "1" (VDict [(KStr "type", VStr "client_effects")])
      [] = Ok (self', new)
    /\ new = [(1, "{}"); (3, "{}")]
    /\ ~ In 2 (map fst new).
Proof.
  destruct (@broadcast_to_entity_recipients plain_transport three_connections
              "T" "1" (VDict [(KStr "type", VStr "client_effects")]) "{}" []
              eq_refl) as [self' [new [E [N R]]]].
  exists self', new. split; [exact E|]. split; [exact N|].
  intro I. apply R in I. simpl in I. intuition discriminate.
Defined.

(** * Further properties of the code *)

(** ** Dictionaries, continued *)

Section KeyMapsMore.
Context {V : Type}.
Implicit Types (d : list (key * V)) (k : key) (v : V).

Lemma key_get_del_other d k k' :
  k' <> k -> key_get (key_del d k) k' = key_get d k'.
Proof.
  intro N. unfold key_get, key_del, assoc_del.
  induction d as [|[k0 v0] d IH]; simpl; auto.
  destruct (key_eqb k0 k) eqn:E; simpl.
  - apply key_eqb_eq in E; subst k0.
    destruct (key_eqb k k') eqn:E'; auto.
    apply key_eqb_eq in E'; congruence.
  - now rewrite IH.
Qed.

Lemma key_set_set d k v v' : key_set (key_set d k v) k v' = key_set d k v'.
Proof.
  unfold key_set. induction d as [|[k0 v0] d IH]; simpl.
  - now rewrite key_eqb_refl.
  - destruct (key_eqb k0 k) eqn:E; simpl; rewrite E; auto.
    now rewrite IH.
Qed.

Lemma assoc_values_set_new d k v :
  key_get d k = None ->
  assoc_values (key_set d k v) = assoc_values d ++ [v].
Proof.
  unfold key_get, key_set, assoc_values.
  induction d as [|[k0 v0] d IH]; simpl; auto.
  destruct (key_eqb k0 k); [discriminate|].
  intro N. simpl. now rewrite IH.
Qed.

Lemma key_get_not_in d k : ~ In k (map fst d) -> key_get d k = None.
Proof.
  unfold key_get. induction d as [|[k0 v0] d IH]; simpl; auto.
  intro N. destruct (key_eqb k0 k) eqn:E.
  - apply key_eqb_eq in E. tauto.
  - apply IH. tauto.
Qed.

Lemma keys_set_present d k v :
  key_mem d k = true -> map fst (key_set d k v) = map fst d.
Proof.
  unfold key_mem, assoc_mem, key_set.
  induction d as [|[k0 v0] d IH]; simpl; [discriminate|].
  destruct (key_eqb k0 k) eqn:E; simpl; auto.
  intro M. now rewrite IH.
Qed.


End KeyMapsMore.

Lemma key_set_same_value {V} (d : list (key * V)) (k : key) (v : V) :
  key_get d k = Some v -> key_set d k v = d.
Proof.
  unfold key_get, key_set. induction d as [|[k0 v0] d IH]; simpl.
  - discriminate.
  - destruct (key_eqb k0 k); intro G.
    + now injection G as ->.
    + now rewrite IH.
Qed.

Lemma dict_update_get_absent (d other : dict) (k : key) :
  key_get other k = None -> key_get (dict_update d other) k = key_get d k.
Proof.
  unfold dict_update. revert d.
  induction other as [|[k0 v0] other IH]; intros d N; simpl; auto.
  unfold key_get in N; simpl in N.
  destruct (key_eqb k0 k) eqn:E; [discriminate|].
  rewrite IH by exact N. apply key_get_set_other.
  intro; subst. now rewrite key_eqb_refl in E.
Qed.

Lemma dict_update_get_present (d other : dict) (k : key) (v : value) :
  NoDup (map fst other) ->
  key_get other k = Some v -> key_get (dict_update d other) k = Some v.
Proof.
  unfold dict_update. revert d.
  induction other as [|[k0 v0] other IH]; intros d N G; simpl.
  - discriminate.
  - inversion N as [|? ? NI N']; subst.
    unfold key_get in G; simpl in G.
    destruct (key_eqb k0 k) eqn:E.
    + apply key_eqb_eq in E; subst k0. injection G as ->.
      change (key_get (dict_update (key_set d k v) other) k = Some v).
      rewrite dict_update_get_absent by (now apply key_get_not_in).
      apply key_get_set_same.
    + now apply IH.
Qed.

(** ** In-memory repository, continued *)

Section RepositoryMoreFacts.
Context `{Runtime}.

Lemma bucket_set_bucket_other (self : InMemoryRepository.t) (kt kt' : key)
    (b : list (key * dict)) :
  kt' <> kt ->
  InMemoryRepository.bucket (InMemoryRepository.set_bucket self kt b) kt'
  = InMemoryRepository.bucket self kt'.
Proof.
  intro N. unfold InMemoryRepository.bucket, InMemoryRepository.set_bucket;
    simpl.
  now rewrite key_get_set_other.
Qed.

Lemma create_without_id (self : InMemoryRepository.t)
    (entity_type : string) (data : dict) :
  truthy (dict_get_default data "id" VNone) = false ->
  let entity_id := uuid4 (InMemoryRepository.uuid_draws self) in
  let entity := dict_set data "id" (VStr entity_id) in
  exists self' : InMemoryRepository.t,
    InMemoryRepository.create self (VStr entity_type) (VDict data)
    = Ok (VDict entity, self')
    /\ InMemoryRepository.get self' (VStr entity_type) (VStr entity_id)
       = Ok (VDict entity)
    /\ dict_get entity "id" = Some (VStr entity_id)
    /\ (forall k : key, k <> KStr "id" -> key_get entity k = key_get data k)
    /\ InMemoryRepository.uuid_draws self'
       = S (InMemoryRepository.uuid_draws self).
Proof.
  intros F entity_id entity.
  unfold InMemoryRepository.create. cbn [py_get rbind]. rewrite F.
  cbn [py_dict_with rbind hash_key]. eexists. split; [reflexivity|].
  split; [|split; [|split]].
  - unfold InMemoryRepository.get. cbn [hash_key rbind].
    now rewrite bucket_set_bucket, key_get_set_same.
  - apply key_get_set_same.
  - intros k N. now apply key_get_set_other.
  - reflexivity.
Qed.

(** X1. [create] on data without a usable id draws the next uuid, puts
    it in the [id] field, and [get] with that id returns the entity
    that [create] returned. *)
Theorem create_generates_id_and_get_returns_it (self : InMemoryRepository.t)
    (entity_type : string) (data : dict) :
  truthy (dict_get_default data "id" VNone) = false ->
  let entity_id := uuid4 (InMemoryRepository.uuid_draws self) in
  let entity := dict_set data "id" (VStr entity_id) in
  exists self' : InMemoryRepository.t,
    InMemoryRepository.create self (VStr entity_type) (VDict data)
    = Ok (VDict entity, self')
    /\ InMemoryRepository.get self' (VStr entity_type) (VStr entity_id)
       = Ok (VDict entity)
    /\ dict_get entity "id" = Some (VStr entity_id)
    /\ (forall k : key, k <> KStr "id" -> key_get entity k = key_get data k)
    /\ InMemoryRepository.uuid_draws self'
       = S (InMemoryRepository.uuid_draws self).
Proof. exact (create_without_id self entity_type data). Qed.

(** X2. [create] on data that carries a non-empty string id keeps that
    id and draws no uuid; whatever was stored under the id is replaced
    by the new data as a whole (nothing of the old entity is merged
    in). *)
Theorem create_with_id_replaces (self : InMemoryRepository.t)
    (entity_type entity_id : string) (data : dict) :
  dict_get data "id" = Some (VStr entity_id) ->
  entity_id <> "" ->
  exists self' : InMemoryRepository.t,
    InMemoryRepository.create self (VStr entity_type) (VDict data)
    = Ok (VDict (dict_set data "id" (VStr entity_id)), self')
    /\ InMemoryRepository.get self' (VStr entity_type) (VStr entity_id)
       = Ok (VDict (dict_set data "id" (VStr entity_id)))
    /\ (forall k : key,
          key_get (dict_set data "id" (VStr entity_id)) k = key_get data k)
    /\ InMemoryRepository.uuid_draws self'
       = InMemoryRepository.uuid_draws self.
Proof.
  intros G N.
  assert (D : dict_get_default data "id" VNone = VStr entity_id).
  { unfold dict_get_default. now rewrite G. }
  assert (T : truthy (VStr entity_id) = true).
  { simpl. apply negb_true_iff. now apply String.eqb_neq. }
  unfold InMemoryRepository.create. cbn [py_get rbind]. rewrite D, T.
  cbn [py_dict_with rbind hash_key]. eexists. split; [reflexivity|].
  split; [|split].
  - unfold InMemoryRepository.get. cbn [hash_key rbind].
    now rewrite bucket_set_bucket, key_get_set_same.
  - intro k. destruct (key_eqb k (KStr "id")) eqn:E.
    + apply key_eqb_eq in E; subst k. unfold dict_set.
      rewrite key_get_set_same. symmetry. exact G.
    + apply key_get_set_other. now apply key_eqb_neq.
  - reflexivity.
Qed.

(** X3. [update] of a stored entity merges: the fields of the data win,
    every field the data does not mention keeps its stored value, and
    the merged entity is what [update] returns and what [get] returns
    afterwards. *)
Theorem update_existing_merges (self : InMemoryRepository.t)
    (entity_type entity_id : string) (existing data : dict) :
  InMemoryRepository.get self (VStr entity_type) (VStr entity_id)
  = Ok (VDict existing) ->
  NoDup (map fst data) ->
  exists (merged : dict) (self' : InMemoryRepository.t),
    InMemoryRepository.update self (VStr entity_type) (VStr entity_id)
      (VDict data) = Ok (VDict merged, self')
    /\ InMemoryRepository.get self' (VStr entity_type) (VStr entity_id)
       = Ok (VDict merged)
    /\ (forall (k : key) (v : value),
          key_get data k = Some v -> key_get merged k = Some v)
    /\ (forall k : key,
          key_get data k = None -> key_get merged k = key_get existing k).
Proof.
  unfold InMemoryRepository.get, InMemoryRepository.update.
  cbn [hash_key rbind]. intros G N.
  destruct (key_get (InMemoryRepository.bucket self (KStr entity_type))
              (KStr entity_id)) as [e|] eqn:E; [|discriminate].
  injection G as ->. cbn [py_dict_update rbind].
  exists (dict_update existing data). eexists. split; [reflexivity|].
  split; [|split].
  - now rewrite bucket_set_bucket, key_get_set_same.
  - intros k v. now apply dict_update_get_present.
  - intro k. apply dict_update_get_absent.
Qed.

End RepositoryMoreFacts.

Lemma startswith_cons (c c' : ascii) (s p : string) :
  startswith (String c s) (String c' p) = Ascii.eqb c c' && startswith s p.
Proof. reflexivity. Qed.

Lemma replace_from_no_at (s : string) :
  no_at s -> replace_from 0 s "@entity." "" = s.
Proof.
  induction s as [|c s IH]; simpl; auto.
  intros [N A]. rewrite startswith_cons.
  destruct (Ascii.eqb c "@") eqn:E.
  - apply Ascii.eqb_eq in E; contradiction.
  - simpl. now rewrite IH.
Qed.

Lemma replace_entity_prefix (field : string) :
  no_at field -> replace ("@entity." ++ field) "@entity." "" = field.
Proof.
  intro A. unfold replace. simpl.
  change (startswith (String "@" (String "e" (String "n" (String "t"
            (String "i" (String "t" (String "y" (String "." field))))))))
            "@entity.")
    with true.
  simpl. now apply replace_from_no_at.
Qed.

Lemma filter_idempotent {A} (p : A -> bool) (l : list A) :
  filter p (filter p l) = filter p l.
Proof.
  induction l as [|x l IH]; simpl; auto.
  destruct (p x) eqn:E; simpl; rewrite ?E, IH; auto.
Qed.

Lemma length_key_set_present {V} (d : list (key * V)) (k : key) (v : V) :
  key_mem d k = true -> List.length (key_set d k v) = List.length d.
Proof.
  intro M. rewrite <- (length_map fst), <- (length_map fst d).
  now rewrite keys_set_present.
Qed.

Section RepositoryFrameFacts.
Context `{Runtime}.

Lemma get_set_bucket_other (self : InMemoryRepository.t) (kt : key)
    (b : list (key * dict)) (ty' id' : string) :
  (KStr ty' = kt ->
   key_get b (KStr id')
   = key_get (InMemoryRepository.bucket self kt) (KStr id')) ->
  InMemoryRepository.get (InMemoryRepository.set_bucket self kt b)
    (VStr ty') (VStr id')
  = InMemoryRepository.get self (VStr ty') (VStr id').
Proof.
  intro E. unfold InMemoryRepository.get. cbn [hash_key rbind].
  destruct (key_eqb (KStr ty') kt) eqn:K.
  - apply key_eqb_eq in K. subst kt.
    now rewrite bucket_set_bucket, E.
  - apply key_eqb_neq in K. now rewrite bucket_set_bucket_other.
Qed.

Lemma other_entity_key (ty id ty' id' : string) :
  (ty', id') <> (ty, id) -> KStr ty' = KStr ty -> KStr id' <> KStr id.
Proof. intros N [= ->] [= ->]. now apply N. Qed.

(** X4. [update] of an id that is not stored, [delete] and [create]
    touch one entity only: every other entity, of the same or of
    another type, is returned by [get] afterwards exactly as before.
    ([update] of a stored entity is left out: it writes into the stored
    dict in place, and that dict may be held elsewhere too.) *)
Theorem storage_writes_leave_other_entities (self : InMemoryRepository.t)
    (entity_type entity_id other_type other_id : string) (data : value) :
  (other_type, other_id) <> (entity_type, entity_id) ->
  (forall (entity : value) (self' : InMemoryRepository.t),
     InMemoryRepository.get self (VStr entity_type) (VStr entity_id)
     = Ok VNone ->
     InMemoryRepository.update self (VStr entity_type) (VStr entity_id) data
     = Ok (entity, self') ->
     InMemoryRepository.get self' (VStr other_type) (VStr other_id)
     = InMemoryRepository.get self (VStr other_type) (VStr other_id))
  /\ (forall (deleted : bool) (self' : InMemoryRepository.t),
        InMemoryRepository.delete self (VStr entity_type) (VStr entity_id)
        = Ok (deleted, self') ->
        InMemoryRepository.get self' (VStr other_type) (VStr other_id)
        = InMemoryRepository.get self (VStr other_type) (VStr other_id))
  /\ (forall (entity : dict) (self' : InMemoryRepository.t),
        InMemoryRepository.create self (VStr entity_type) data
        = Ok (VDict entity, self') ->
        dict_get entity "id" = Some (VStr entity_id) ->
        InMemoryRepository.get self' (VStr other_type) (VStr other_id)
        = InMemoryRepository.get self (VStr other_type) (VStr other_id)).
Proof.
  intro N. pose proof (other_entity_key _ _ _ _ N) as K. split; [|split].
  - intros entity self'. unfold InMemoryRepository.update.
    unfold InMemoryRepository.get at 1.
    cbn [hash_key rbind].
    destruct (key_get (InMemoryRepository.bucket self (KStr entity_type))
                (KStr entity_id)) as [existing|]; [discriminate|].
    intros _.
    destruct (py_dict_with data "id" (VStr entity_id)) as [fresh|];
        cbn [rbind]; [|discriminate].
      intros [= _ <-]. apply get_set_bucket_other.
      intro E. apply key_get_set_other. auto.
  - intros deleted self'. unfold InMemoryRepository.delete.
    cbn [hash_key rbind].
    destruct (key_mem (InMemoryRepository._store self) (KStr entity_type));
      [|now intros [= _ <-]].
    destruct (key_mem (InMemoryRepository.bucket self (KStr entity_type))
                (KStr entity_id)); [|now intros [= _ <-]].
    intros [= _ <-]. apply get_set_bucket_other.
    intro E. apply key_get_del_other. auto.
  - intros entity self'. unfold InMemoryRepository.create.
    destruct data as [| | | | |d| |]; try discriminate.
    cbn [py_get py_dict_with rbind hash_key].
    set (got := dict_get_default d "id" VNone).
    destruct (truthy got).
    + destruct (hash_key got) as [ki|] eqn:HK; cbn [rbind]; [|discriminate].
      intros [= <- <-] G. unfold dict_get, dict_set in G.
      rewrite key_get_set_same in G. injection G as G. rewrite G in HK.
      injection HK as <-. apply get_set_bucket_other.
      intro E. apply key_get_set_other. auto.
    + cbn [rbind]. intros [= <- <-] G. unfold dict_get, dict_set in G.
      rewrite key_get_set_same in G. injection G as G. rewrite G.
      match goal with
      | |- InMemoryRepository.get (InMemoryRepository.set_bucket ?s _ _) _ _
           = _ =>
          transitivity (InMemoryRepository.get s (VStr other_type)
                          (VStr other_id)); [|reflexivity]
      end.
      apply get_set_bucket_other.
      intro E. apply key_get_set_other. auto.
Qed.

(** X5. Entities are listed in the order their ids first entered the
    store: storing under a new id puts the entity last, storing under
    an id already there keeps the number of listed entities. *)
Theorem list_keeps_insertion_order (self : InMemoryRepository.t)
    (entity_type entity_id : string) (data : dict) :
  dict_get data "id" = Some (VStr entity_id) ->
  entity_id <> "" ->
  exists (entity : dict) (self' : InMemoryRepository.t),
    InMemoryRepository.create self (VStr entity_type) (VDict data)
    = Ok (VDict entity, self')
    /\ (InMemoryRepository.get self (VStr entity_type) (VStr entity_id)
        = Ok VNone ->
        InMemoryRepository.list self' (VStr entity_type) VNone VNone
        = Ok (all_entities self entity_type ++ [entity]))
    /\ (InMemoryRepository.get self (VStr entity_type) (VStr entity_id)
        <> Ok VNone ->
        List.length (all_entities self' entity_type)
        = List.length (all_entities self entity_type)).
Proof.
  intros G N.
  assert (D : dict_get_default data "id" VNone = VStr entity_id).
  { unfold dict_get_default. now rewrite G. }
  assert (T : truthy (VStr entity_id) = true).
  { simpl. apply negb_true_iff. now apply String.eqb_neq. }
  unfold InMemoryRepository.create. cbn [py_get rbind]. rewrite D, T.
  cbn [py_dict_with rbind hash_key]. eexists. eexists.
  split; [reflexivity|].
  unfold InMemoryRepository.get, InMemoryRepository.list, all_entities.
  cbn [hash_key rbind truthy andb]. rewrite bucket_set_bucket.
  destruct (key_get (InMemoryRepository.bucket self (KStr entity_type))
              (KStr entity_id)) as [old|] eqn:E; simpl; split; intro A.
  - discriminate.
  - unfold assoc_values. rewrite !length_map.
    apply length_key_set_present. apply key_mem_get. eauto.
  - now rewrite assoc_values_set_new.
  - contradiction.
Qed.

(** X6. Filtering is idempotent: applying the same filter expression to
    what [_apply_filter] returned gives the same list again. *)
Theorem apply_filter_idempotent (entities filtered : list dict)
    (filter_expr context : value) :
  InMemoryRepository._apply_filter entities filter_expr context
  = Ok filtered ->
  InMemoryRepository._apply_filter filtered filter_expr context
  = Ok filtered.
Proof.
  unfold InMemoryRepository._apply_filter.
  destruct (negb (truthy filter_expr) || negb (isinstance_list filter_expr));
    [now intros [= ->]|].
  destruct (py_index filter_expr 0) as [op|]; cbn [rbind]; [|discriminate].
  destruct (py_eq op (VStr "=")); [|now intros [= ->]].
  destruct (py_index filter_expr 1) as [field_path|]; cbn [rbind];
    [|discriminate].
  destruct (py_index filter_expr 2) as [expected|]; cbn [rbind];
    [|discriminate].
  destruct field_path; try (now intros [= ->]).
  destruct (startswith s "@entity."); [|now intros [= ->]].
  intros [= <-]. now rewrite filter_idempotent.
Qed.

(** X7. With a non-empty context the filter
    [["=", "@entity.<field>", expected]] makes [list] return, in storage
    order, exactly the entities whose field equals the expected value;
    an entity without the field counts as having [None] there. *)
Theorem list_filters_by_field_equality (self : InMemoryRepository.t)
    (entity_type field : string) (expected context : value) :
  no_at field ->
  truthy context = true ->
  InMemoryRepository.list self (VStr entity_type)
    (VList [VStr "="; VStr ("@entity." ++ field); expected]) context
  = Ok (filter (field_equals field expected) (all_entities self entity_type)).
Proof.
  intros A T. unfold InMemoryRepository.list. cbn [hash_key rbind truthy].
  rewrite T. cbn [andb].
  unfold InMemoryRepository._apply_filter.
  cbn [truthy negb isinstance_list orb py_index list_subscript nth_error
       rbind].
  change (py_eq (VStr "=") (VStr "=")) with true. cbv iota.
  change (startswith ("@entity." ++ field) "@entity.") with true. cbv iota.
  now rewrite replace_entity_prefix.
Qed.

Lemma list_assign_nth {A} (xs : list A) (i : nat) (d : A) :
  list_assign xs i (nth i xs d) = xs.
Proof.
  revert i; induction xs as [|x xs IH]; intros [|i]; simpl; auto.
  now rewrite IH.
Qed.

Lemma create_keeps_usable_id (self : InMemoryRepository.t)
    (entity_type : string) (d : dict) :
  truthy (dict_get_default d "id" VNone) = true ->
  InMemoryRepository.create self (VStr entity_type) (VDict d)
  = rbind (hash_key (dict_get_default d "id" VNone))
      (fun ki =>
         Ok (VDict d,
             InMemoryRepository.set_bucket self (KStr entity_type)
               (key_set (InMemoryRepository.bucket self (KStr entity_type))
                  ki d))).
Proof.
  intro T. unfold InMemoryRepository.create.
  cbn [py_get rbind py_dict_with hash_key]. rewrite T.
  assert (S : dict_set d "id" (dict_get_default d "id" VNone) = d).
  { unfold dict_set, dict_get_default, dict_get in *.
    destruct (key_get d (KStr "id")) as [v|] eqn:G; [|discriminate T].
    now apply key_set_same_value. }
  now rewrite S.
Qed.

Lemma seed_entities_creates (entities : list nat) (objects : list value)
    (self : InMemoryRepository.t) (entity_type : string) :
  Forall (fun position => has_usable_id (nth position objects VNone) = true)
    entities ->
  InMemoryRepository.seed_entities self (KStr entity_type) objects entities
  = rbind (creates self (VStr entity_type)
             (map (fun position => nth position objects VNone) entities))
      (fun self' => Ok (self', objects)).
Proof.
  intro F. revert self; induction F as [|position rest U F IH]; intro self;
    [reflexivity|].
  cbn [InMemoryRepository.seed_entities creates map].
  destruct (nth position objects VNone) as [| | | | |d| |] eqn:N;
    try discriminate U.
  cbn [has_usable_id] in U.
  rewrite (create_keeps_usable_id self entity_type d U).
  cbn [py_get rbind py_dict_with]. rewrite U.
  assert (S : dict_set d "id" (dict_get_default d "id" VNone) = d).
  { unfold dict_set, dict_get_default, dict_get in *.
    destruct (key_get d (KStr "id")) as [v|] eqn:G; [|discriminate U].
    now apply key_set_same_value. }
  rewrite S. cbn [rbind].
  destruct (hash_key (dict_get_default d "id" VNone)) as [ki|];
    cbn [rbind]; [|reflexivity].
  rewrite <- N, list_assign_nth. apply IH.
Qed.

Lemma create_in_new_bucket (self : InMemoryRepository.t)
    (entity_type : string) (d : dict) :
  key_get (InMemoryRepository._store self) (KStr entity_type) = None ->
  truthy (dict_get_default d "id" VNone) = true ->
  InMemoryRepository.create
    (InMemoryRepository.set_bucket self (KStr entity_type) [])
    (VStr entity_type) (VDict d)
  = InMemoryRepository.create self (VStr entity_type) (VDict d).
Proof.
  intros M T. rewrite !create_keeps_usable_id by exact T.
  destruct (hash_key (dict_get_default d "id" VNone)) as [ki|];
    cbn [rbind]; [|reflexivity].
  do 2 f_equal.
  unfold InMemoryRepository.set_bucket, InMemoryRepository.bucket. simpl.
  now rewrite key_get_set_same, M, key_set_set.
Qed.

(** X8. Seeding a non-empty list of dicts that all carry a usable id
    leaves the repository as calling [create] on each of them in turn
    does, leaves the dicts as they were, and fails where [create]
    fails.  (A dict without an id gets one written into it by [seed],
    whereas [create] copies: see [seed_same_dict_twice].) *)
Theorem seed_is_repeated_create (self : InMemoryRepository.t)
    (entity_type : string) (objects : list value) (first : nat)
    (rest : list nat) :
  Forall (fun position => has_usable_id (nth position objects VNone) = true)
    (first :: rest) ->
  InMemoryRepository.seed self (VStr entity_type) objects (first :: rest)
  = rbind (creates self (VStr entity_type)
             (map (fun position => nth position objects VNone)
                (first :: rest)))
      (fun self' => Ok (self', objects)).
Proof.
  intro F. unfold InMemoryRepository.seed. cbn [hash_key rbind].
  rewrite seed_entities_creates by exact F.
  destruct (key_mem (InMemoryRepository._store self) (KStr entity_type))
    eqn:M; [reflexivity|].
  apply key_mem_false in M.
  cbn [map creates]. inversion F as [|? ? U _]; subst.
  destruct (nth first objects VNone) as [| | | | |d| |];
    try discriminate U.
  now rewrite (create_in_new_bucket self entity_type d M U).
Qed.

End RepositoryFrameFacts.

Lemma create_generates_id_and_get_returns_it_witness :
  exists self' : InMemoryRepository.t,
    InMemoryRepository.create (H := bare_runtime) two_tasks (VStr "Task")
      (VDict [(KStr "name", VStr "T")])
    = Ok (VDict [(KStr "name", VStr "T"); (KStr "id", VStr "uuid-0")], self')
    /\ InMemoryRepository.get self' (VStr "Task") (VStr "uuid-0")
       = Ok (VDict [(KStr "name", VStr "T"); (KStr "id", VStr "uuid-0")]).
Proof.
  destruct (@create_generates_id_and_get_returns_it bare_runtime two_tasks
              "Task" [(KStr "name", VStr "T")] eq_refl)
    as [self' [C [G _]]].
  exists self'. split; [exact C | exact G].
Defined.

Lemma create_with_id_replaces_witness :
  exists self' : InMemoryRepository.t,
    InMemoryRepository.create (H := bare_runtime) two_tasks (VStr "Task")
      (VDict [(KStr "id", VStr "t1"); (KStr "name", VStr "N")])
    = Ok (VDict [(KStr "id", VStr "t1"); (KStr "name", VStr "N")], self')
    /\ InMemoryRepository.get self' (VStr "Task") (VStr "t1")
       = Ok (VDict [(KStr "id", VStr "t1"); (KStr "name", VStr "N")]).
Proof.
  destruct (@create_with_id_replaces bare_runtime two_tasks "Task" "t1"
              [(KStr "id", VStr "t1"); (KStr "name", VStr "N")] eq_refl)
    as [self' [C [G _]]].
  - discriminate.
  - exists self'. split; [exact C | exact G].
Defined.

Lemma update_existing_merges_witness :
  exists (merged : dict) (self' : InMemoryRepository.t),
    InMemoryRepository.update two_tasks (VStr "Task") (VStr "t1")
      (VDict [(KStr "status", VStr "done")]) = Ok (VDict merged, self')
    /\ key_get merged (KStr "status") = Some (VStr "done")
    /\ key_get merged (KStr "id") = Some (VStr "t1").
Proof.
  destruct (update_existing_merges two_tasks "Task" "t1"
              [(KStr "id", VStr "t1"); (KStr "status", VStr "pending")]
              [(KStr "status", VStr "done")] eq_refl)
    as [merged [self' [U [_ [P A]]]]].
  - repeat constructor; simpl; tauto.
  - exists merged, self'. split; [exact U|]. split.
    + apply P. reflexivity.
    + rewrite A; reflexivity.
Defined.

Lemma storage_writes_leave_other_entities_witness :
  match InMemoryRepository.update two_tasks
          (VStr "Task") (VStr "t9") (VDict [(KStr "status", VStr "new")]) with
  | Ok (_, self') =>
      InMemoryRepository.get self' (VStr "Task") (VStr "t2")
      = Ok (VDict [(KStr "id", VStr "t2"); (KStr "status", VStr "completed")])
  | Raise _ => False
  end
  /\ match InMemoryRepository.delete two_tasks (VStr "Task") (VStr "t1") with
     | Ok (_, self') =>
         InMemoryRepository.get self' (VStr "Task") (VStr "t2")
         = Ok (VDict [(KStr "id", VStr "t2");
                      (KStr "status", VStr "completed")])
     | Raise _ => False
     end.
Proof.
  split.
  - assert (N : ("Task", "t2") <> ("Task", "t9")) by (intros [= E]).
    pose proof (proj1
      (@storage_writes_leave_other_entities bare_runtime two_tasks "Task"
         "t9" "Task" "t2" (VDict [(KStr "status", VStr "new")]) N)) as U.
    destruct (InMemoryRepository.update two_tasks
                (VStr "Task") (VStr "t9")
                (VDict [(KStr "status", VStr "new")]))
      as [[entity self']|e] eqn:E.
    + exact (U entity self' eq_refl eq_refl).
    + discriminate E.
  - assert (N : ("Task", "t2") <> ("Task", "t1")) by (intros [= E]).
    pose proof (proj1 (proj2
      (@storage_writes_leave_other_entities bare_runtime two_tasks "Task"
         "t1" "Task" "t2" VNone N))) as D.
    destruct (InMemoryRepository.delete two_tasks (VStr "Task") (VStr "t1"))
      as [[deleted self']|e] eqn:E.
    + exact (D deleted self' eq_refl).
    + discriminate E.
Defined.

Lemma list_keeps_insertion_order_witness :
  exists (entity : dict) (self' : InMemoryRepository.t),
    InMemoryRepository.create (H := bare_runtime) two_tasks (VStr "Task")
      (VDict [(KStr "id", VStr "t9")]) = Ok (VDict entity, self')
    /\ InMemoryRepository.list self' (VStr "Task") VNone VNone
       = Ok (all_entities two_tasks "Task" ++ [entity]).
Proof.
  destruct (@list_keeps_insertion_order bare_runtime two_tasks "Task" "t9"
              [(KStr "id", VStr "t9")] eq_refl)
    as [entity [self' [C [L _]]]].
  - discriminate.
  - exists entity, self'. split; [exact C|]. apply L. reflexivity.
Defined.

Lemma apply_filter_idempotent_witness :
  InMemoryRepository._apply_filter
    [[(KStr "id", VStr "t1"); (KStr "status", VStr "pending")]]
    (VList [VStr "="; VStr "@entity.status"; VStr "pending"]) VNone
  = Ok [[(KStr "id", VStr "t1"); (KStr "status", VStr "pending")]].
Proof.
  apply (apply_filter_idempotent (all_entities two_tasks "Task")).
  reflexivity.
Defined.

Lemma list_filters_by_field_equality_witness :
  InMemoryRepository.list two_tasks (VStr "Task")
    (VList [VStr "="; VStr "@entity.status"; VStr "completed"])
    (VDict [(KStr "dummy", VBool true)])
  = Ok (filter (field_equals "status" (VStr "completed"))
          (all_entities two_tasks "Task")).
Proof.
  apply (list_filters_by_field_equality two_tasks "Task" "status").
  - simpl. repeat split; discriminate.
  - reflexivity.
Defined.

Lemma seed_is_repeated_create_witness :
  InMemoryRepository.seed (H := bare_runtime) InMemoryRepository.init
    (VStr "Task")
    [VDict [(KStr "id", VStr "t1"); (KStr "status", VStr "pending")];
     VDict [(KStr "id", VStr "t2"); (KStr "status", VStr "completed")]]
    [0; 1; 0]
  = Ok (two_tasks,
        [VDict [(KStr "id", VStr "t1"); (KStr "status", VStr "pending")];
         VDict [(KStr "id", VStr "t2"); (KStr "status", VStr "completed")]]).
Proof.
  rewrite (@seed_is_repeated_create bare_runtime InMemoryRepository.init
             "Task"
             [VDict [(KStr "id", VStr "t1"); (KStr "status", VStr "pending")];
              VDict [(KStr "id", VStr "t2");
                     (KStr "status", VStr "completed")]]
             0 [1; 0]).
  - reflexivity.
  - repeat constructor.
Defined.

(** Without ids the two part: [seed] writes the id it draws into the
    caller's dict, so the same dict listed twice is stored once, under
    one uuid, where two calls of [create] store two entities. *)
Example seed_same_dict_twice :
  InMemoryRepository.seed (H := bare_runtime) InMemoryRepository.init
    (VStr "Task") [VDict [(KStr "name", VStr "a")]] [0; 0]
  = Ok ({| InMemoryRepository._store :=
             [(KStr "Task",
               [(KStr "uuid-0",
                 [(KStr "name", VStr "a"); (KStr "id", VStr "uuid-0")])])];
           InMemoryRepository.uuid_draws := 1 |},
        [VDict [(KStr "name", VStr "a"); (KStr "id", VStr "uuid-0")]])
  /\ creates (H := bare_runtime) InMemoryRepository.init (VStr "Task")
       [VDict [(KStr "name", VStr "a")]; VDict [(KStr "name", VStr "a")]]
     = Ok {| InMemoryRepository._store :=
               [(KStr "Task",
                 [(KStr "uuid-0",
                   [(KStr "name", VStr "a"); (KStr "id", VStr "uuid-0")]);
                  (KStr "uuid-1",
                   [(KStr "name", VStr "a"); (KStr "id", VStr "uuid-1")])])];
             InMemoryRepository.uuid_draws := 2 |}.
Proof. split; reflexivity. Qed.

(** ** Effect executor, continued *)

(** Case analysis along the binds of a computation that returned. *)
Ltac returned H :=
  repeat
    (cbn [rbind] in H;
     match type of H with
     | rbind ?m _ = Ok _ =>
         let E := fresh "E" in destruct m eqn:E; [|discriminate H]
     | (if ?b then _ else _) = Ok _ =>
         let E := fresh "E" in destruct b eqn:E
     end).

Section ExecutorBookkeeping.
Context `{Runtime}.

Lemma fetch_bookkeeping (self self' : EffectExecutor.t) (effect : list value)
    (context context' : dict) (v : value) :
  EffectExecutor._execute_fetch self effect context = Ok (v, self', context') ->
  context' = context
  /\ EffectExecutor.repository self' = EffectExecutor.repository self
  /\ EffectExecutor.client_effects self' = EffectExecutor.client_effects self
  /\ EffectExecutor.effect_results self' = EffectExecutor.effect_results self.
Proof.
  unfold EffectExecutor._execute_fetch. intro R. returned R;
    injection R as _ <- <-; auto.
Qed.

Lemma persist_bookkeeping (self self' : EffectExecutor.t)
    (effect : list value) (context context' : dict) (v : value) :
  EffectExecutor._execute_persist self effect context
  = Ok (v, self', context') ->
  context' = context
  /\ EffectExecutor.data self' = EffectExecutor.data self
  /\ EffectExecutor.client_effects self' = EffectExecutor.client_effects self
  /\ exists entry,
       EffectExecutor.effect_results self'
       = EffectExecutor.effect_results self ++ [entry]
       /\ dict_get_default
            (match entry with VDict d => d | _ => [] end) "success" VNone
          = VBool (negb (is_none v)).
Proof.
  unfold EffectExecutor._execute_persist. intro R. returned R.
  injection R as <- <- <-. simpl. repeat split; eauto.
Qed.

Lemma call_service_bookkeeping (self self' : EffectExecutor.t)
    (effect : list value) (context context' : dict) (v : value) :
  EffectExecutor._execute_call_service self effect context
  = Ok (v, self', context') ->
  context' = context
  /\ EffectExecutor.repository self' = EffectExecutor.repository self
  /\ EffectExecutor.data self' = EffectExecutor.data self
  /\ EffectExecutor.client_effects self' = EffectExecutor.client_effects self
  /\ exists entry,
       EffectExecutor.effect_results self'
       = EffectExecutor.effect_results self ++ [entry].
Proof.
  unfold EffectExecutor._execute_call_service. intro R. returned R.
  injection R as _ <- <-. simpl. repeat split; eauto.
Qed.

Lemma set_bookkeeping (self self' : EffectExecutor.t)
    (effect : list value) (context context' : dict) (v : value) :
  EffectExecutor._execute_set self effect context = Ok (v, self', context') ->
  EffectExecutor.repository self' = EffectExecutor.repository self
  /\ EffectExecutor.data self' = EffectExecutor.data self
  /\ EffectExecutor.client_effects self' = EffectExecutor.client_effects self
  /\ exists entry,
       EffectExecutor.effect_results self'
       = EffectExecutor.effect_results self ++ [entry].
Proof.
  unfold EffectExecutor._execute_set. intro R. returned R.
  injection R as _ <- _. simpl. repeat split; eauto.
Qed.

Lemma pytorch_bookkeeping (self self' : EffectExecutor.t)
    (effect : list value) (context context' : dict) (v : value) :
  EffectExecutor._execute_pytorch self effect context
  = Ok (v, self', context') ->
  self' = self /\ context' = context.
Proof.
  unfold EffectExecutor._execute_pytorch. intro R. returned R;
    injection R as _ <- <-; auto.
Qed.

End ExecutorBookkeeping.

Lemma py_eq_str_true (v : value) (s : string) :
  py_eq v (VStr s) = true -> v = VStr s.
Proof.
  destruct v; simpl; try discriminate.
  intro E. apply String.eqb_eq in E. now subst.
Qed.

Lemma py_eq_str_sym (s : string) (v : value) :
  py_eq (VStr s) v = py_eq v (VStr s).
Proof. destruct v; simpl; auto using String.eqb_sym. Qed.

Section ExecutorFrame.
Context `{Runtime}.

Lemma execute_bookkeeping (self self' : EffectExecutor.t)
    (effect : list value) (context context' : dict) (v : value) :
  EffectExecutor.execute self effect context = Ok (v, self', context') ->
  (tag_is effect "set" = false -> context' = context)
  /\ (tag_is effect "persist" = false ->
      EffectExecutor.repository self' = EffectExecutor.repository self)
  /\ (tag_is effect "fetch" = false ->
      EffectExecutor.data self' = EffectExecutor.data self)
  /\ EffectExecutor.client_effects self'
     = EffectExecutor.client_effects self
       ++ (if is_client_effect effect then [VList effect] else [])
  /\ exists new,
       EffectExecutor.effect_results self'
       = EffectExecutor.effect_results self ++ new
       /\ List.length new = if audited effect then 1 else 0.
Proof.
  unfold EffectExecutor.execute. destruct effect as [|effect_type rest].
  { intros [= _ <- <-]. simpl. rewrite app_nil_r. repeat split; auto.
    exists []. now rewrite app_nil_r. }
  cbn [truthy negb list_subscript nth_error rbind existsb].
  rewrite !py_eq_str_sym.
  unfold audited, is_client_effect, client_tags. cbn [existsb tag_is].
  destruct (py_eq effect_type (VStr "fetch")) eqn:T1.
  { apply py_eq_str_true in T1; subst effect_type. intro R.
    apply fetch_bookkeeping in R as (-> & Rr & Rc & Re). simpl.
    rewrite app_nil_r. repeat split; auto; try discriminate.
    exists []. now rewrite app_nil_r. }
  destruct (py_eq effect_type (VStr "persist")) eqn:T2.
  { apply py_eq_str_true in T2; subst effect_type. intro R.
    apply persist_bookkeeping in R as (-> & Rd & Rc & entry & Re & _). simpl.
    rewrite app_nil_r. repeat split; auto; try discriminate.
    exists [entry]. auto. }
  destruct (py_eq effect_type (VStr "call_service")) eqn:T3.
  { apply py_eq_str_true in T3; subst effect_type. intro R.
    apply call_service_bookkeeping in R as (-> & Rr & Rd & Rc & entry & Re).
    simpl. rewrite app_nil_r. repeat split; auto; try discriminate.
    exists [entry]. auto. }
  destruct (py_eq effect_type (VStr "set")) eqn:T4.
  { apply py_eq_str_true in T4; subst effect_type. intro R.
    apply set_bookkeeping in R as (Rr & Rd & Rc & entry & Re). simpl.
    rewrite app_nil_r. repeat split; auto; try discriminate.
    exists [entry]. auto. }
  destruct (py_eq effect_type (VStr "render_ui")) eqn:T5;
    [|destruct (py_eq effect_type (VStr "render-ui")) eqn:T6;
      [|destruct (py_eq effect_type (VStr "navigate")) eqn:T7;
        [|destruct (py_eq effect_type (VStr "notify")) eqn:T8;
          [|destruct (py_eq effect_type (VStr "emit")) eqn:T9]]]];
    cbn [orb];
    try (intros [= _ <- <-]; simpl; repeat split; auto;
         exists []; now rewrite app_nil_r).
  intro R. returned R;
    try (apply pytorch_bookkeeping in R as [-> ->]);
    try (injection R as _ <- <-);
    simpl; rewrite app_nil_r; repeat split; auto;
    exists []; now rewrite app_nil_r.
Qed.

Lemma execute_client_effect (self : EffectExecutor.t) (effect : list value)
    (context : dict) :
  is_client_effect effect = true ->
  EffectExecutor.execute self effect context
  = Ok (VNone, EffectExecutor.append_client_effect self (VList effect),
        context).
Proof.
  unfold is_client_effect, client_tags. cbn [existsb].
  destruct effect as [|effect_type rest]; [discriminate|]. cbn [tag_is].
  intro C. rewrite orb_false_r in C.
  assert (S : exists tag, effect_type = VStr tag /\ In tag client_tags).
  { unfold client_tags.
    repeat (apply orb_true_iff in C as [C|C];
            [apply py_eq_str_true in C; eexists; split;
             [exact C | simpl; tauto]|]).
    apply py_eq_str_true in C. eexists. split; [exact C | simpl; tauto]. }
  destruct S as [tag [-> I]]. simpl in I.
  repeat (destruct I as [<-|I]; [reflexivity|]). contradiction.
Qed.

(** X10. The audit trail and the client effects grow by what the tag
    says: an effect that returns leaves exactly one more audit entry
    when it is a [persist], [call_service] or [set] and the same number
    otherwise; one with a client tag is appended verbatim to the client
    effects, the audit trail staying as it was, and any other leaves
    the number of client effects as it was.  (Only the number of
    entries is stated where an effect writes into a stored or context
    dict in place, which an earlier entry may hold.) *)
Theorem execute_appends_by_tag (self self' : EffectExecutor.t)
    (effect : list value) (context context' : dict) (v : value) :
  EffectExecutor.execute self effect context = Ok (v, self', context') ->
  List.length (EffectExecutor.effect_results self')
  = List.length (EffectExecutor.effect_results self)
    + (if audited effect then 1 else 0)
  /\ List.length (EffectExecutor.client_effects self')
     = List.length (EffectExecutor.client_effects self)
       + (if is_client_effect effect then 1 else 0)
  /\ (is_client_effect effect = true ->
      EffectExecutor.client_effects self'
      = EffectExecutor.client_effects self ++ [VList effect]
      /\ EffectExecutor.effect_results self'
         = EffectExecutor.effect_results self
      /\ context' = context).
Proof.
  intro R. pose proof R as R'.
  apply execute_bookkeeping in R as (_ & _ & _ & C & new & E & L).
  split; [|split].
  - rewrite E, length_app, L. reflexivity.
  - rewrite C, length_app. now destruct (is_client_effect effect).
  - intro I. rewrite I in C. split; [exact C|].
    rewrite (execute_client_effect self effect context I) in R'.
    injection R' as _ <- <-. split; reflexivity.
Qed.

End ExecutorFrame.

Section ExecutorFlows.
Context `{Runtime}.

(** X11. Client effects are collected in request order: executing a
    list of client effects never raises, returns null for each,
    appends them to [client_effects] in the order given, and records
    nothing in the audit trail. *)
Theorem execute_all_collects_client_effects (effects : list (list value))
    (self : EffectExecutor.t) (context : dict) :
  Forall (fun effect => is_client_effect effect = true) effects ->
  exists self' : EffectExecutor.t,
    execute_all self effects context
    = Ok (map (fun _ => VNone) effects, self', context)
    /\ EffectExecutor.client_effects self'
       = EffectExecutor.client_effects self ++ map VList effects
    /\ EffectExecutor.effect_results self' = EffectExecutor.effect_results self
    /\ EffectExecutor.repository self' = EffectExecutor.repository self
    /\ EffectExecutor.data self' = EffectExecutor.data self.
Proof.
  intro F. revert self.
  induction F as [|effect effects C F IH]; intro self; simpl.
  - exists self. rewrite app_nil_r. auto.
  - rewrite (execute_client_effect self effect context C).
    destruct (IH (EffectExecutor.append_client_effect self (VList effect)))
      as (self' & E & Ec & Er & Ep & Ed).
    exists self'. rewrite E. simpl in Ec. rewrite <- app_assoc in Ec.
    auto.
Qed.

(** X12. Create, then fetch: a [persist] [create] with a dict that has
    no usable id stores the dict as it is (strings inside it are not
    resolved as bindings) under a fresh uuid, records one successful
    audit entry, and a [fetch] by that id then returns the same entity
    and keeps it under the entity type in [data]. *)
Theorem persist_create_then_fetch (self : EffectExecutor.t)
    (entity_type : string) (d context : dict) :
  truthy (dict_get_default d "id" VNone) = false ->
  let entity_id :=
    uuid4 (InMemoryRepository.uuid_draws (EffectExecutor.repository self)) in
  let entity := VDict (dict_set d "id" (VStr entity_id)) in
  startswith entity_id "@" = false ->
  exists self1 self2 : EffectExecutor.t,
    EffectExecutor.execute self
      [VStr "persist"; VStr "create"; VStr entity_type; VDict d] context
    = Ok (entity, self1, context)
    /\ EffectExecutor.effect_results self1
       = EffectExecutor.effect_results self
         ++ [EffectExecutor.persist_entry (VStr "create") (VStr entity_type)
               entity]
    /\ EffectExecutor.execute self1
         [VStr "fetch"; VStr entity_type;
          VDict [(KStr "id", VStr entity_id)]] context
       = Ok (entity, self2, context)
    /\ key_get (EffectExecutor.data self2) (KStr entity_type) = Some entity
    /\ EffectExecutor.effect_results self2
       = EffectExecutor.effect_results self1.
Proof.
  intros F entity_id entity A.
  destruct (create_without_id
              (EffectExecutor.repository self) entity_type d F)
    as (repo' & C & G & _).
  fold entity_id in C, G. fold entity in C, G.
  assert (E1 : EffectExecutor.execute self
                 [VStr "persist"; VStr "create"; VStr entity_type; VDict d]
                 context
               = Ok (entity,
                     EffectExecutor.append_effect_result
                       (EffectExecutor.set_repository self repo')
                       (EffectExecutor.persist_entry (VStr "create")
                          (VStr entity_type) entity),
                     context)).
  { unfold EffectExecutor.execute.
    cbn [truthy negb list_subscript nth_error rbind].
    change (py_eq (VStr "persist") (VStr "fetch")) with false.
    change (py_eq (VStr "persist") (VStr "persist")) with true. cbv iota.
    unfold EffectExecutor._execute_persist.
    cbn [list_subscript nth_error rbind List.length Nat.ltb Nat.leb
         Bindings.resolve_binding].
    change (py_eq (VStr "create") (VStr "create")) with true. cbv iota.
    rewrite C. reflexivity. }
  eexists. eexists. split; [exact E1|]. split; [reflexivity|].
  unfold EffectExecutor.execute.
  cbn [truthy negb list_subscript nth_error rbind].
  change (py_eq (VStr "fetch") (VStr "fetch")) with true. cbv iota.
  unfold EffectExecutor._execute_fetch, EffectExecutor.optional_arg.
  cbn [list_subscript nth_error rbind List.length Nat.ltb Nat.leb
       py_contains hash_key].
  change (key_mem [(KStr "id", VStr entity_id)] (KStr "id")) with true.
  cbv iota.
  change (py_subscript_str (VDict [(KStr "id", VStr entity_id)]) "id")
    with (Ok (VStr entity_id)).
  cbn [rbind]. unfold Bindings.resolve_binding. rewrite A.
  cbn [negb rbind]. cbn [EffectExecutor.repository
                         EffectExecutor.append_effect_result
                         EffectExecutor.set_repository].
  rewrite G. cbn [rbind hash_key].
  unfold EffectExecutor.set_data. cbn [EffectExecutor.data].
  rewrite key_get_set_same. split; [reflexivity|].
  split; [apply key_get_set_same | reflexivity].
Qed.

(** X13. A [persist] that has nothing to act on makes no storage call:
    an [update] with no id in the context or in the data, a [delete]
    with no id in the context, and an action other than create, update
    and delete all return null, leave the repository, the fetched data
    and the client effects as they are, and leave an audit trail that
    is the former one followed by one entry with null data and
    [success = false]. *)
Theorem persist_without_target_is_recorded_failure (self : EffectExecutor.t)
    (tag action entity_type data : value) (more : list value)
    (context : dict) :
  optional_data more context = Ok data ->
  (py_eq action (VStr "update") = true
   /\ truthy (dict_get_default context "entityId" VNone) = false
   /\ truthy (match data with
              | VDict d => dict_get_default d "id" VNone
              | _ => VNone
              end) = false)
  \/ (py_eq action (VStr "delete") = true
      /\ truthy (dict_get_default context "entityId" VNone) = false)
  \/ (py_eq action (VStr "create") = false
      /\ py_eq action (VStr "update") = false
      /\ py_eq action (VStr "delete") = false) ->
  exists self' : EffectExecutor.t,
    EffectExecutor._execute_persist self
      (tag :: action :: entity_type :: more) context
    = Ok (VNone, self', context)
    /\ EffectExecutor.effect_results self'
       = EffectExecutor.effect_results self
         ++ [VDict [(KStr "effect", VStr "persist");
                    (KStr "action", action);
                    (KStr "entityType", entity_type);
                    (KStr "data", VNone);
                    (KStr "success", VBool false)]]
    /\ EffectExecutor.repository self' = EffectExecutor.repository self
    /\ EffectExecutor.data self' = EffectExecutor.data self
    /\ EffectExecutor.client_effects self'
       = EffectExecutor.client_effects self.
Proof.
  intros D Cases.
  exists (EffectExecutor.append_effect_result self
            (VDict [(KStr "effect", VStr "persist");
                    (KStr "action", action);
                    (KStr "entityType", entity_type);
                    (KStr "data", VNone);
                    (KStr "success", VBool false)])).
  split; [|repeat split].
  unfold EffectExecutor._execute_persist.
  cbn [list_subscript nth_error rbind].
  assert (X : (if Nat.ltb 3 (List.length (tag :: action :: entity_type :: more))
               then rbind (list_subscript
                             (tag :: action :: entity_type :: more) 3)
                      (fun raw => Bindings.resolve_binding raw context)
               else Ok (VDict [])) = Ok data).
  { destruct more; simpl; auto. }
  rewrite X. cbn [rbind].
  destruct Cases as [(U & Tc & Td) | [(Dl & Tc) | (Nc & Nu & Nd)]].
  - apply py_eq_str_true in U; subst action.
    change (py_eq (VStr "update") (VStr "create")) with false.
    change (py_eq (VStr "update") (VStr "update")) with true. cbv iota.
    unfold py_or. rewrite Tc, Td. cbn [rbind fst snd].
    now rewrite executor_eta.
  - apply py_eq_str_true in Dl; subst action.
    change (py_eq (VStr "delete") (VStr "create")) with false.
    change (py_eq (VStr "delete") (VStr "update")) with false.
    change (py_eq (VStr "delete") (VStr "delete")) with true. cbv iota.
    rewrite Tc. cbn [rbind fst snd]. now rewrite executor_eta.
  - rewrite Nc, Nu, Nd. cbn [rbind fst snd]. now rewrite executor_eta.
Qed.

(** X14. With an empty context a [fetch] of a collection returns every
    stored entity of the type, whatever filter the options carry: the
    repository applies a filter only when the context is non-empty. *)
Theorem fetch_with_empty_context_ignores_filter (self : EffectExecutor.t)
    (tag : value) (entity_type : string) (options : dict) :
  dict_mem options "id" = false ->
  let everything :=
    VList (map VDict (all_entities (EffectExecutor.repository self)
                        entity_type)) in
  EffectExecutor._execute_fetch self [tag; VStr entity_type; VDict options] []
  = Ok (everything,
        EffectExecutor.set_data self (KStr entity_type) everything, []).
Proof.
  intros M everything. unfold EffectExecutor._execute_fetch,
    EffectExecutor.optional_arg.
  cbn [list_subscript nth_error rbind List.length Nat.ltb Nat.leb
       py_contains hash_key].
  unfold dict_mem in M. rewrite M. cbn [py_get rbind].
  unfold InMemoryRepository.list. cbn [hash_key rbind truthy].
  rewrite andb_false_r. cbn [rbind].
  unfold EffectExecutor.set_data. cbn [EffectExecutor.data].
  now rewrite key_get_set_same.
Qed.

End ExecutorFlows.

Section SetFacts.
Context `{Runtime}.

Lemma navigate_reaches_dict (start : value) (segs : list string) :
  reaches_dict start segs ->
  exists d, EffectExecutor.navigate start segs = VDict d.
Proof.
  revert start; induction segs as [|seg segs IH]; intros start R.
  - destruct start; try contradiction. simpl. eauto.
  - destruct start; try contradiction. simpl in *.
    unfold dict_get_default.
    destruct (dict_get d seg); [now apply IH | contradiction].
Qed.

Lemma walk_after_write_back (start : value) (segs : list string)
    (d : dict) (final : string) (val : value) :
  reaches_dict start segs ->
  walk_segments
    (EffectExecutor.write_back start segs (VDict (dict_set d final val)))
    (segs ++ [final])
  = val.
Proof.
  revert start; induction segs as [|seg segs IH]; intros start R.
  - simpl. unfold dict_get, dict_set. now rewrite key_get_set_same.
  - destruct start; try contradiction. simpl in R.
    destruct (dict_get d0 seg) as [child|] eqn:G; [|contradiction].
    cbn [EffectExecutor.write_back]. rewrite G.
    change ((seg :: segs) ++ [final]) with (seg :: (segs ++ [final])).
    cbn [walk_segments lookup_step]. unfold dict_get, dict_set.
    rewrite key_get_set_same. now apply IH.
Qed.

Lemma navigate_from_empty (segs : list string) :
  EffectExecutor.navigate (VDict []) segs = VDict [].
Proof. induction segs; simpl; auto. Qed.

Lemma set_target_path (val : value) (root final : string)
    (segs : list string) (context : dict) (start : value) :
  Forall dotless (root :: segs ++ [final]) ->
  dict_get context root = Some start ->
  EffectExecutor.set_target
    (VStr ("@" ++ join_dot (root :: segs ++ [final]))) val context
  = rbind (EffectExecutor.assign_field
             (EffectExecutor.navigate start segs) final val)
      (fun obj' =>
         Ok (dict_set context root
               (EffectExecutor.write_back start segs obj'))).
Proof.
  intros F G. unfold EffectExecutor.set_target.
  change (startswith ("@" ++ join_dot (root :: segs ++ [final])) "@")
    with true. cbv iota.
  change (drop_first ("@" ++ join_dot (root :: segs ++ [final])))
    with (join_dot (root :: segs ++ [final])).
  rewrite split_join_dot by exact F.
  cbn [list_subscript nth_error rbind tl].
  unfold dict_mem, key_mem, assoc_mem, dict_subscript.
  unfold dict_get, key_get in G. unfold dict_get, key_get. rewrite G.
  assert (L : Nat.ltb 1 (List.length (root :: segs ++ [final])) = true).
  { apply Nat.ltb_lt. simpl. rewrite length_app. simpl. lia. }
  rewrite L. cbn [andb rbind].
  unfold EffectExecutor.but_last. rewrite removelast_last.
  unfold EffectExecutor.last_item. rewrite last_last. reflexivity.
Qed.

(** X15. Set, then resolve: when the target path leads through
    existing keys from dict to dict, a [set] effect returns and writes
    its value into the context, so that resolving the target binding
    against the context afterwards gives the value the effect returned.
    That value is the one its argument resolved to beforehand whenever
    that is a value no assignment can change (a dict that holds the
    dict assigned into is changed by the assignment itself).  The audit
    trail is one entry longer and ends with the success entry for the
    target and the value. *)
Theorem set_then_resolve_returns_value (self : EffectExecutor.t)
    (tag raw : value) (root final : string) (segs : list string)
    (context : dict) (start : value) :
  Forall dotless (root :: segs ++ [final]) ->
  dict_get context root = Some start ->
  reaches_dict start segs ->
  let target := VStr ("@" ++ join_dot (root :: segs ++ [final])) in
  exists (val : value) (self' : EffectExecutor.t) (context' : dict)
         (earlier : list value),
    EffectExecutor._execute_set self [tag; target; raw] context
    = Ok (val, self', context')
    /\ Bindings.resolve_binding target context' = Ok val
    /\ EffectExecutor.effect_results self'
       = earlier
         ++ [VDict [(KStr "effect", VStr "set"); (KStr "target", target);
                    (KStr "value", val); (KStr "success", VBool true)]]
    /\ List.length earlier = List.length (EffectExecutor.effect_results self)
    /\ (forall v : value,
        Bindings.resolve_binding raw context = Ok v ->
        immutable v = true -> val = v).
Proof.
  intros F G R target.
  destruct (resolve_binding_total raw context) as [val V].
  destruct (navigate_reaches_dict start segs R) as [d N].
  exists val,
    (EffectExecutor.append_effect_result self
       (EffectExecutor.set_entry target val)),
    (dict_set context root
       (EffectExecutor.write_back start segs
          (VDict (dict_set d final val)))),
    (EffectExecutor.effect_results self).
  split; [|split; [|repeat split]].
  - unfold EffectExecutor._execute_set.
    cbn [list_subscript nth_error rbind List.length Nat.ltb Nat.leb].
    rewrite V. cbn [rbind]. unfold target.
    rewrite (set_target_path val root final segs context start F G), N.
    reflexivity.
  - unfold target. rewrite resolve_binding_segments by exact F.
    unfold resolve_spec. unfold dict_get at 1. unfold dict_set at 1.
    rewrite key_get_set_same. f_equal.
    now apply walk_after_write_back.
  - congruence.
Qed.

(** X16. A [set] whose path goes through a key that the context does
    not have is lost: the value is assigned into a throw-away empty
    dict, the context stays exactly as it was, and the effect is still
    recorded as a success: the audit trail is the former one followed
    by one entry for the target and the value with [success = true]. *)
Theorem set_through_missing_key_is_lost (self : EffectExecutor.t)
    (tag raw val : value) (root seg final : string) (segs : list string)
    (context d : dict) :
  Forall dotless (root :: (seg :: segs) ++ [final]) ->
  dict_get context root = Some (VDict d) ->
  dict_get d seg = None ->
  Bindings.resolve_binding raw context = Ok val ->
  let target := VStr ("@" ++ join_dot (root :: (seg :: segs) ++ [final])) in
  exists self' : EffectExecutor.t,
    EffectExecutor._execute_set self [tag; target; raw] context
    = Ok (val, self', context)
    /\ EffectExecutor.effect_results self'
       = EffectExecutor.effect_results self
         ++ [VDict [(KStr "effect", VStr "set"); (KStr "target", target);
                    (KStr "value", val); (KStr "success", VBool true)]]
    /\ EffectExecutor.repository self' = EffectExecutor.repository self
    /\ EffectExecutor.data self' = EffectExecutor.data self
    /\ EffectExecutor.client_effects self'
       = EffectExecutor.client_effects self.
Proof.
  intros F G M V target.
  exists (EffectExecutor.append_effect_result self
            (EffectExecutor.set_entry target val)).
  split; [|repeat split].
  unfold EffectExecutor._execute_set.
  cbn [list_subscript nth_error rbind List.length Nat.ltb Nat.leb].
  rewrite V. cbn [rbind]. unfold target.
  rewrite (set_target_path val root final (seg :: segs) context (VDict d) F G).
  cbn [EffectExecutor.navigate EffectExecutor.write_back].
  unfold dict_get_default. rewrite M, navigate_from_empty.
  cbn [EffectExecutor.assign_field rbind].
  unfold dict_set.
  now rewrite (key_set_same_value context (KStr root) (VDict d) G).
Qed.

Lemma set_target_one_root (target val : value) (context context' : dict) :
  EffectExecutor.set_target target val context = Ok context' ->
  context' = context
  \/ exists (s : string) (obj : value),
       target = VStr s
       /\ dict_mem context (target_root s) = true
       /\ context' = dict_set context (target_root s) obj.
Proof.
  unfold EffectExecutor.set_target, target_root.
  destruct target; try (intros [= <-]; auto; fail).
  destruct (startswith s "@"); [|intros [= <-]; auto].
  destruct (split_dot_cons (drop_first s)) as [root [rest E]]. rewrite E.
  cbn [list_subscript nth_error rbind hd].
  destruct (dict_mem context root) eqn:M; cbn [andb];
    [|intros [= <-]; auto].
  destruct (Nat.ltb 1 (List.length (root :: rest))); [|intros [= <-]; auto].
  intro R. returned R. injection R as <-. right.
  exists s. eexists. rewrite E. cbn [hd]. repeat split. exact M.
Qed.

Lemma execute_set_keeps_roots (self self' : EffectExecutor.t)
    (effect : list value) (v : value) (context context' : dict) :
  EffectExecutor._execute_set self effect context = Ok (v, self', context') ->
  map fst context' = map fst context.
Proof.
  unfold EffectExecutor._execute_set. intro R. returned R;
    injection R as _ _ <-;
    match goal with
    | S : EffectExecutor.set_target _ _ _ = Ok _ |- _ =>
        apply set_target_one_root in S as [-> | (s & obj & -> & M & ->)]
    end; auto; now apply keys_set_present.
Qed.

(** X17. A [set] effect never adds or removes a root of the context:
    whatever its target, the context has the same keys, in the same
    order, afterwards (a target whose root is missing does not create
    it). *)
Theorem set_never_adds_or_removes_a_root (self self' : EffectExecutor.t)
    (tag target raw v : value) (context context' : dict) :
  EffectExecutor._execute_set self [tag; target; raw] context
  = Ok (v, self', context') ->
  map fst context' = map fst context.
Proof. apply execute_set_keeps_roots. Qed.

(** X9. Each kind of effect writes to its own part of the state only,
    as far as keys go: no effect adds or removes a root of the
    context; an effect other than [persist] leaves the entity types,
    the ids stored under each of them and the number of uuids drawn as
    they were; an effect other than [fetch] leaves the keys of the
    fetched data as they were.  (What is under a key can be a dict
    that a [set] or a [persist] [update] writes into, so nothing is
    said about it here.) *)
Theorem execute_writes_only_its_own_state (self self' : EffectExecutor.t)
    (effect : list value) (context context' : dict) (v : value) :
  EffectExecutor.execute self effect context = Ok (v, self', context') ->
  map fst context' = map fst context
  /\ (tag_is effect "persist" = false ->
      map fst (InMemoryRepository._store (EffectExecutor.repository self'))
      = map fst (InMemoryRepository._store (EffectExecutor.repository self))
      /\ (forall kt : key,
            map fst (InMemoryRepository.bucket
                       (EffectExecutor.repository self') kt)
            = map fst (InMemoryRepository.bucket
                         (EffectExecutor.repository self) kt))
      /\ InMemoryRepository.uuid_draws (EffectExecutor.repository self')
         = InMemoryRepository.uuid_draws (EffectExecutor.repository self))
  /\ (tag_is effect "fetch" = false ->
      map fst (EffectExecutor.data self') = map fst (EffectExecutor.data self)).
Proof.
  intro R. pose proof R as R'.
  apply execute_bookkeeping in R as (C & P & D & _).
  split; [|split].
  - destruct (tag_is effect "set") eqn:T; [|now rewrite C].
    destruct effect as [|effect_type rest]; [discriminate T|].
    cbn [tag_is] in T. apply py_eq_str_true in T. subst effect_type.
    change (EffectExecutor.execute self (VStr "set" :: rest) context)
      with (EffectExecutor._execute_set self (VStr "set" :: rest) context)
      in R'.
    exact (execute_set_keeps_roots _ _ _ _ _ _ R').
  - intro T. rewrite (P T). repeat split.
  - intro T. now rewrite (D T).
Qed.

End SetFacts.

Lemma execute_writes_only_its_own_state_witness :
  match EffectExecutor.execute (H := bare_runtime)
          (EffectExecutor.init two_tasks)
          [VStr "set"; VStr "@entity.status"; VStr "done"]
          [(KStr "entity", VDict [(KStr "status", VStr "pending")])] with
  | Ok (_, self', context') =>
      map fst context' = [KStr "entity"]
      /\ map fst (InMemoryRepository.bucket (EffectExecutor.repository self')
                    (KStr "Task"))
         = [KStr "t1"; KStr "t2"]
      /\ map fst (EffectExecutor.data self') = []
  | Raise _ => False
  end.
Proof.
  destruct (EffectExecutor.execute (H := bare_runtime)
              (EffectExecutor.init two_tasks)
              [VStr "set"; VStr "@entity.status"; VStr "done"]
              [(KStr "entity", VDict [(KStr "status", VStr "pending")])])
    as [[[v self'] context']|e] eqn:E.
  - destruct (@execute_writes_only_its_own_state bare_runtime _ _ _ _ _ _ E)
      as (C & P & D).
    split; [exact C|]. split.
    + exact (proj1 (proj2 (P eq_refl)) (KStr "Task")).
    + exact (D eq_refl).
  - discriminate E.
Defined.

Lemma execute_appends_by_tag_witness :
  match EffectExecutor.execute (H := bare_runtime) fresh_executor
          [VStr "call_service"; VStr "email"; VStr "send"] [] with
  | Ok (_, self', _) =>
      List.length (EffectExecutor.effect_results self') = 1
      /\ List.length (EffectExecutor.client_effects self') = 0
  | Raise _ => False
  end.
Proof.
  destruct (EffectExecutor.execute (H := bare_runtime) fresh_executor
              [VStr "call_service"; VStr "email"; VStr "send"] [])
    as [[[v self'] context']|e] eqn:E.
  - destruct (@execute_appends_by_tag bare_runtime _ _ _ _ _ _ E)
      as (A & C & _).
    split; [exact A | exact C].
  - discriminate E.
Defined.

Lemma execute_all_collects_client_effects_witness :
  exists self' : EffectExecutor.t,
    execute_all (H := bare_runtime) fresh_executor
      [[VStr "notify"; VDict [(KStr "m", VStr "a")]];
       [VStr "navigate"; VStr "/x"];
       [VStr "emit"; VStr "e"; VDict []]] []
    = Ok ([VNone; VNone; VNone], self', [])
    /\ EffectExecutor.client_effects self'
       = [VList [VStr "notify"; VDict [(KStr "m", VStr "a")]];
          VList [VStr "navigate"; VStr "/x"];
          VList [VStr "emit"; VStr "e"; VDict []]]
    /\ EffectExecutor.effect_results self' = [].
Proof.
  destruct (@execute_all_collects_client_effects bare_runtime
              [[VStr "notify"; VDict [(KStr "m", VStr "a")]];
               [VStr "navigate"; VStr "/x"];
               [VStr "emit"; VStr "e"; VDict []]] fresh_executor [])
    as (self' & E & C & R & _).
  - repeat constructor.
  - exists self'. split; [exact E|]. split; [exact C | exact R].
Defined.

Lemma persist_create_then_fetch_witness :
  exists self1 self2 : EffectExecutor.t,
    EffectExecutor.execute (H := bare_runtime) fresh_executor
      [VStr "persist"; VStr "create"; VStr "Task";
       VDict [(KStr "name", VStr "T")]] []
    = Ok (VDict [(KStr "name", VStr "T"); (KStr "id", VStr "uuid-0")],
          self1, [])
    /\ EffectExecutor.execute (H := bare_runtime) self1
         [VStr "fetch"; VStr "Task"; VDict [(KStr "id", VStr "uuid-0")]] []
       = Ok (VDict [(KStr "name", VStr "T"); (KStr "id", VStr "uuid-0")],
             self2, []).
Proof.
  destruct (@persist_create_then_fetch bare_runtime fresh_executor "Task"
              [(KStr "name", VStr "T")] [] eq_refl eq_refl)
    as (self1 & self2 & P & _ & F & _).
  exists self1, self2. split; [exact P | exact F].
Defined.

Lemma persist_without_target_is_recorded_failure_witness :
  exists self' : EffectExecutor.t,
    EffectExecutor._execute_persist (H := bare_runtime)
      (EffectExecutor.init two_tasks)
      [VStr "persist"; VStr "update"; VStr "Task";
       VDict [(KStr "status", VStr "done")]] []
    = Ok (VNone, self', [])
    /\ EffectExecutor.effect_results self'
       = [VDict [(KStr "effect", VStr "persist");
                 (KStr "action", VStr "update");
                 (KStr "entityType", VStr "Task");
                 (KStr "data", VNone);
                 (KStr "success", VBool false)]]
    /\ EffectExecutor.repository self' = two_tasks
    /\ EffectExecutor.data self' = []
    /\ EffectExecutor.client_effects self' = [].
Proof.
  apply (@persist_without_target_is_recorded_failure bare_runtime
           (EffectExecutor.init two_tasks) (VStr "persist") (VStr "update")
           (VStr "Task") (VDict [(KStr "status", VStr "done")])
           [VDict [(KStr "status", VStr "done")]] []).
  - reflexivity.
  - left. repeat split.
Defined.

Lemma fetch_with_empty_context_ignores_filter_witness :
  EffectExecutor._execute_fetch (H := bare_runtime)
    (EffectExecutor.init two_tasks)
    [VStr "fetch"; VStr "Task";
     VDict [(KStr "filter",
             VList [VStr "="; VStr "@entity.status"; VStr "pending"])]] []
  = Ok (VList (map VDict (all_entities two_tasks "Task")),
        EffectExecutor.set_data (EffectExecutor.init two_tasks) (KStr "Task")
          (VList (map VDict (all_entities two_tasks "Task"))),
        []).
Proof.
  apply (@fetch_with_empty_context_ignores_filter bare_runtime
           (EffectExecutor.init two_tasks) (VStr "fetch") "Task").
  reflexivity.
Defined.

Lemma set_then_resolve_returns_value_witness :
  exists (self' : EffectExecutor.t) (context' : dict),
    EffectExecutor._execute_set (H := bare_runtime) fresh_executor
      [VStr "set"; VStr "@entity.meta.status"; VStr "done"]
      [(KStr "entity", VDict [(KStr "meta", VDict [])])]
    = Ok (VStr "done", self', context')
    /\ Bindings.resolve_binding (H := bare_runtime)
         (VStr "@entity.meta.status") context' = Ok (VStr "done")
    /\ EffectExecutor.effect_results self'
       = [VDict [(KStr "effect", VStr "set");
                 (KStr "target", VStr "@entity.meta.status");
                 (KStr "value", VStr "done");
                 (KStr "success", VBool true)]].
Proof.
  destruct (@set_then_resolve_returns_value bare_runtime fresh_executor
              (VStr "set") (VStr "done") "entity" "status"
              ["meta"] [(KStr "entity", VDict [(KStr "meta", VDict [])])]
              (VDict [(KStr "meta", VDict [])]))
    as [val [self' [context' [earlier [E [R [A [L T]]]]]]]].
  - repeat constructor; simpl; intuition discriminate.
  - reflexivity.
  - exact I.
  - pose proof (T (VStr "done") eq_refl eq_refl) as V. subst val.
    destruct earlier; [|discriminate L].
    exists self', context'. split; [exact E|]. split; [exact R | exact A].
Defined.

Lemma set_through_missing_key_is_lost_witness :
  exists self' : EffectExecutor.t,
    EffectExecutor._execute_set (H := bare_runtime) fresh_executor
      [VStr "set"; VStr "@entity.meta.status"; VStr "done"]
      [(KStr "entity", VDict [(KStr "name", VStr "T")])]
    = Ok (VStr "done", self',
          [(KStr "entity", VDict [(KStr "name", VStr "T")])])
    /\ EffectExecutor.effect_results self'
       = [VDict [(KStr "effect", VStr "set");
                 (KStr "target", VStr "@entity.meta.status");
                 (KStr "value", VStr "done");
                 (KStr "success", VBool true)]]
    /\ EffectExecutor.repository self' = InMemoryRepository.init
    /\ EffectExecutor.data self' = []
    /\ EffectExecutor.client_effects self' = [].
Proof.
  apply (@set_through_missing_key_is_lost bare_runtime fresh_executor
           (VStr "set") (VStr "done") (VStr "done") "entity" "meta" "status"
           [] [(KStr "entity", VDict [(KStr "name", VStr "T")])]
           [(KStr "name", VStr "T")]).
  - repeat constructor; simpl; intuition discriminate.
  - reflexivity.
  - reflexivity.
  - reflexivity.
Defined.

Lemma set_never_adds_or_removes_a_root_witness :
  match EffectExecutor._execute_set (H := bare_runtime) fresh_executor
          [VStr "set"; VStr "@entity.status"; VStr "done"]
          [(KStr "entity", VDict []); (KStr "payload", VInt 1)] with
  | Ok (_, _, context') => map fst context' = [KStr "entity"; KStr "payload"]
  | Raise _ => False
  end
  /\ match EffectExecutor._execute_set (H := bare_runtime) fresh_executor
             [VStr "set"; VStr "@missing.status"; VStr "done"]
             [(KStr "entity", VDict [])] with
     | Ok (_, _, context') => map fst context' = [KStr "entity"]
     | Raise _ => False
     end.
Proof.
  split.
  - destruct (EffectExecutor._execute_set (H := bare_runtime) fresh_executor
                [VStr "set"; VStr "@entity.status"; VStr "done"]
                [(KStr "entity", VDict []); (KStr "payload", VInt 1)])
      as [[[v self'] context']|e] eqn:E.
    + exact (@set_never_adds_or_removes_a_root bare_runtime _ _ _ _ _ _ _ _
               E).
    + discriminate E.
  - destruct (EffectExecutor._execute_set (H := bare_runtime) fresh_executor
                [VStr "set"; VStr "@missing.status"; VStr "done"]
                [(KStr "entity", VDict [])])
      as [[[v self'] context']|e] eqn:E.
    + exact (@set_never_adds_or_removes_a_root bare_runtime _ _ _ _ _ _ _ _
               E).
    + discriminate E.
Defined.

(** ** Binding resolver, continued *)


Section DeepBindingFacts.
Context `{Runtime}.







Lemma resolve_items_spec (context : dict) (items xs : list value) :
  Bindings.resolve_items
    (fun data => Bindings.resolve_bindings_in_dict data context)
    context items = Ok xs ->
  Forall2 (item_resolved context) items xs.
Proof.
  revert xs; induction items as [|item items IH]; intros xs R;
    cbn [Bindings.resolve_items] in R.
  - injection R as <-. constructor.
  - returned R. injection R as <-. constructor; [|now apply IH].
    destruct item; cbn [Bindings.resolve_item item_resolved] in *;
      congruence.
Qed.

Lemma resolve_field_spec (context : dict) (val new : value) :
  Bindings.resolve_field
    (fun data => Bindings.resolve_bindings_in_dict data context)
    context val = Ok new ->
  field_resolved context val new.
Proof.
  intro R. destruct val; cbn [Bindings.resolve_field field_resolved] in *;
    try congruence.
  returned R. injection R as <-. eauto using resolve_items_spec.
Qed.

Lemma resolve_fields_get_other (context : dict) (fields : list (key * value))
    (res res' : dict) (k : key) :
  Bindings.resolve_fields
    (fun data => Bindings.resolve_bindings_in_dict data context)
    context fields res = Ok res' ->
  ~ In k (map fst fields) ->
  key_get res' k = key_get res k.
Proof.
  revert res; induction fields as [|[k0 v0] fields IH]; intros res R N;
    cbn [Bindings.resolve_fields map fst] in *.
  - now injection R as <-.
  - simpl in N. returned R. rewrite (IH _ R) by tauto.
    apply key_get_set_other. intuition congruence.
Qed.

Lemma resolve_fields_get (context : dict) (fields : list (key * value))
    (res res' : dict) (k : key) (val : value) :
  Bindings.resolve_fields
    (fun data => Bindings.resolve_bindings_in_dict data context)
    context fields res = Ok res' ->
  NoDup (map fst fields) ->
  key_get fields k = Some val ->
  exists new, key_get res' k = Some new /\ field_resolved context val new.
Proof.
  revert res; induction fields as [|[k0 v0] fields IH]; intros res R N G;
    cbn [Bindings.resolve_fields map fst] in *.
  - discriminate.
  - inversion N as [|? ? NI N']; subst. returned R.
    unfold key_get in G; simpl in G.
    destruct (key_eqb k0 k) eqn:K.
    + apply key_eqb_eq in K; subst k0. injection G as ->.
      eexists. split.
      * rewrite (resolve_fields_get_other _ _ _ _ _ R NI).
        apply key_get_set_same.
      * now apply resolve_field_spec.
    + now apply (IH _ R).
Qed.

(** X19. Field by field, [resolve_bindings_in_dict] replaces a string
    by what [resolve_binding] gives for it, a nested dictionary by its
    own deep resolution, a list item-wise (strings resolved,
    dictionaries resolved in depth, every other item, a list inside the
    list included, kept as it is), and keeps any other value; it adds
    no key. *)
Theorem resolve_bindings_in_dict_resolves_each_field (fields res context : dict) :
  NoDup (map fst fields) ->
  Bindings.resolve_bindings_in_dict (VDict fields) context = Ok (VDict res) ->
  (forall (k : key) (val : value),
     key_get fields k = Some val ->
     exists new, key_get res k = Some new /\ field_resolved context val new)
  /\ (forall k : key, key_get fields k = None -> key_get res k = None).
Proof.
  intros N E. cbn [Bindings.resolve_bindings_in_dict] in E. returned E.
  injection E as <-. split.
  - intros k val G.
    match goal with
    | R : Bindings.resolve_fields _ _ _ _ = Ok _ |- _ =>
        exact (resolve_fields_get _ _ _ _ _ _ R N G)
    end.
  - intros k G.
    match goal with
    | R : Bindings.resolve_fields _ _ _ _ = Ok _ |- _ =>
        rewrite (resolve_fields_get_other _ _ _ _ k R); [reflexivity|]
    end.
    intro I. apply in_map_iff in I as [[k' v'] [<- I]].
    clear - G I. unfold key_get in G.
    induction fields as [|[k0 v0] fields IH]; simpl in *; [contradiction|].
    destruct (key_eqb k0 k') eqn:K; [discriminate|].
    destruct I as [[= -> _]|I]; [now rewrite key_eqb_refl in K | auto].
Qed.

End DeepBindingFacts.


Lemma resolve_bindings_in_dict_resolves_each_field_witness :
  exists new : value,
    key_get [(KStr "name", VStr "N"); (KStr "n", VInt 3)] (KStr "name")
    = Some new
    /\ field_resolved (H := bare_runtime)
         [(KStr "payload", VDict [(KStr "name", VStr "N")])]
         (VStr "@payload.name") new.
Proof.
  apply (proj1 (@resolve_bindings_in_dict_resolves_each_field bare_runtime
           [(KStr "name", VStr "@payload.name"); (KStr "n", VInt 3)]
           [(KStr "name", VStr "N"); (KStr "n", VInt 3)]
           [(KStr "payload", VDict [(KStr "name", VStr "N")])]
           ltac:(repeat constructor; simpl; intuition discriminate)
           eq_refl)).
  reflexivity.
Defined.

(** ** String-keyed maps *)

Section StringMaps.
Context {V : Type}.
Implicit Types (d : list (string * V)) (k : string) (v : V).

Lemma str_get_set_same d k v :
  assoc_get String.eqb (assoc_set String.eqb d k v) k = Some v.
Proof.
  induction d as [|[k' v'] d IH]; simpl.
  - now rewrite String.eqb_refl.
  - destruct (String.eqb k' k) eqn:E; simpl; rewrite E; auto.
Qed.

Lemma str_get_set_other d k k' v :
  k' <> k ->
  assoc_get String.eqb (assoc_set String.eqb d k v) k'
  = assoc_get String.eqb d k'.
Proof.
  intro N. induction d as [|[k0 v0] d IH]; simpl.
  - destruct (String.eqb k k') eqn:E; auto.
    apply String.eqb_eq in E; congruence.
  - destruct (String.eqb k0 k) eqn:E; simpl.
    + apply String.eqb_eq in E; subst k0.
      destruct (String.eqb k k') eqn:E'; auto.
      apply String.eqb_eq in E'; congruence.
    + now rewrite IH.
Qed.

Lemma str_get_del_same d k :
  assoc_get String.eqb (assoc_del String.eqb d k) k = None.
Proof.
  unfold assoc_del. induction d as [|[k' v'] d IH]; simpl; auto.
  destruct (String.eqb k' k) eqn:E; simpl; auto. now rewrite E.
Qed.

Lemma str_get_del_other d k k' :
  k' <> k ->
  assoc_get String.eqb (assoc_del String.eqb d k) k'
  = assoc_get String.eqb d k'.
Proof.
  intro N. unfold assoc_del. induction d as [|[k0 v0] d IH]; simpl; auto.
  destruct (String.eqb k0 k) eqn:E; simpl.
  - apply String.eqb_eq in E; subst k0.
    destruct (String.eqb k k') eqn:E'; auto.
    apply String.eqb_eq in E'; congruence.
  - now rewrite IH.
Qed.

Lemma str_set_new_then_del d k v :
  assoc_get String.eqb d k = None ->
  assoc_del String.eqb (assoc_set String.eqb d k v) k = d.
Proof.
  unfold assoc_del. induction d as [|[k0 v0] d IH]; simpl.
  - now rewrite String.eqb_refl.
  - destruct (String.eqb k0 k) eqn:E; [discriminate|].
    intro N. simpl. rewrite E. simpl. now rewrite IH.
Qed.

Lemma str_set_set d k v v' :
  assoc_set String.eqb (assoc_set String.eqb d k v) k v'
  = assoc_set String.eqb d k v'.
Proof.
  induction d as [|[k0 v0] d IH]; simpl.
  - now rewrite String.eqb_refl.
  - destruct (String.eqb k0 k) eqn:E; simpl; rewrite E; auto.
    now rewrite IH.
Qed.

Lemma str_set_same_value d k v :
  assoc_get String.eqb d k = Some v -> assoc_set String.eqb d k v = d.
Proof.
  induction d as [|[k0 v0] d IH]; simpl.
  - discriminate.
  - destruct (String.eqb k0 k); intro G.
    + now injection G as ->.
    + now rewrite IH.
Qed.

End StringMaps.

(** ** Event bus, continued *)

Lemma subscribers_set (self : EventBus.t) (ev ev' : string)
    (subs : list EventBus.EventSubscription) :
  EventBus.subscribers
    {| EventBus._subscriptions :=
         assoc_set String.eqb (EventBus._subscriptions self) ev subs |} ev'
  = if String.eqb ev ev' then subs else EventBus.subscribers self ev'.
Proof.
  unfold EventBus.subscribers; simpl.
  destruct (String.eqb ev ev') eqn:E.
  - apply String.eqb_eq in E; subst. now rewrite str_get_set_same.
  - apply String.eqb_neq in E. rewrite str_get_set_other; auto.
Qed.

Lemma list_remove_keeps_persistent (l l' : list EventBus.EventSubscription)
    (x : EventBus.EventSubscription) :
  EventBus.once x = true ->
  EventBus.list_remove l x = Ok l' -> persistent l' = persistent l.
Proof.
  intro O. revert l'; induction l as [|y l IH]; intros l' R; simpl in R.
  - discriminate.
  - destruct (EventBus.sub_eqb y x) eqn:E.
    + injection R as <-. unfold persistent; simpl.
      unfold EventBus.sub_eqb in E.
      apply andb_prop in E as [_ E]. apply Bool.eqb_prop in E.
      now rewrite E, O.
    + destruct (EventBus.list_remove l x) as [r|]; [|discriminate].
      injection R as <-. unfold persistent in *; simpl.
      now rewrite (IH r eq_refl).
Qed.

Lemma remove_all_keeps_persistent (r l l' : list EventBus.EventSubscription) :
  Forall (fun x => EventBus.once x = true) r ->
  EventBus.remove_all l r = Ok l' -> persistent l' = persistent l.
Proof.
  intro F. revert l; induction F as [|x r O F IH]; intros l R; simpl in R.
  - now injection R as <-.
  - returned R. rewrite (IH _ R).
    eapply list_remove_keeps_persistent; eauto.
Qed.

Section EventBusMoreFacts.
Context `{EventBus.Handlers}.

Lemma run_handlers_picks_once (subs : list EventBus.EventSubscription)
    (arg : value) (trace : list EventBus.call)
    (to_remove : list EventBus.EventSubscription) :
  Forall (fun x => EventBus.once x = true) to_remove ->
  Forall (fun x => EventBus.once x = true)
    (snd (EventBus.run_handlers subs arg trace to_remove)).
Proof.
  revert trace to_remove; induction subs as [|sub subs IH];
    intros trace to_remove F; simpl; auto.
  destruct (EventBus.raises (EventBus.handler sub) arg trace); auto.
  destruct (EventBus.once sub) eqn:O; auto.
  apply IH. apply Forall_app. split; auto.
Qed.

Lemma emit_returns_with_calls (self : EventBus.t) (ev : string)
    (payload : value) (trace : list EventBus.call) :
  exists self' : EventBus.t,
    EventBus.emit self ev payload trace
    = Ok (self', trace ++ calls (EventBus.subscribers self ev) payload).
Proof.
  unfold EventBus.emit, EventBus.subscribers, calls.
  destruct (assoc_get String.eqb (EventBus._subscriptions self) ev)
    as [subs|]; simpl.
  - destruct (run_handlers_to_remove subs (py_or payload (VDict [])) trace [])
      as [picked [E S]].
    rewrite E. simpl.
    destruct (remove_all_subsequence _ _ S) as [subs' R]. rewrite R. simpl.
    rewrite run_handlers_trace. eauto.
  - rewrite app_nil_r. eauto.
Qed.


(** X21. The unsubscribe function of a subscription removes every
    subscription of the event that equals it, so a handler subscribed
    twice in the same way is cancelled twice over by one call; other
    subscriptions keep their order and other events are not touched. *)
Theorem unsubscribe_removes_all_equal (self : EventBus.t) (ev : string)
    (h : EventBus.handler_id) (o : bool) :
  let sub := {| EventBus.event := ev; EventBus.handler := h;
                EventBus.once := o |} in
  EventBus.subscribers (EventBus.unsubscribe self ev h o) ev
  = filter (fun s => negb (EventBus.sub_eqb s sub))
      (EventBus.subscribers self ev)
  /\ EventBus.subscribers
       (EventBus.unsubscribe
          (EventBus.subscribe (EventBus.subscribe self ev h o) ev h o)
          ev h o) ev
     = filter (fun s => negb (EventBus.sub_eqb s sub))
         (EventBus.subscribers self ev)
  /\ (forall other : string,
        other <> ev ->
        EventBus.subscribers (EventBus.unsubscribe self ev h o) other
        = EventBus.subscribers self other).
Proof.
  intro sub.
  assert (U : forall bus,
             EventBus.subscribers (EventBus.unsubscribe bus ev h o) ev
             = filter (fun s => negb (EventBus.sub_eqb s sub))
                 (EventBus.subscribers bus ev)).
  { intro bus. unfold EventBus.unsubscribe, assoc_mem.
    destruct (assoc_get String.eqb (EventBus._subscriptions bus) ev)
      eqn:G.
    - now rewrite subscribers_set, String.eqb_refl.
    - unfold EventBus.subscribers. now rewrite G. }
  split; [apply U|]. split.
  - rewrite U. unfold EventBus.subscribe.
    rewrite !subscribers_set, !String.eqb_refl.
    rewrite !filter_app. simpl. fold sub. rewrite sub_eqb_refl. simpl.
    now rewrite !app_nil_r.
  - intros other N. unfold EventBus.unsubscribe.
    destruct (assoc_mem String.eqb (EventBus._subscriptions self) ev); auto.
    rewrite subscribers_set.
    destruct (String.eqb ev other) eqn:E; auto.
    apply String.eqb_eq in E. congruence.
Qed.

(** X22. [clear] with an event name drops that event's subscriptions
    and no other, and an [emit] of the cleared event then does nothing;
    [clear] without a name, and also with the empty name, drops the
    subscriptions of every event. *)
Theorem clear_drops_subscriptions (self : EventBus.t) (ev : string)
    (payload : value) (trace : list EventBus.call) :
  (ev <> "" ->
   EventBus.subscribers (EventBus.clear self (Some ev)) ev = []
   /\ EventBus.emit (EventBus.clear self (Some ev)) ev payload trace
      = Ok (EventBus.clear self (Some ev), trace)
   /\ forall other : string,
        other <> ev ->
        EventBus.subscribers (EventBus.clear self (Some ev)) other
        = EventBus.subscribers self other)
  /\ (forall other : string,
        EventBus.subscribers (EventBus.clear self None) other = []
        /\ EventBus.subscribers (EventBus.clear self (Some "")) other = []).
Proof.
  split.
  - intro N. unfold EventBus.clear.
    apply String.eqb_neq in N. rewrite N. cbn [negb].
    unfold EventBus.subscribers, EventBus.emit; simpl.
    rewrite str_get_del_same. repeat split; auto.
    intros other O. now rewrite str_get_del_other.
  - intro other. split; reflexivity.
Qed.

(** X23. [emit] never drops a subscription that is not [once], whether
    handlers raise or not, and it leaves the subscriptions of every
    other event as they were. *)
Theorem emit_keeps_persistent_subscriptions (self self' : EventBus.t)
    (ev : string) (payload : value) (trace trace' : list EventBus.call) :
  EventBus.emit self ev payload trace = Ok (self', trace') ->
  persistent (EventBus.subscribers self' ev)
  = persistent (EventBus.subscribers self ev)
  /\ (forall other : string,
        other <> ev ->
        EventBus.subscribers self' other = EventBus.subscribers self other).
Proof.
  unfold EventBus.emit.
  destruct (assoc_get String.eqb (EventBus._subscriptions self) ev)
    as [subs|] eqn:G.
  - intro R. returned R. injection R as <- _.
    rewrite subscribers_set, String.eqb_refl. split.
    + unfold EventBus.subscribers. rewrite G.
      eapply remove_all_keeps_persistent; [|eassumption].
      apply run_handlers_picks_once. constructor.
    + intros other N. rewrite subscribers_set.
      destruct (String.eqb ev other) eqn:Eo; auto.
      apply String.eqb_eq in Eo. congruence.
  - intros [= <- _]. auto.
Qed.

Lemma emit_when_handlers_return (self : EventBus.t) (ev : string)
    (payload : value) (trace : list EventBus.call) :
  (forall h a t, EventBus.raises h a t = false) ->
  exists self' : EventBus.t,
    EventBus.emit self ev payload trace
    = Ok (self', trace ++ calls (EventBus.subscribers self ev) payload)
    /\ EventBus.subscribers self' ev
       = persistent (EventBus.subscribers self ev).
Proof.
  intro R.
  destruct (assoc_get String.eqb (EventBus._subscriptions self) ev)
    as [subs|] eqn:G.
  - destruct (emit_removes_once_when_handlers_return self ev payload trace
                subs R G) as (self' & trace' & E & S).
    destruct (emit_returns_with_calls self ev payload trace) as [self'' E'].
    rewrite E in E'. injection E' as <- ->.
    exists self'. split; [exact E|].
    rewrite S. unfold EventBus.subscribers. now rewrite G.
  - exists self. unfold EventBus.emit, EventBus.subscribers, calls.
    rewrite G. simpl. now rewrite app_nil_r.
Qed.

Lemma emits_when_only_persistent (later : list value) (self : EventBus.t)
    (ev : string) (trace : list EventBus.call)
    (subs : list EventBus.EventSubscription) :
  (forall h a t, EventBus.raises h a t = false) ->
  EventBus.subscribers self ev = subs ->
  persistent subs = subs ->
  exists self' : EventBus.t,
    emits self ev later trace
    = Ok (self', trace ++ concat (map (calls subs) later))
    /\ EventBus.subscribers self' ev = subs.
Proof.
  intros R. revert self trace.
  induction later as [|payload later IH]; intros self trace S P.
  - exists self. simpl. now rewrite app_nil_r.
  - cbn [emits].
    destruct (emit_when_handlers_return self ev payload trace R)
      as (self1 & E1 & S1).
    rewrite E1. rewrite S, P in S1.
    destruct (IH self1 (trace ++ calls (EventBus.subscribers self ev) payload)
                S1 P) as (self' & E & S').
    exists self'. rewrite E. split; [|exact S'].
    rewrite S. simpl. now rewrite <- app_assoc.
Qed.

(** X24. When the handlers return, a [once] handler is called by the
    first [emit] of its event and by no later one, while the other
    handlers are called by every [emit]; after the first [emit] only
    the subscriptions that are not [once] are left. *)
Theorem once_handlers_fire_on_first_emit_only (self : EventBus.t)
    (ev : string) (first : value) (later : list value)
    (trace : list EventBus.call) :
  (forall h a t, EventBus.raises h a t = false) ->
  exists self' : EventBus.t,
    emits self ev (first :: later) trace
    = Ok (self',
          trace ++ calls (EventBus.subscribers self ev) first
          ++ concat (map (calls (persistent (EventBus.subscribers self ev)))
                       later))
    /\ EventBus.subscribers self' ev
       = persistent (EventBus.subscribers self ev).
Proof.
  intro R. cbn [emits].
  destruct (emit_when_handlers_return self ev first trace R)
    as (self1 & E1 & S1).
  rewrite E1.
  destruct (emits_when_only_persistent later self1 ev
              (trace ++ calls (EventBus.subscribers self ev) first)
              (persistent (EventBus.subscribers self ev)) R S1)
    as (self' & E & S).
  - unfold persistent. apply filter_idempotent.
  - exists self'. rewrite E. split; [|exact S]. now rewrite <- app_assoc.
Qed.

End EventBusMoreFacts.


Lemma unsubscribe_removes_all_equal_witness :
  EventBus.subscribers (EventBus.unsubscribe mixed_bus "E" 1 true) "F"
  = EventBus.subscribers mixed_bus "F".
Proof.
  apply (proj2 (proj2 (unsubscribe_removes_all_equal mixed_bus "E" 1 true))).
  discriminate.
Defined.

Lemma clear_drops_subscriptions_witness :
  EventBus.subscribers (EventBus.clear mixed_bus (Some "E")) "E" = []
  /\ EventBus.subscribers (EventBus.clear mixed_bus (Some "E")) "F"
     = EventBus.subscribers mixed_bus "F".
Proof.
  destruct (proj1 (@clear_drops_subscriptions returning_handlers mixed_bus
                     "E" VNone []))
    as (S & _ & O).
  - discriminate.
  - split; [exact S|]. apply O. discriminate.
Defined.

Lemma emit_keeps_persistent_subscriptions_witness :
  match EventBus.emit (H := one_bad_handler) mixed_bus "E" VNone [] with
  | Ok (self', _) =>
      persistent (EventBus.subscribers self' "E")
      = persistent (EventBus.subscribers mixed_bus "E")
  | Raise _ => False
  end.
Proof.
  destruct (EventBus.emit (H := one_bad_handler) mixed_bus "E" VNone [])
    as [[self' trace']|e] eqn:E.
  - exact (proj1 (@emit_keeps_persistent_subscriptions one_bad_handler
                    _ _ _ _ _ _ E)).
  - discriminate E.
Defined.

Lemma once_handlers_fire_on_first_emit_only_witness :
  exists self' : EventBus.t,
    emits (H := returning_handlers) mixed_bus "E"
      [VInt 1; VInt 2; VInt 3] []
    = Ok (self', [(1, VInt 1); (2, VInt 1); (2, VInt 2); (2, VInt 3)]).
Proof.
  destruct (@once_handlers_fire_on_first_emit_only returning_handlers
              mixed_bus "E" (VInt 1) [VInt 2; VInt 3] [])
    as (self' & E & _).
  - reflexivity.
  - exists self'. exact E.
Defined.

(** ** Connection manager, continued *)

Lemma discard_remove_first (l : list ConnectionManager.connection)
    (c : ConnectionManager.connection) :
  ConnectionManager.discard l c = ConnectionManager.remove_first l c.
Proof.
  unfold ConnectionManager.discard.
  destruct (existsb (Nat.eqb c) l) eqn:E; auto.
  induction l as [|y l IH]; simpl in *; auto.
  apply orb_false_iff in E as [E1 E2].
  rewrite Nat.eqb_sym, E1. now rewrite <- IH.
Qed.

Lemma in_discard (l : list ConnectionManager.connection)
    (x y : ConnectionManager.connection) :
  In x (ConnectionManager.discard l y) -> In x l.
Proof.
  rewrite discard_remove_first.
  induction l as [|z l IH]; simpl; auto.
  destruct (Nat.eqb z y); simpl; tauto.
Qed.

Lemma in_discard_other (l : list ConnectionManager.connection)
    (x y : ConnectionManager.connection) :
  x <> y -> In x l -> In x (ConnectionManager.discard l y).
Proof.
  intro N. rewrite discard_remove_first.
  induction l as [|z l IH]; simpl; auto.
  destruct (Nat.eqb z y) eqn:E; simpl.
  - apply Nat.eqb_eq in E. intros [->|I]; [congruence | auto].
  - tauto.
Qed.

Lemma nodup_discard (l : list ConnectionManager.connection)
    (y : ConnectionManager.connection) :
  NoDup l -> NoDup (ConnectionManager.discard l y).
Proof.
  rewrite discard_remove_first.
  induction 1 as [|z l NI N IH]; simpl; [constructor|].
  destruct (Nat.eqb z y); auto.
  constructor; auto. intro I. apply NI.
  apply (in_discard l z y). now rewrite discard_remove_first.
Qed.

Lemma discard_not_in (l : list ConnectionManager.connection)
    (c : ConnectionManager.connection) :
  NoDup l -> ~ In c (ConnectionManager.discard l c).
Proof.
  rewrite discard_remove_first.
  induction 1 as [|z l NI N IH]; simpl; auto.
  destruct (Nat.eqb z c) eqn:E.
  - apply Nat.eqb_eq in E. now subst.
  - apply Nat.eqb_neq in E. simpl. tauto.
Qed.

Lemma discard_absent (l : list ConnectionManager.connection)
    (c : ConnectionManager.connection) :
  ~ In c l -> ConnectionManager.discard l c = l.
Proof.
  rewrite discard_remove_first.
  induction l as [|z l IH]; simpl; auto.
  intro N. destruct (Nat.eqb z c) eqn:E.
  - apply Nat.eqb_eq in E. tauto.
  - rewrite IH; tauto.
Qed.

Lemma discard_app_last (l : list ConnectionManager.connection)
    (c : ConnectionManager.connection) :
  ~ In c l -> ConnectionManager.discard (l ++ [c]) c = l.
Proof.
  rewrite discard_remove_first.
  induction l as [|z l IH]; simpl.
  - now rewrite Nat.eqb_refl.
  - intro N. destruct (Nat.eqb z c) eqn:E.
    + apply Nat.eqb_eq in E. tauto.
    + rewrite IH; tauto.
Qed.

Lemma scoped_evict (self : ConnectionManager.t) (ws : ConnectionManager.connection)
    (ty id : string) :
  ConnectionManager.scoped (ConnectionManager.evict self ws) ty id
  = ConnectionManager.discard (ConnectionManager.scoped self ty id) ws.
Proof.
  unfold ConnectionManager.scoped, ConnectionManager.by_type,
    ConnectionManager.evict; simpl.
  induction (ConnectionManager.active_connections self) as [|[t m] a IH];
    simpl; auto.
  destruct (String.eqb t ty); auto.
  clear IH. induction m as [|[i l] m IH]; simpl; auto.
  destruct (String.eqb i id); auto.
Qed.

Lemma evict_keeps_registered_once (self : ConnectionManager.t)
    (ws : ConnectionManager.connection) :
  registered_once self -> registered_once (ConnectionManager.evict self ws).
Proof.
  intros [G S]. split.
  - simpl. now apply nodup_discard.
  - intros ty id. rewrite scoped_evict. now apply nodup_discard.
Qed.

Lemma evict_keeps_unregistered (self : ConnectionManager.t)
    (c ws : ConnectionManager.connection) :
  unregistered self c -> unregistered (ConnectionManager.evict self ws) c.
Proof.
  intros [G S]. split.
  - simpl. intro I. apply G. eapply in_discard; eauto.
  - intros ty id. rewrite scoped_evict. intro I.
    apply (S ty id). eapply in_discard; eauto.
Qed.

Lemma evict_unregisters (self : ConnectionManager.t)
    (c : ConnectionManager.connection) :
  registered_once self -> unregistered (ConnectionManager.evict self c) c.
Proof.
  intros [G S]. split.
  - simpl. now apply discard_not_in.
  - intros ty id. rewrite scoped_evict. now apply discard_not_in.
Qed.

Lemma evicts_unregister (failed : list ConnectionManager.connection)
    (self : ConnectionManager.t) (c : ConnectionManager.connection) :
  registered_once self ->
  In c failed ->
  unregistered (fold_left ConnectionManager.evict failed self) c.
Proof.
  assert (K : forall failed self,
             unregistered self c ->
             unregistered (fold_left ConnectionManager.evict failed self) c).
  { clear. induction failed as [|d failed IH]; intros self U; simpl; auto.
    apply IH. now apply evict_keeps_unregistered. }
  revert self; induction failed as [|d failed IH]; intros self W I;
    simpl in *; [contradiction|].
  destruct (Nat.eq_dec d c) as [->|N].
  - apply K. now apply evict_unregisters.
  - destruct I as [E|I]; [congruence|].
    apply IH; auto. now apply evict_keeps_registered_once.
Qed.

Lemma evicts_keep_others (failed : list ConnectionManager.connection)
    (self : ConnectionManager.t) (c : ConnectionManager.connection) :
  ~ In c failed ->
  (In c (ConnectionManager.global_connections
           (fold_left ConnectionManager.evict failed self))
   <-> In c (ConnectionManager.global_connections self))
  /\ forall ty id,
       In c (ConnectionManager.scoped
               (fold_left ConnectionManager.evict failed self) ty id)
       <-> In c (ConnectionManager.scoped self ty id).
Proof.
  revert self; induction failed as [|d failed IH]; intros self N; simpl.
  - tauto.
  - simpl in N. destruct (IH (ConnectionManager.evict self d)) as [G S];
      [tauto|].
    split.
    + rewrite G. simpl. split; [apply in_discard|].
      apply in_discard_other. intuition congruence.
    + intros ty id. rewrite S, scoped_evict. split; [apply in_discard|].
      apply in_discard_other. intuition congruence.
Qed.

Section EvictionFacts.
Context `{ConnectionManager.Transport}.

Lemma send_loop_failed_superset (connections : list ConnectionManager.connection)
    (text : string) (sent : list ConnectionManager.send)
    (disconnected : list ConnectionManager.connection)
    (c : ConnectionManager.connection) :
  In c disconnected ->
  In c (snd (ConnectionManager.send_loop connections text sent disconnected)).
Proof.
  revert sent disconnected; induction connections as [|x cs IH];
    intros sent disconnected I; simpl; auto.
  apply IH. destruct (ConnectionManager.send_fails x text sent); auto.
  apply in_or_app. now left.
Qed.

Lemma send_loop_marks_dead (connections : list ConnectionManager.connection)
    (text : string) (sent : list ConnectionManager.send)
    (disconnected : list ConnectionManager.connection)
    (c : ConnectionManager.connection) :
  dead c -> In c connections ->
  In c (snd (ConnectionManager.send_loop connections text sent disconnected)).
Proof.
  intro D. revert sent disconnected; induction connections as [|x cs IH];
    intros sent disconnected I; simpl in *; [contradiction|].
  destruct I as [->|I]; [|now apply IH].
  apply send_loop_failed_superset. rewrite D. apply in_or_app. simpl. tauto.
Qed.

Lemma send_loop_spares_healthy (connections : list ConnectionManager.connection)
    (text : string) (sent : list ConnectionManager.send)
    (disconnected : list ConnectionManager.connection)
    (c : ConnectionManager.connection) :
  healthy c -> ~ In c disconnected ->
  ~ In c (snd (ConnectionManager.send_loop connections text sent disconnected)).
Proof.
  intro Hc. revert sent disconnected; induction connections as [|x cs IH];
    intros sent disconnected N; simpl; auto.
  apply IH. destruct (ConnectionManager.send_fails x text sent) eqn:F; auto.
  intro I. apply in_app_or in I as [I|[->|[]]]; [tauto|].
  rewrite Hc in F. discriminate.
Qed.

(** X27. Stale connections are evicted: when no websocket is
    registered twice in one list, a connection on which sends fail and
    that a broadcast reaches is, once the broadcast has returned, in
    neither the global list nor any scoped list. *)
Theorem broadcast_evicts_dead_connection (self : ConnectionManager.t)
    (entity_type entity_id : string) (message : value) (text : string)
    (sent : list ConnectionManager.send) (c : ConnectionManager.connection) :
  ConnectionManager.json_dumps
    (ConnectionManager.make_json_serializable message) = Ok text ->
  registered_once self ->
  dead c ->
  In c (ConnectionManager.scoped self entity_type entity_id
        ++ ConnectionManager.global_connections self) ->
  exists (self' : ConnectionManager.t) (sent' : list ConnectionManager.send),
    ConnectionManager.broadcast_to_entity self entity_type entity_id message
      sent = Ok (self', sent')
    /\ unregistered self' c.
Proof.
  intros J W D I. unfold ConnectionManager.broadcast_to_entity,
    ConnectionManager._send_to_connections.
  rewrite J, scoped_if_present. cbn [rbind].
  eexists. eexists. split; [reflexivity|].
  apply evicts_unregister; auto. now apply send_loop_marks_dead.
Qed.

(** X28. A broadcast takes nothing away from a healthy connection: a
    connection on which no send fails is, after any broadcast, in
    exactly the lists it was in before, whatever happens to the others;
    and when every connection reached is healthy, the registry as a
    whole is left as it was. *)
Theorem broadcast_keeps_healthy_connections (self : ConnectionManager.t)
    (entity_type entity_id : string) (message : value) (text : string)
    (sent : list ConnectionManager.send) :
  ConnectionManager.json_dumps
    (ConnectionManager.make_json_serializable message) = Ok text ->
  exists (self' : ConnectionManager.t) (sent' : list ConnectionManager.send),
    ConnectionManager.broadcast_to_entity self entity_type entity_id message
      sent = Ok (self', sent')
    /\ (forall c : ConnectionManager.connection,
          healthy c ->
          (In c (ConnectionManager.global_connections self')
           <-> In c (ConnectionManager.global_connections self))
          /\ forall ty id,
               In c (ConnectionManager.scoped self' ty id)
               <-> In c (ConnectionManager.scoped self ty id))
    /\ (Forall healthy
          (ConnectionManager.scoped self entity_type entity_id
           ++ ConnectionManager.global_connections self) ->
        self' = self).
Proof.
  intro J. unfold ConnectionManager.broadcast_to_entity,
    ConnectionManager._send_to_connections.
  rewrite J, scoped_if_present. cbn [rbind].
  eexists. eexists. split; [reflexivity|]. split.
  - intros c Hc. apply evicts_keep_others.
    apply send_loop_spares_healthy; auto.
  - intro F.
    assert (E : forall cs sent0,
               Forall healthy cs ->
               snd (ConnectionManager.send_loop cs text sent0 []) = []).
    { clear. induction cs as [|x cs IH]; intros sent0 F; simpl; auto.
      inversion F as [|? ? Hx F']; subst. rewrite Hx. now apply IH. }
    now rewrite E.
Qed.

End EvictionFacts.

Lemma given_some (s : string) :
  s <> "" -> ConnectionManager.given (Some s) = Some s.
Proof.
  intro N. unfold ConnectionManager.given.
  apply String.eqb_neq in N. now rewrite N.
Qed.

Lemma scoped_with (a : list (string * list (string * list ConnectionManager.connection)))
    (t : string) (m : list (string * list ConnectionManager.connection))
    (g : list ConnectionManager.connection) (t' i' : string) :
  ConnectionManager.scoped
    {| ConnectionManager.active_connections := assoc_set String.eqb a t m;
       ConnectionManager.global_connections := g |} t' i'
  = if String.eqb t t'
    then match assoc_get String.eqb m i' with Some l => l | None => [] end
    else ConnectionManager.scoped
           {| ConnectionManager.active_connections := a;
              ConnectionManager.global_connections := g |} t' i'.
Proof.
  unfold ConnectionManager.scoped, ConnectionManager.by_type; simpl.
  destruct (String.eqb t t') eqn:E.
  - apply String.eqb_eq in E; subst. now rewrite str_get_set_same.
  - apply String.eqb_neq in E. rewrite str_get_set_other; auto.
Qed.

Lemma scoped_without (a : list (string * list (string * list ConnectionManager.connection)))
    (t : string) (g : list ConnectionManager.connection) (t' i' : string) :
  ConnectionManager.scoped
    {| ConnectionManager.active_connections := assoc_del String.eqb a t;
       ConnectionManager.global_connections := g |} t' i'
  = if String.eqb t t' then []
    else ConnectionManager.scoped
           {| ConnectionManager.active_connections := a;
              ConnectionManager.global_connections := g |} t' i'.
Proof.
  unfold ConnectionManager.scoped, ConnectionManager.by_type; simpl.
  destruct (String.eqb t t') eqn:E.
  - apply String.eqb_eq in E; subst. now rewrite str_get_del_same.
  - apply String.eqb_neq in E. rewrite str_get_del_other; auto.
Qed.

(** X25. Where a connection is registered: with an entity type and an
    entity id, both non-empty, it is appended to the list of that pair
    and nothing else changes; when either is missing or empty it is
    appended to the global list instead, and the scoped lists stay as
    they were. *)
Theorem connect_registers_scoped_or_global (self : ConnectionManager.t)
    (ws : ConnectionManager.connection) :
  (forall t i : string,
     t <> "" -> i <> "" ->
     ConnectionManager.scoped
       (ConnectionManager.connect self ws (Some t) (Some i)) t i
     = ConnectionManager.scoped self t i ++ [ws]
     /\ ConnectionManager.global_connections
          (ConnectionManager.connect self ws (Some t) (Some i))
        = ConnectionManager.global_connections self
     /\ forall t' i' : string,
          (t', i') <> (t, i) ->
          ConnectionManager.scoped
            (ConnectionManager.connect self ws (Some t) (Some i)) t' i'
          = ConnectionManager.scoped self t' i')
  /\ (forall entity_type entity_id : option string,
        ConnectionManager.given entity_type = None
        \/ ConnectionManager.given entity_id = None ->
        ConnectionManager.global_connections
          (ConnectionManager.connect self ws entity_type entity_id)
        = ConnectionManager.global_connections self ++ [ws]
        /\ ConnectionManager.active_connections
             (ConnectionManager.connect self ws entity_type entity_id)
           = ConnectionManager.active_connections self).
Proof.
  split.
  - intros t i Nt Ni. unfold ConnectionManager.connect.
    rewrite (given_some t Nt), (given_some i Ni).
    split; [|split; [reflexivity|]].
    + rewrite scoped_with, String.eqb_refl. now rewrite str_get_set_same.
    + intros t' i' N. rewrite scoped_with.
      destruct (String.eqb t t') eqn:E; auto.
      apply String.eqb_eq in E; subst t'.
      rewrite str_get_set_other; [reflexivity|].
      intros ->. now apply N.
  - intros entity_type entity_id G. unfold ConnectionManager.connect.
    destruct G as [G|G]; rewrite G; auto.
    destruct (ConnectionManager.given entity_type); auto.
Qed.

Lemma connect_scoped_shape (self : ConnectionManager.t)
    (ws : ConnectionManager.connection) (t i : string) :
  t <> "" -> i <> "" ->
  ConnectionManager.connect self ws (Some t) (Some i)
  = {| ConnectionManager.active_connections :=
         assoc_set String.eqb (ConnectionManager.active_connections self) t
           (assoc_set String.eqb (ConnectionManager.by_type self t) i
              (ConnectionManager.scoped self t i ++ [ws]));
       ConnectionManager.global_connections :=
         ConnectionManager.global_connections self |}.
Proof.
  intros Nt Ni. unfold ConnectionManager.connect.
  now rewrite (given_some t Nt), (given_some i Ni).
Qed.

Lemma disconnect_last_scoped (self : ConnectionManager.t)
    (ws : ConnectionManager.connection) (t i : string)
    (m : list (string * list ConnectionManager.connection))
    (l : list ConnectionManager.connection) :
  t <> "" -> i <> "" ->
  assoc_get String.eqb (ConnectionManager.active_connections self) t
  = Some m ->
  assoc_get String.eqb m i = Some (l ++ [ws]) ->
  ~ In ws l ->
  ConnectionManager.disconnect self ws (Some t) (Some i)
  = {| ConnectionManager.active_connections :=
         match match l with
               | [] => assoc_del String.eqb m i
               | _ :: _ => assoc_set String.eqb m i l
               end with
         | [] => assoc_del String.eqb
                   (ConnectionManager.active_connections self) t
         | _ :: _ =>
             assoc_set String.eqb
               (ConnectionManager.active_connections self) t
               match l with
               | [] => assoc_del String.eqb m i
               | _ :: _ => assoc_set String.eqb m i l
               end
         end;
       ConnectionManager.global_connections :=
         ConnectionManager.global_connections self |}.
Proof.
  intros Nt Ni A M N. unfold ConnectionManager.disconnect.
  rewrite (given_some t Nt), (given_some i Ni).
  unfold ConnectionManager.scoped, ConnectionManager.by_type, assoc_mem.
  rewrite A, M. cbn [andb]. rewrite discard_app_last by exact N.
  destruct l; reflexivity.
Qed.

(** X26. Disconnecting undoes connecting: after a connection that was
    not yet registered for a pair is connected to it and disconnected
    again, every scoped list and the global list are as before, and
    when the entity type had no connections the entries created for it
    are pruned, so that the whole registry is as before; the same holds
    for a global connection. *)
Theorem disconnect_undoes_connect (self : ConnectionManager.t)
    (ws : ConnectionManager.connection) :
  (~ In ws (ConnectionManager.global_connections self) ->
   ConnectionManager.disconnect
     (ConnectionManager.connect self ws None None) ws None None = self)
  /\ (forall t i : string,
        t <> "" -> i <> "" ->
        ~ In ws (ConnectionManager.scoped self t i) ->
        let self' :=
          ConnectionManager.disconnect
            (ConnectionManager.connect self ws (Some t) (Some i))
            ws (Some t) (Some i) in
        (forall t' i' : string,
           ConnectionManager.scoped self' t' i'
           = ConnectionManager.scoped self t' i')
        /\ ConnectionManager.global_connections self'
           = ConnectionManager.global_connections self
        /\ (assoc_get String.eqb (ConnectionManager.active_connections self) t
            = None -> self' = self)).
Proof.
  split.
  - intro N. unfold ConnectionManager.disconnect, ConnectionManager.connect.
    cbn [ConnectionManager.given ConnectionManager.global_connections
         ConnectionManager.active_connections].
    rewrite discard_app_last by exact N. now destruct self.
  - intros t i Nt Ni N self'.
    set (m := ConnectionManager.by_type self t).
    set (l := ConnectionManager.scoped self t i).
    assert (E : self'
                = {| ConnectionManager.active_connections :=
                       match match l with
                             | [] => assoc_del String.eqb
                                       (assoc_set String.eqb m i (l ++ [ws])) i
                             | _ :: _ =>
                                 assoc_set String.eqb
                                   (assoc_set String.eqb m i (l ++ [ws])) i l
                             end with
                       | [] =>
                           assoc_del String.eqb
                             (assoc_set String.eqb
                                (ConnectionManager.active_connections self) t
                                (assoc_set String.eqb m i (l ++ [ws]))) t
                       | _ :: _ =>
                           assoc_set String.eqb
                             (assoc_set String.eqb
                                (ConnectionManager.active_connections self) t
                                (assoc_set String.eqb m i (l ++ [ws]))) t
                             match l with
                             | [] => assoc_del String.eqb
                                       (assoc_set String.eqb m i (l ++ [ws])) i
                             | _ :: _ =>
                                 assoc_set String.eqb
                                   (assoc_set String.eqb m i (l ++ [ws])) i l
                             end
                       end;
                     ConnectionManager.global_connections :=
                       ConnectionManager.global_connections self |}).
    { unfold self'. rewrite (connect_scoped_shape self ws t i Nt Ni).
      fold m. fold l.
      erewrite (disconnect_last_scoped _ ws t i
                  (assoc_set String.eqb m i (l ++ [ws])) l Nt Ni);
        [reflexivity | simpl; apply str_get_set_same
         | apply str_get_set_same | exact N]. }
    rewrite E. clear E self'.
    set (m2 := match l with
               | [] => assoc_del String.eqb
                         (assoc_set String.eqb m i (l ++ [ws])) i
               | _ :: _ =>
                   assoc_set String.eqb
                     (assoc_set String.eqb m i (l ++ [ws])) i l
               end).
    assert (M : forall i',
               match assoc_get String.eqb m2 i' with
               | Some x => x | None => []
               end
               = ConnectionManager.scoped self t i').
    { intro i'. unfold m2. destruct (String.eqb i i') eqn:Ei.
      - apply String.eqb_eq in Ei; subst i'. fold l.
        destruct l; [now rewrite str_get_del_same|].
        now rewrite str_get_set_same.
      - apply String.eqb_neq in Ei.
        assert (Ei' : i' <> i) by congruence.
        unfold ConnectionManager.scoped. fold m.
        destruct l; [rewrite str_get_del_other by exact Ei'|
                     rewrite str_get_set_other by exact Ei'];
          now rewrite str_get_set_other by exact Ei'. }
    split; [|split].
    + intros t' i'. destruct m2 eqn:Em.
      * rewrite scoped_without.
        destruct (String.eqb t t') eqn:Et.
        -- apply String.eqb_eq in Et; subst t'. now rewrite <- (M i').
        -- rewrite scoped_with, Et. reflexivity.
      * rewrite str_set_set, scoped_with.
        destruct (String.eqb t t') eqn:Et; [|reflexivity].
        apply String.eqb_eq in Et; subst t'. now rewrite <- (M i').
    + destruct m2; reflexivity.
    + intro Absent.
      assert (Em : m = []).
      { unfold m, ConnectionManager.by_type. now rewrite Absent. }
      assert (El : l = []).
      { unfold l, ConnectionManager.scoped. fold m. now rewrite Em. }
      unfold m2. rewrite El, Em. simpl. rewrite String.eqb_refl. simpl.
      rewrite str_set_new_then_del by exact Absent. now destruct self.
Qed.


Section BroadcastGlobalFacts.
Context `{ConnectionManager.Transport}.

(** X29. A global broadcast attempts one send to each global
    connection, in registration order, and to no other: a connection
    that is only scoped to an entity gets nothing from it. *)
Theorem broadcast_global_recipients (self : ConnectionManager.t)
    (message : value) (text : string) (sent : list ConnectionManager.send) :
  ConnectionManager.json_dumps
    (ConnectionManager.make_json_serializable message) = Ok text ->
  exists self' : ConnectionManager.t,
    ConnectionManager.broadcast_global self message sent
    = Ok (self',
          sent ++ map (fun c => (c, text))
                    (ConnectionManager.global_connections self)).
Proof.
  intro J. unfold ConnectionManager.broadcast_global,
    ConnectionManager._send_to_connections.
  rewrite J. cbn [rbind]. rewrite send_loop_sent. eauto.
Qed.

End BroadcastGlobalFacts.

Lemma three_connections_registered_once : registered_once three_connections.
Proof.
  split.
  - repeat constructor; simpl; tauto.
  - intros t i.
    change three_connections
      with {| ConnectionManager.active_connections :=
                [("T", [("1", [1]); ("2", [2])])];
              ConnectionManager.global_connections := [3] |}.
    unfold ConnectionManager.scoped, ConnectionManager.by_type.
    cbn [ConnectionManager.active_connections assoc_get].
    destruct (String.eqb "T" t); [|constructor].
    cbn [assoc_get].
    destruct (String.eqb "1" i); [repeat constructor; simpl; tauto|].
    destruct (String.eqb "2" i); repeat constructor; simpl; tauto.
Qed.

Lemma connect_registers_scoped_or_global_witness :
  ConnectionManager.scoped
    (ConnectionManager.connect three_connections 9 (Some "T") (Some "1"))
    "T" "1" = [1; 9]
  /\ ConnectionManager.global_connections
       (ConnectionManager.connect three_connections 9 (Some "T") None)
     = [3; 9].
Proof.
  split.
  - apply (proj1 (connect_registers_scoped_or_global three_connections 9)
             "T" "1"); discriminate.
  - apply (proj2 (connect_registers_scoped_or_global three_connections 9)
             (Some "T") None). right. reflexivity.
Defined.

Lemma disconnect_undoes_connect_witness :
  ConnectionManager.scoped
    (ConnectionManager.disconnect
       (ConnectionManager.connect three_connections 9 (Some "T") (Some "1"))
       9 (Some "T") (Some "1")) "T" "1"
  = [1]
  /\ ConnectionManager.disconnect
       (ConnectionManager.connect three_connections 9 None None) 9 None None
     = three_connections.
Proof.
  split.
  - apply (proj2 (disconnect_undoes_connect three_connections 9) "T" "1").
    + discriminate.
    + discriminate.
    + simpl. intuition discriminate.
  - apply (proj1 (disconnect_undoes_connect three_connections 9)).
    simpl. intuition discriminate.
Defined.

Lemma broadcast_evicts_dead_connection_witness :
  exists (self' : ConnectionManager.t) (sent' : list ConnectionManager.send),
    ConnectionManager.broadcast_to_entity (H := lossy_transport)
      three_connections "T" "1" (VDict []) [] = Ok (self', sent')
    /\ unregistered self' 1.
Proof.
  apply (@broadcast_evicts_dead_connection lossy_transport three_connections
           "T" "1" (VDict []) "{}" [] 1).
  - reflexivity.
  - exact three_connections_registered_once.
  - intros text sent. reflexivity.
  - simpl. tauto.
Defined.

Lemma broadcast_keeps_healthy_connections_witness :
  exists (self' : ConnectionManager.t) (sent' : list ConnectionManager.send),
    ConnectionManager.broadcast_to_entity (H := lossy_transport)
      three_connections "T" "1" (VDict []) [] = Ok (self', sent')
    /\ In 3 (ConnectionManager.global_connections self').
Proof.
  destruct (@broadcast_keeps_healthy_connections lossy_transport
              three_connections "T" "1" (VDict []) "{}" [] eq_refl)
    as (self' & sent' & E & K & _).
  exists self', sent'. split; [exact E|].
  apply (K 3).
  - intros text sent. reflexivity.
  - simpl. tauto.
Defined.

Lemma broadcast_global_recipients_witness :
  exists self' : ConnectionManager.t,
    ConnectionManager.broadcast_global (H := plain_transport)
      three_connections (VDict [(KStr "type", VStr "test")]) []
    = Ok (self', [(3, "{}")]).
Proof.
  apply (@broadcast_global_recipients plain_transport three_connections
           (VDict [(KStr "type", VStr "test")]) "{}" []).
  reflexivity.
Defined.

Section CallServiceFacts.
Context `{Runtime}.

(** X30. [call_service] is a soft failure whatever its arguments are:
    given a service and a method it never raises, returns the
    [not_implemented] record naming them, leaves an audit trail that is
    the former one followed by one entry holding that record with
    [success = false], and changes neither storage, nor the fetched
    data, nor the client effects, nor the context. *)
Theorem call_service_is_a_soft_failure (self : EffectExecutor.t)
    (tag service method : value) (more : list value) (context : dict) :
  let returned :=
    VDict [(KStr "service", service); (KStr "method", method);
           (KStr "status", VStr "not_implemented")] in
  exists self' : EffectExecutor.t,
    EffectExecutor._execute_call_service self
      (tag :: service :: method :: more) context
    = Ok (returned, self', context)
    /\ EffectExecutor.effect_results self'
       = EffectExecutor.effect_results self
         ++ [VDict [(KStr "effect", VStr "call_service");
                    (KStr "service", service);
                    (KStr "method", method);
                    (KStr "data", returned);
                    (KStr "success", VBool false)]]
    /\ EffectExecutor.repository self' = EffectExecutor.repository self
    /\ EffectExecutor.data self' = EffectExecutor.data self
    /\ EffectExecutor.client_effects self'
       = EffectExecutor.client_effects self.
Proof.
  intro returned.
  exists (EffectExecutor.append_effect_result self
            (VDict [(KStr "effect", VStr "call_service");
                    (KStr "service", service);
                    (KStr "method", method);
                    (KStr "data", returned);
                    (KStr "success", VBool false)])).
  split; [|repeat split].
  unfold EffectExecutor._execute_call_service.
  cbn [list_subscript nth_error rbind].
  destruct more as [|raw more]; [reflexivity|].
  cbn [List.length Nat.ltb Nat.leb list_subscript nth_error rbind].
  destruct (resolve_binding_total raw context) as [args R].
  now rewrite R.
Qed.

End CallServiceFacts.
